(** * HexTransfer: the receiving side of the CAN firmware transfer

    A shallow embedding of [src/HexTransfer.cpp] (namespace [HexTransfer])
    and of the declarations of its header.  The globals of the namespace
    become one [State] record that every operation threads explicitly;
    fixed-width integers are [Z] with the wrap-around written out; the
    external collaborators ([millis], [sscanf], the flash primitives of
    FlashTxx and the FastCRC object) are parameters or small models that are
    marked as such. *)

From Stdlib Require Import ZArith List Bool Lia.
From Stdlib Require String.
From stdpp Require Import base numbers option list.
Import ListNotations.
Local Open Scope Z_scope.

(** ** Fixed-width integers *)

Definition u8 (x : Z) : Z := x mod 2 ^ 8.
Definition u16 (x : Z) : Z := x mod 2 ^ 16.
Definition u32 (x : Z) : Z := x mod 2 ^ 32.

(** [reinterpret_cast<const uint8_t*>] of a little-endian integer. *)
Definition le_bytes (n : nat) (x : Z) : list Z :=
  map (fun i => Z.land (Z.shiftr x (8 * Z.of_nat i)) 255) (seq 0 n).

(** ** Constants of HexTransfer.h *)

Definition MAX_HEX_LINE_SIZE : Z := 45.
Definition MAX_HEX_CHUNK_SIZE : Z := 5.
Definition MAX_CHUNKS_PER_HEX_LINE : Z := 9.
Definition PAD : Z := 255.
Definition HEX_LINE_TIMEOUT_LEN : Z := 5000.
Definition INACTIVITY_TIMEOUT_LEN : Z := 15000.

(** ** The FastCRC32 object *)

Module FastCRC.

Definition poly : Z := 0xEDB88320.

Definition shift_bit (c : Z) : Z :=
  if Z.testbit c 0 then Z.lxor (Z.shiftr c 1) poly else Z.shiftr c 1.

Definition feed_byte (c b : Z) : Z :=
  Nat.iter 8 shift_bit (Z.lxor c (Z.land b 255)).

Definition feed (c : Z) (data : list Z) : Z := fold_left feed_byte data c.

(** Modelled from the spec: the class [FastCRC32] of the FastCRC library,
    which is not part of the repository.  The spec fixes the algorithm
    (IEEE 802.3 CRC-32, reflected polynomial 0xEDB88320, initial value
    0xFFFFFFFF, final xor 0xFFFFFFFF) and says that the state is carried
    from one update to the next; the object keeps that running value in
    [seed]. *)
Record FastCRC32 : Type := mkCRC { seed : Z }.

(** Modelled from the spec: [crc32_upd] continues the running
    computation and returns the checksum of everything fed so far. *)
Definition crc32_upd (data : list Z) (o : FastCRC32) : Z * FastCRC32 :=
  let crc := feed (seed o) data in
  (Z.lxor crc 0xFFFFFFFF, mkCRC crc).

(** Modelled from the spec: [crc32] restarts the computation with the
    initial value and then continues as [crc32_upd]. *)
Definition crc32 (data : list Z) (o : FastCRC32) : Z * FastCRC32 :=
  crc32_upd data (mkCRC 0xFFFFFFFF).

(** The checksum of a whole byte string, as a pure function. *)
Definition crc32_of (data : list Z) : Z :=
  Z.lxor (feed 0xFFFFFFFF data) 0xFFFFFFFF.

End FastCRC.

Abbreviation FastCRC32 := FastCRC.FastCRC32.

(** ** Enums *)

Module ResponseCode.
Inductive t : Set := NONE | SEND_LINE | TRANSFER_COMPLETE | ERROR.
End ResponseCode.

Module ErrorCode.
Inductive t : Set :=
| NONE
| TRANSFER_NOT_IN_PROGRESS
| TRANSFER_INIT_CHECKSUM_ERROR
| TRANSFER_RETRY_LIMIT_EXCEEDED
| INACTIVITY_TIMEOUT
| FILE_CHECKSUM_ERROR.
End ErrorCode.

(** ** Message structs *)

Module TransferInitMsg.
Record t : Type := mk {
  msg_type : bool;
  line_count : Z;
  file_checksum : Z;
  init_msg_checksum : Z;
  calculated_msg_checksum : Z
}.
End TransferInitMsg.

Module TransferSegmentMsg.
Record t : Type := mk {
  msg_type : bool;
  line_num : Z;
  segment_num : Z;
  total_segments : Z;
  hex_data : list Z
}.
End TransferSegmentMsg.

Record ParsedHexLine : Type := mkLine {
  byte_count : Z;
  address : Z;
  record_type : Z;
  data : list Z;
  checksum : Z;
  valid : bool
}.

Definition set_byte_count (v : Z) (h : ParsedHexLine) : ParsedHexLine :=
  mkLine v (address h) (record_type h) (data h) (checksum h) (valid h).
Definition set_address (v : Z) (h : ParsedHexLine) : ParsedHexLine :=
  mkLine (byte_count h) v (record_type h) (data h) (checksum h) (valid h).
Definition set_record_type (v : Z) (h : ParsedHexLine) : ParsedHexLine :=
  mkLine (byte_count h) (address h) v (data h) (checksum h) (valid h).
Definition set_data (v : list Z) (h : ParsedHexLine) : ParsedHexLine :=
  mkLine (byte_count h) (address h) (record_type h) v (checksum h) (valid h).
Definition set_checksum (v : Z) (h : ParsedHexLine) : ParsedHexLine :=
  mkLine (byte_count h) (address h) (record_type h) (data h) v (valid h).
Definition set_valid (v : bool) (h : ParsedHexLine) : ParsedHexLine :=
  mkLine (byte_count h) (address h) (record_type h) (data h) (checksum h) v.

(** ** The globals of the namespace

    One field per global, under the source's name.  The array behind
    [hex_line_segments_received] is the list itself ([[]] for [nullptr]).
    [staging_writes] is the only field without a counterpart in the source:
    it records, oldest first, every call that stores into the staging
    region ([flash_write_block] or [memcpy]). *)

Inductive StagingWrite : Type :=
| FlashWrite (addr : Z) (bytes : list Z)
| RamCopy (addr : Z) (bytes : list Z).

Record State : Type := mkState {
  flash_buffer_addr : Z;
  flash_buffer_size : Z;
  flash_buffer_initialized : bool;
  base_address : Z;
  start_address : Z;
  min_address : Z;
  max_address : Z;
  eof_received : bool;
  total_lines : Z;
  received_file_checksum : Z;
  hex_line_num : Z;
  hex_line_segment_count : Z;
  hex_line_segments_received : list bool;
  hex_line_buf : list Z;
  new_transfer_init_msg_received : bool;
  transfer_init_msg_error : bool;
  transfer_in_progress : bool;
  file_transfer_complete : bool;
  computed_file_checksum : Z;
  CRC32 : FastCRC32;
  last_successful_can_msg_ts : Z;
  staging_writes : list StagingWrite
}.

Definition set_base_address (v : Z) (s : State) : State :=
  mkState (flash_buffer_addr s) (flash_buffer_size s)
    (flash_buffer_initialized s) v (start_address s) (min_address s)
    (max_address s) (eof_received s) (total_lines s)
    (received_file_checksum s) (hex_line_num s) (hex_line_segment_count s)
    (hex_line_segments_received s) (hex_line_buf s)
    (new_transfer_init_msg_received s) (transfer_init_msg_error s)
    (transfer_in_progress s) (file_transfer_complete s)
    (computed_file_checksum s) (CRC32 s) (last_successful_can_msg_ts s)
    (staging_writes s).

Definition set_start_address (v : Z) (s : State) : State :=
  mkState (flash_buffer_addr s) (flash_buffer_size s)
    (flash_buffer_initialized s) (base_address s) v (min_address s)
    (max_address s) (eof_received s) (total_lines s)
    (received_file_checksum s) (hex_line_num s) (hex_line_segment_count s)
    (hex_line_segments_received s) (hex_line_buf s)
    (new_transfer_init_msg_received s) (transfer_init_msg_error s)
    (transfer_in_progress s) (file_transfer_complete s)
    (computed_file_checksum s) (CRC32 s) (last_successful_can_msg_ts s)
    (staging_writes s).

Definition set_min_address (v : Z) (s : State) : State :=
  mkState (flash_buffer_addr s) (flash_buffer_size s)
    (flash_buffer_initialized s) (base_address s) (start_address s) v
    (max_address s) (eof_received s) (total_lines s)
    (received_file_checksum s) (hex_line_num s) (hex_line_segment_count s)
    (hex_line_segments_received s) (hex_line_buf s)
    (new_transfer_init_msg_received s) (transfer_init_msg_error s)
    (transfer_in_progress s) (file_transfer_complete s)
    (computed_file_checksum s) (CRC32 s) (last_successful_can_msg_ts s)
    (staging_writes s).

Definition set_max_address (v : Z) (s : State) : State :=
  mkState (flash_buffer_addr s) (flash_buffer_size s)
    (flash_buffer_initialized s) (base_address s) (start_address s)
    (min_address s) v (eof_received s) (total_lines s)
    (received_file_checksum s) (hex_line_num s) (hex_line_segment_count s)
    (hex_line_segments_received s) (hex_line_buf s)
    (new_transfer_init_msg_received s) (transfer_init_msg_error s)
    (transfer_in_progress s) (file_transfer_complete s)
    (computed_file_checksum s) (CRC32 s) (last_successful_can_msg_ts s)
    (staging_writes s).

Definition set_eof_received (v : bool) (s : State) : State :=
  mkState (flash_buffer_addr s) (flash_buffer_size s)
    (flash_buffer_initialized s) (base_address s) (start_address s)
    (min_address s) (max_address s) v (total_lines s)
    (received_file_checksum s) (hex_line_num s) (hex_line_segment_count s)
    (hex_line_segments_received s) (hex_line_buf s)
    (new_transfer_init_msg_received s) (transfer_init_msg_error s)
    (transfer_in_progress s) (file_transfer_complete s)
    (computed_file_checksum s) (CRC32 s) (last_successful_can_msg_ts s)
    (staging_writes s).

Definition set_total_lines (v : Z) (s : State) : State :=
  mkState (flash_buffer_addr s) (flash_buffer_size s)
    (flash_buffer_initialized s) (base_address s) (start_address s)
    (min_address s) (max_address s) (eof_received s) v
    (received_file_checksum s) (hex_line_num s) (hex_line_segment_count s)
    (hex_line_segments_received s) (hex_line_buf s)
    (new_transfer_init_msg_received s) (transfer_init_msg_error s)
    (transfer_in_progress s) (file_transfer_complete s)
    (computed_file_checksum s) (CRC32 s) (last_successful_can_msg_ts s)
    (staging_writes s).

Definition set_received_file_checksum (v : Z) (s : State) : State :=
  mkState (flash_buffer_addr s) (flash_buffer_size s)
    (flash_buffer_initialized s) (base_address s) (start_address s)
    (min_address s) (max_address s) (eof_received s) (total_lines s) v
    (hex_line_num s) (hex_line_segment_count s) (hex_line_segments_received s)
    (hex_line_buf s) (new_transfer_init_msg_received s)
    (transfer_init_msg_error s) (transfer_in_progress s)
    (file_transfer_complete s) (computed_file_checksum s) (CRC32 s)
    (last_successful_can_msg_ts s) (staging_writes s).

Definition set_hex_line_num (v : Z) (s : State) : State :=
  mkState (flash_buffer_addr s) (flash_buffer_size s)
    (flash_buffer_initialized s) (base_address s) (start_address s)
    (min_address s) (max_address s) (eof_received s) (total_lines s)
    (received_file_checksum s) v (hex_line_segment_count s)
    (hex_line_segments_received s) (hex_line_buf s)
    (new_transfer_init_msg_received s) (transfer_init_msg_error s)
    (transfer_in_progress s) (file_transfer_complete s)
    (computed_file_checksum s) (CRC32 s) (last_successful_can_msg_ts s)
    (staging_writes s).

Definition set_hex_line_segment_count (v : Z) (s : State) : State :=
  mkState (flash_buffer_addr s) (flash_buffer_size s)
    (flash_buffer_initialized s) (base_address s) (start_address s)
    (min_address s) (max_address s) (eof_received s) (total_lines s)
    (received_file_checksum s) (hex_line_num s) v
    (hex_line_segments_received s) (hex_line_buf s)
    (new_transfer_init_msg_received s) (transfer_init_msg_error s)
    (transfer_in_progress s) (file_transfer_complete s)
    (computed_file_checksum s) (CRC32 s) (last_successful_can_msg_ts s)
    (staging_writes s).

Definition set_hex_line_segments_received (v : list bool) (s : State) : State :=
  mkState (flash_buffer_addr s) (flash_buffer_size s)
    (flash_buffer_initialized s) (base_address s) (start_address s)
    (min_address s) (max_address s) (eof_received s) (total_lines s)
    (received_file_checksum s) (hex_line_num s) (hex_line_segment_count s) v
    (hex_line_buf s) (new_transfer_init_msg_received s)
    (transfer_init_msg_error s) (transfer_in_progress s)
    (file_transfer_complete s) (computed_file_checksum s) (CRC32 s)
    (last_successful_can_msg_ts s) (staging_writes s).

Definition set_hex_line_buf (v : list Z) (s : State) : State :=
  mkState (flash_buffer_addr s) (flash_buffer_size s)
    (flash_buffer_initialized s) (base_address s) (start_address s)
    (min_address s) (max_address s) (eof_received s) (total_lines s)
    (received_file_checksum s) (hex_line_num s) (hex_line_segment_count s)
    (hex_line_segments_received s) v (new_transfer_init_msg_received s)
    (transfer_init_msg_error s) (transfer_in_progress s)
    (file_transfer_complete s) (computed_file_checksum s) (CRC32 s)
    (last_successful_can_msg_ts s) (staging_writes s).

Definition set_new_transfer_init_msg_received (v : bool) (s : State) : State :=
  mkState (flash_buffer_addr s) (flash_buffer_size s)
    (flash_buffer_initialized s) (base_address s) (start_address s)
    (min_address s) (max_address s) (eof_received s) (total_lines s)
    (received_file_checksum s) (hex_line_num s) (hex_line_segment_count s)
    (hex_line_segments_received s) (hex_line_buf s) v
    (transfer_init_msg_error s) (transfer_in_progress s)
    (file_transfer_complete s) (computed_file_checksum s) (CRC32 s)
    (last_successful_can_msg_ts s) (staging_writes s).

Definition set_transfer_init_msg_error (v : bool) (s : State) : State :=
  mkState (flash_buffer_addr s) (flash_buffer_size s)
    (flash_buffer_initialized s) (base_address s) (start_address s)
    (min_address s) (max_address s) (eof_received s) (total_lines s)
    (received_file_checksum s) (hex_line_num s) (hex_line_segment_count s)
    (hex_line_segments_received s) (hex_line_buf s)
    (new_transfer_init_msg_received s) v (transfer_in_progress s)
    (file_transfer_complete s) (computed_file_checksum s) (CRC32 s)
    (last_successful_can_msg_ts s) (staging_writes s).

Definition set_transfer_in_progress (v : bool) (s : State) : State :=
  mkState (flash_buffer_addr s) (flash_buffer_size s)
    (flash_buffer_initialized s) (base_address s) (start_address s)
    (min_address s) (max_address s) (eof_received s) (total_lines s)
    (received_file_checksum s) (hex_line_num s) (hex_line_segment_count s)
    (hex_line_segments_received s) (hex_line_buf s)
    (new_transfer_init_msg_received s) (transfer_init_msg_error s) v
    (file_transfer_complete s) (computed_file_checksum s) (CRC32 s)
    (last_successful_can_msg_ts s) (staging_writes s).

Definition set_file_transfer_complete (v : bool) (s : State) : State :=
  mkState (flash_buffer_addr s) (flash_buffer_size s)
    (flash_buffer_initialized s) (base_address s) (start_address s)
    (min_address s) (max_address s) (eof_received s) (total_lines s)
    (received_file_checksum s) (hex_line_num s) (hex_line_segment_count s)
    (hex_line_segments_received s) (hex_line_buf s)
    (new_transfer_init_msg_received s) (transfer_init_msg_error s)
    (transfer_in_progress s) v (computed_file_checksum s) (CRC32 s)
    (last_successful_can_msg_ts s) (staging_writes s).

Definition set_computed_file_checksum (v : Z) (s : State) : State :=
  mkState (flash_buffer_addr s) (flash_buffer_size s)
    (flash_buffer_initialized s) (base_address s) (start_address s)
    (min_address s) (max_address s) (eof_received s) (total_lines s)
    (received_file_checksum s) (hex_line_num s) (hex_line_segment_count s)
    (hex_line_segments_received s) (hex_line_buf s)
    (new_transfer_init_msg_received s) (transfer_init_msg_error s)
    (transfer_in_progress s) (file_transfer_complete s) v (CRC32 s)
    (last_successful_can_msg_ts s) (staging_writes s).

Definition set_CRC32 (v : FastCRC32) (s : State) : State :=
  mkState (flash_buffer_addr s) (flash_buffer_size s)
    (flash_buffer_initialized s) (base_address s) (start_address s)
    (min_address s) (max_address s) (eof_received s) (total_lines s)
    (received_file_checksum s) (hex_line_num s) (hex_line_segment_count s)
    (hex_line_segments_received s) (hex_line_buf s)
    (new_transfer_init_msg_received s) (transfer_init_msg_error s)
    (transfer_in_progress s) (file_transfer_complete s)
    (computed_file_checksum s) v (last_successful_can_msg_ts s)
    (staging_writes s).

Definition set_last_successful_can_msg_ts (v : Z) (s : State) : State :=
  mkState (flash_buffer_addr s) (flash_buffer_size s)
    (flash_buffer_initialized s) (base_address s) (start_address s)
    (min_address s) (max_address s) (eof_received s) (total_lines s)
    (received_file_checksum s) (hex_line_num s) (hex_line_segment_count s)
    (hex_line_segments_received s) (hex_line_buf s)
    (new_transfer_init_msg_received s) (transfer_init_msg_error s)
    (transfer_in_progress s) (file_transfer_complete s)
    (computed_file_checksum s) (CRC32 s) v (staging_writes s).

Definition set_staging_writes (v : list StagingWrite) (s : State) : State :=
  mkState (flash_buffer_addr s) (flash_buffer_size s)
    (flash_buffer_initialized s) (base_address s) (start_address s)
    (min_address s) (max_address s) (eof_received s) (total_lines s)
    (received_file_checksum s) (hex_line_num s) (hex_line_segment_count s)
    (hex_line_segments_received s) (hex_line_buf s)
    (new_transfer_init_msg_received s) (transfer_init_msg_error s)
    (transfer_in_progress s) (file_transfer_complete s)
    (computed_file_checksum s) (CRC32 s) (last_successful_can_msg_ts s) v.

(** ** Reading arrays *)

Definition at_index (buf : list Z) (i : nat) : Z := default 0 (buf !! i).

(** [buf[i]] of a [uint8_t] array. *)
Definition byte_at (buf : list Z) (i : nat) : Z := u8 (at_index buf i).

(** An array store [a[idx] = v] into an array declared with [size]
    elements.  A store outside the array is undefined behaviour in the
    source; the model stops there with [None]. *)
Definition store {A : Type} (size : Z) (idx : Z) (v : A) (a : list A)
  : option (list A) :=
  if (0 <=? idx) && (idx <? size) then Some (<[Z.to_nat idx := v]> a)
  else None.

(** ** Helper functions *)

Definition reset_cur_hex_line_buff (s : State) : State :=
  let s := set_hex_line_segment_count (-1) s in
  let s := set_hex_line_segments_received [] s in
  set_hex_line_buf (replicate (Z.to_nat MAX_HEX_LINE_SIZE) PAD) s.

Definition clear_transfer_state (s : State) : State :=
  let s := set_base_address 0 s in
  let s := set_start_address 0 s in
  let s := set_min_address 0xFFFFFFFF s in
  let s := set_max_address 0 s in
  let s := set_eof_received false s in
  let s := set_total_lines 0 s in
  let s := set_received_file_checksum 0 s in
  let s := set_hex_line_num 0 s in
  let s := set_new_transfer_init_msg_received false s in
  let s := set_transfer_init_msg_error false s in
  let s := set_transfer_in_progress false s in
  let s := set_file_transfer_complete false s in
  let '(c, o) := FastCRC.crc32 [] (CRC32 s) in
  let s := set_computed_file_checksum c (set_CRC32 o s) in
  reset_cur_hex_line_buff s.

Definition abort_transfer (s : State) : State := clear_transfer_state s.

Definition init (s : State) : State := clear_transfer_state s.

(** [for (int i = 0; i < hex_line_segment_count; i++)
      if (!hex_line_segments_received[i]) return false;
    return true;]
    The array has [hex_line_segment_count] entries whenever the count is
    not negative (see [wf_State]), so the default of the read is not
    used. *)
Definition are_all_segments_received (s : State) : bool :=
  forallb (fun i => default false (hex_line_segments_received s !! i))
    (seq 0 (Z.to_nat (hex_line_segment_count s))).

(** [while (len < MAX_HEX_LINE_SIZE && buf[len] != PAD) len++;] *)
Fixpoint scan_to_pad (fuel : nat) (len : nat) (buf : list Z) : nat :=
  match fuel with
  | O => len
  | S fuel' =>
      if (Z.of_nat len <? MAX_HEX_LINE_SIZE) && negb (at_index buf len =? PAD)
      then scan_to_pad fuel' (S len) buf
      else len
  end.

Definition line_length (buf : list Z) : nat :=
  scan_to_pad (Z.to_nat MAX_HEX_LINE_SIZE) 0 buf.

Definition add_hex_line_to_checksum (s : State) : State :=
  let len := line_length (hex_line_buf s) in
  let '(c, o) := FastCRC.crc32_upd (firstn len (hex_line_buf s)) (CRC32 s) in
  set_computed_file_checksum c (set_CRC32 o s).

Definition is_file_checksum_valid (s : State) : bool :=
  if negb (computed_file_checksum s =? received_file_checksum s) then false
  else true.

Definition is_transfer_in_progress (s : State) : bool :=
  transfer_in_progress s.

Definition is_file_transfer_complete (s : State) : bool :=
  file_transfer_complete s.

(** [millis] is the value that [millis()] returns at the call. *)
Definition has_segment_timed_out (millis : Z) (s : State) : bool :=
  u32 (millis - last_successful_can_msg_ts s) >? HEX_LINE_TIMEOUT_LEN.

Definition has_transfer_timed_out (millis : Z) (s : State) : bool :=
  u32 (millis - last_successful_can_msg_ts s) >? INACTIVITY_TIMEOUT_LEN.

(** ** CAN bus message handlers *)

(** [packed |= (uint64_t)buf[i] << (8 * i)] for [i] from 0 to 7. *)
Definition pack_le (buf : list Z) : Z :=
  fold_left
    (fun packed i => Z.lor packed (Z.shiftl (byte_at buf i) (8 * Z.of_nat i)))
    (seq 0 8) 0.

(** What [CRC32.crc32(reinterpret_cast<const uint8_t*>(&m), 48)] reads.
    The object [m] occupies 12 bytes: [msg_type] at offset 0, one byte of
    padding, [line_count] at 2, [file_checksum] at 4, [init_msg_checksum]
    at 8 and [calculated_msg_checksum] (still zero from [m{}]) at 10.  The
    call reads 48 bytes, so 36 more bytes that lie behind the object.  The
    padding byte and those 36 bytes are not determined by the program text:
    they are the [StackBytes] argument. *)
Record StackBytes : Type := mkStack {
  padding : Z;
  past_object : nat -> Z
}.

Definition init_msg_object (st : StackBytes) (m : TransferInitMsg.t)
  : list Z :=
  [if TransferInitMsg.msg_type m then 1 else 0; u8 (padding st)]
  ++ le_bytes 2 (TransferInitMsg.line_count m)
  ++ le_bytes 4 (TransferInitMsg.file_checksum m)
  ++ le_bytes 2 (TransferInitMsg.init_msg_checksum m)
  ++ le_bytes 2 (TransferInitMsg.calculated_msg_checksum m).

Definition init_msg_crc_input (st : StackBytes) (m : TransferInitMsg.t)
  : list Z :=
  init_msg_object st m ++ map (fun i => u8 (past_object st i)) (seq 0 36).

Definition unpack_transfer_init_msg (st : StackBytes) (buf : list Z)
  (s : State) : TransferInitMsg.t * State :=
  let packed := pack_le buf in
  let m :=
    TransferInitMsg.mk
      (negb (Z.land (Z.shiftr packed 0) 0x1 =? 0))
      (Z.land (Z.shiftr packed 1) 0x7FFF)
      (Z.land (Z.shiftr packed 16) 0xFFFFFFFF)
      (Z.land (Z.shiftr packed 48) 0xFFFF)
      0 in
  let '(c, o) := FastCRC.crc32 (init_msg_crc_input st m) (CRC32 s) in
  (TransferInitMsg.mk
     (TransferInitMsg.msg_type m) (TransferInitMsg.line_count m)
     (TransferInitMsg.file_checksum m) (TransferInitMsg.init_msg_checksum m)
     (u16 c),
   set_CRC32 o s).

Definition unpack_transfer_segment_msg (buf : list Z) : TransferSegmentMsg.t :=
  let packed := pack_le buf in
  TransferSegmentMsg.mk
    (negb (Z.land (Z.shiftr packed 0) 0x1 =? 0))
    (Z.land (Z.shiftr packed 1) 0x7FFF)
    (Z.land (Z.shiftr packed 16) 0x0F)
    (Z.land (Z.shiftr packed 20) 0x0F)
    (map (fun i => Z.land (Z.shiftr packed (24 + 8 * Z.of_nat i)) 0xFF)
       (seq 0 (Z.to_nat MAX_HEX_CHUNK_SIZE))).

Definition process_transfer_init_msg (msg : TransferInitMsg.t) (s : State)
  : bool * State :=
  if TransferInitMsg.msg_type msg then (false, s)
  else
    let s := set_new_transfer_init_msg_received true s in
    if negb (TransferInitMsg.init_msg_checksum msg
             =? TransferInitMsg.calculated_msg_checksum msg)
    then (false, set_transfer_init_msg_error true s)
    else
      let s := set_transfer_init_msg_error false s in
      let s := abort_transfer s in
      let s := set_transfer_in_progress true s in
      let s := set_received_file_checksum (TransferInitMsg.file_checksum msg) s in
      let s := set_total_lines (TransferInitMsg.line_count msg) s in
      (true, s).

(** [for (i = 0; i < MAX_HEX_CHUNK_SIZE; i++)
      hex_line_buf[segment_num * MAX_HEX_CHUNK_SIZE + i] = hex_data[i];] *)
Definition copy_segment (segment_num : Z) (hex_data : list Z) (buf : list Z)
  : option (list Z) :=
  fold_left
    (fun acc i =>
       b ← acc;
       store MAX_HEX_LINE_SIZE
         (segment_num * MAX_HEX_CHUNK_SIZE + Z.of_nat i)
         (at_index hex_data i) b)
    (seq 0 (Z.to_nat MAX_HEX_CHUNK_SIZE)) (Some buf).

(** The second half of [process_transfer_segment_msg]: the check of the
    segment number, the copy into the line buffer and the mark in
    [hex_line_segments_received]. *)
Definition check_and_copy (msg : TransferSegmentMsg.t) (s : State)
  : option (bool * State) :=
  if TransferSegmentMsg.segment_num msg >=? hex_line_segment_count s
  then Some (false, s)
  else
    buf ← copy_segment (TransferSegmentMsg.segment_num msg)
             (TransferSegmentMsg.hex_data msg) (hex_line_buf s);
    received ← store (Z.of_nat (length (hex_line_segments_received s)))
                 (TransferSegmentMsg.segment_num msg) true
                 (hex_line_segments_received s);
    Some (true,
          set_hex_line_segments_received received (set_hex_line_buf buf s)).

(** The first segment of a line fixes the segment count and allocates the
    array of flags: [hex_line_segments_received = new bool[count]], all
    false. *)
Definition first_segment (total_segments : Z) (s : State) : State :=
  let s := set_hex_line_segment_count total_segments s in
  set_hex_line_segments_received
    (replicate (Z.to_nat total_segments) false) s.

Definition process_transfer_segment_msg (msg : TransferSegmentMsg.t)
  (s : State) : option (bool * State) :=
  if negb (TransferSegmentMsg.line_num msg =? hex_line_num s)
  then Some (false, s)
  else if hex_line_segment_count s =? -1 then
    check_and_copy msg
      (first_segment (TransferSegmentMsg.total_segments msg) s)
  else if negb (TransferSegmentMsg.total_segments msg
                =? hex_line_segment_count s)
  then Some (false, s)
  else check_and_copy msg s.

Definition handle_can_msg (st : StackBytes) (millis : Z) (buf : list Z)
  (s : State) : option State :=
  if Z.land (byte_at buf 0) 0x01 =? 0 then
    let '(msg, s) := unpack_transfer_init_msg st buf s in
    let '(ok, s) := process_transfer_init_msg msg s in
    if negb ok then Some s
    else Some (set_last_successful_can_msg_ts (u32 millis) s)
  else if transfer_in_progress s then
    let msg := unpack_transfer_segment_msg buf in
    '(ok, s) ← process_transfer_segment_msg msg s;
    if negb ok then Some s
    else Some (set_last_successful_can_msg_ts (u32 millis) s)
  else Some (set_last_successful_can_msg_ts (u32 millis) s).

(** [send_response] and [pack_response] are stubs in the source: nothing is
    put on the bus.  What the controller hands to [send_response] is the
    response it emits; [update] calls it with the error code left at its
    default. *)
Definition Response : Type := ResponseCode.t * ErrorCode.t.

Definition send_response (res : ResponseCode.t) (err : ErrorCode.t)
  : Response := (res, err).

(** ** Hex line processing *)

(** The result of one [sscanf(ptr, "%02x", &field)] or
    [sscanf(ptr, "%4x", &field)]: the conversion assigned a value (return
    value 1), the input did not match (return value 0), or the input ended
    before the conversion (return value [EOF]).  The source tests
    [!sscanf(...)], which holds for the second case only; in the third the
    field keeps what it held before. *)
Inductive ScanResult : Type :=
| Assigned (v : Z)
| MatchFailure
| InputFailure.

(** What the program takes from its platform and build: the C library's
    hexadecimal conversion (given the field width and the characters from
    [ptr] to the end of the buffer), the macros [FLASH_BASE_ADDR] and
    [IN_FLASH] and the function [flash_write_block] of FlashTxx, and the
    build option [DRYRUN].  [flash_write_block] sees the writes made so far
    and returns its error code. *)
Class Platform : Type := {
  sscanf_x : nat -> list Z -> ScanResult;
  FLASH_BASE_ADDR : Z;
  IN_FLASH : Z -> bool;
  flash_write_block : list StagingWrite -> Z -> list Z -> Z -> Z;
  DRYRUN : bool
}.

Section HexLine.

Context {platform : Platform}.

(** One conversion into a field: [None] when the source returns the line
    as invalid, otherwise the line with the field assigned or untouched. *)
Definition scan_field (width : nat) (ptr : nat) (buf : list Z)
  (assign : Z -> ParsedHexLine -> ParsedHexLine) (hex_line : ParsedHexLine)
  : option ParsedHexLine :=
  match sscanf_x width (drop ptr buf) with
  | Assigned v => Some (assign (u32 v) hex_line)
  | MatchFailure => None
  | InputFailure => Some hex_line
  end.

(** [for (i = 0; i < byte_count; i++) { sscanf(ptr, "%02x", &data[i]);
    ptr += 2; }], with [n] iterations left.  The result tells whether the
    loop ran to its end; the line carries what was assigned until then. *)
Fixpoint scan_data (n : nat) (i : nat) (ptr : nat) (buf : list Z)
  (hex_line : ParsedHexLine) : bool * ParsedHexLine :=
  match n with
  | O => (true, hex_line)
  | S n' =>
      match scan_field 2 ptr buf
              (fun v h => set_data (<[i := v]> (data h)) h) hex_line with
      | None => (false, hex_line)
      | Some hex_line => scan_data n' (S i) (ptr + 2) buf hex_line
      end
  end.

(** [hex_line0] is the local [ParsedHexLine hex_line;] before anything is
    assigned to it: the source does not initialise it.  Its [data] stands
    for the array of 16 [unsigned int].  The local [checksum] that the
    source sums up is never read and is left out. *)
Definition parse_and_validate_hex_line (hex_line0 : ParsedHexLine)
  (buf : list Z) : ParsedHexLine :=
  let hex_line := set_valid true hex_line0 in
  let lineLen := line_length buf in
  if Z.of_nat lineLen <? 11 then set_valid false hex_line
  else if negb (at_index buf 0 =? 58) then set_valid false hex_line
  else
    match scan_field 2 1 buf set_byte_count hex_line with
    | None => set_valid false hex_line
    | Some hex_line =>
    if byte_count hex_line >? 16 then set_valid false hex_line
    else if negb (Z.of_nat lineLen =? 11 + byte_count hex_line * 2)
    then set_valid false hex_line
    else
      match scan_field 4 3 buf set_address hex_line with
      | None => set_valid false hex_line
      | Some hex_line =>
      match scan_field 2 7 buf set_record_type hex_line with
      | None => set_valid false hex_line
      | Some hex_line =>
      if record_type hex_line >? 5 then set_valid false hex_line
      else
        let '(ok, hex_line') :=
          scan_data (Z.to_nat (byte_count hex_line)) 0 9 buf hex_line in
        if negb ok then set_valid false hex_line'
        else
          match scan_field 2 (9 + 2 * Z.to_nat (byte_count hex_line)) buf
                  set_checksum hex_line' with
          | None => set_valid false hex_line'
          | Some hex_line' => hex_line'
          end
      end
      end
    end.

(** The bytes behind [reinterpret_cast<char*>(hex_line.data)]: the array
    of [unsigned int] seen as bytes, [byte_count] of them. *)
Definition data_bytes (hex_line : ParsedHexLine) : list Z :=
  take (Z.to_nat (byte_count hex_line))
    (flat_map (le_bytes 4) (data hex_line)).

(** The first two statements of [process_hex_data_record]:
    [if (base_address + address + byte_count > max_address) max_address = ...;
     if (base_address + address < min_address) min_address = ...;] *)
Definition update_min_max (hex_line : ParsedHexLine) (s : State) : State :=
  let s :=
    if u32 (base_address s + address hex_line + byte_count hex_line)
       >? max_address s
    then set_max_address
           (u32 (base_address s + address hex_line + byte_count hex_line)) s
    else s in
  if u32 (base_address s + address hex_line) <? min_address s
  then set_min_address (u32 (base_address s + address hex_line)) s
  else s.

Definition process_hex_data_record (hex_line : ParsedHexLine) (s : State)
  : bool * State :=
  if negb (record_type hex_line =? 0) then (false, s)
  else
    let s := update_min_max hex_line s in
    if max_address s >? u32 (FLASH_BASE_ADDR + flash_buffer_size s)
    then (false, s)
    else if DRYRUN then (true, s)
    else
      let addr :=
        u32 (flash_buffer_addr s + base_address s + address hex_line
             - FLASH_BASE_ADDR) in
      if IN_FLASH (flash_buffer_addr s) then
        let error :=
          flash_write_block (staging_writes s) addr (data_bytes hex_line)
            (byte_count hex_line) in
        let s' :=
          set_staging_writes
            (staging_writes s ++ [FlashWrite addr (data_bytes hex_line)]) s in
        if negb (error =? 0) then (false, s') else (true, s')
      else
        (true,
         set_staging_writes
           (staging_writes s ++ [RamCopy addr (data_bytes hex_line)]) s).

Definition process_hex_eof_record (hex_line : ParsedHexLine) (s : State)
  : bool * State :=
  if negb (record_type hex_line =? 1) then (false, s)
  else if negb (hex_line_num s =? u32 (total_lines s - 1)) then (false, s)
  else (true, set_eof_received true s).

Definition process_hex_extended_segment_address_record
  (hex_line : ParsedHexLine) (s : State) : bool * State :=
  if negb (record_type hex_line =? 2) then (false, s)
  else
    (true,
     set_base_address
       (u32 (Z.shiftl (Z.lor (u32 (Z.shiftl (at_index (data hex_line) 0) 8))
                             (at_index (data hex_line) 1)) 4)) s).

Definition process_hex_start_segment_address_record
  (hex_line : ParsedHexLine) (s : State) : bool * State :=
  if negb (record_type hex_line =? 3) then (false, s) else (true, s).

Definition process_hex_extended_linear_address_record
  (hex_line : ParsedHexLine) (s : State) : bool * State :=
  if negb (record_type hex_line =? 4) then (false, s)
  else
    (true,
     set_base_address
       (u32 (Z.shiftl (Z.lor (u32 (Z.shiftl (at_index (data hex_line) 0) 8))
                             (at_index (data hex_line) 1)) 16)) s).

Definition process_hex_start_linear_address_record
  (hex_line : ParsedHexLine) (s : State) : bool * State :=
  if negb (record_type hex_line =? 5) then (false, s) else (true, s).

Definition process_hex_line (hex_line : ParsedHexLine) (s : State)
  : bool * State :=
  match record_type hex_line with
  | 0 => process_hex_data_record hex_line s
  | 1 => process_hex_eof_record hex_line s
  | 2 => process_hex_extended_segment_address_record hex_line s
  | 3 => process_hex_start_segment_address_record hex_line s
  | 4 => process_hex_extended_linear_address_record hex_line s
  | 5 => process_hex_start_linear_address_record hex_line s
  | _ => (false, s)
  end.

Definition handle_received_hex_line (hex_line0 : ParsedHexLine) (s : State)
  : ResponseCode.t * State :=
  let hex_line := parse_and_validate_hex_line hex_line0 (hex_line_buf s) in
  if negb (valid hex_line)
  then (ResponseCode.SEND_LINE, reset_cur_hex_line_buff s)
  else
    let '(ok, s) := process_hex_line hex_line s in
    if negb ok then (ResponseCode.SEND_LINE, reset_cur_hex_line_buff s)
    else
      let s := add_hex_line_to_checksum s in
      let s := set_hex_line_num (u32 (hex_line_num s + 1)) s in
      let s := reset_cur_hex_line_buff s in
      (ResponseCode.SEND_LINE, s).

(** ** Main functions *)

(** [t_transfer] and [t_segment] are the values of the two [millis()] calls
    an [update] can make.  The result is the response handed to
    [send_response], or [None] when [update] returns before it. *)
Definition update (hex_line0 : ParsedHexLine) (t_transfer t_segment : Z)
  (s : State) : option Response * State :=
  if negb (transfer_in_progress s) then (None, s)
  else
    let '(res, s) :=
      if has_transfer_timed_out t_transfer s then
        (ResponseCode.ERROR, abort_transfer s)
      else if has_segment_timed_out t_segment s then
        (ResponseCode.SEND_LINE, s)
      else if new_transfer_init_msg_received s then
        (if transfer_init_msg_error s then ResponseCode.ERROR
         else ResponseCode.SEND_LINE, s)
      else if are_all_segments_received s then
        handle_received_hex_line hex_line0 s
      else if eof_received s then
        if negb (is_file_checksum_valid s) then
          (ResponseCode.ERROR, abort_transfer s)
        else
          (ResponseCode.TRANSFER_COMPLETE,
           set_file_transfer_complete true
             (set_transfer_in_progress false s))
      else (ResponseCode.NONE, s) in
    (Some (send_response res ErrorCode.NONE), s).

End HexLine.

(** ** Representation invariant

    The line buffer has its declared size, and the array of received flags
    has as many entries as the segment count says. *)
Definition wf_State (s : State) : Prop :=
  length (hex_line_buf s) = Z.to_nat MAX_HEX_LINE_SIZE /\
  (hex_line_segment_count s = -1 \/
   (0 <= hex_line_segment_count s /\
    Z.of_nat (length (hex_line_segments_received s))
    = hex_line_segment_count s)).

(** The globals as the C++ runtime zero-initialises them, with the staging
    buffer configured by the caller. *)
Definition boot (buffer_addr buffer_size : Z) : State :=
  mkState buffer_addr buffer_size true 0 0 0 0 false 0 0 0 0 []
    (replicate (Z.to_nat MAX_HEX_LINE_SIZE) 0) false false false false 0
    (FastCRC.mkCRC 0) 0 [].

(** ** A concrete platform

    Used to run the controller on literal inputs.  [hex_scan] follows the
    C standard's [x] conversion with a field width: white space is skipped,
    the input may end before the conversion starts, an optional sign and an
    optional [0x] prefix count towards the width, and the conversion stops
    at the first character that is no hexadecimal digit. *)
Module Teensy.

Definition is_space (c : Z) : bool := (c =? 32) || ((9 <=? c) && (c <=? 13)).

Definition hex_digit (c : Z) : option Z :=
  if (48 <=? c) && (c <=? 57) then Some (c - 48)
  else if (65 <=? c) && (c <=? 70) then Some (c - 55)
  else if (97 <=? c) && (c <=? 102) then Some (c - 87)
  else None.

Fixpoint skip_space (chars : list Z) : list Z :=
  match chars with
  | c :: rest => if is_space c then skip_space rest else chars
  | [] => []
  end.

Fixpoint scan_digits (width : nat) (seen : bool) (acc : Z) (chars : list Z)
  : option Z :=
  match width, chars with
  | S width', c :: rest =>
      match hex_digit c with
      | Some d => scan_digits width' true (acc * 16 + d) rest
      | None => if seen then Some acc else None
      end
  | _, _ => if seen then Some acc else None
  end.

Definition scan_prefixed (width : nat) (chars : list Z) : option Z :=
  match width, chars with
  | S (S width'), 48 :: (120 | 88) :: rest =>
      scan_digits width' true 0 rest
  | _, _ => scan_digits width false 0 chars
  end.

Definition hex_scan (width : nat) (chars : list Z) : ScanResult :=
  match skip_space chars with
  | [] => InputFailure
  | c :: rest =>
      if c =? 0 then InputFailure
      else
        let '(negative, width, chars) :=
          match width with
          | S width' =>
              if c =? 45 then (true, width', rest)
              else if c =? 43 then (false, width', rest)
              else (false, width, c :: rest)
          | O => (false, width, c :: rest)
          end in
        match scan_prefixed width chars with
        | Some v => Assigned (if negative then - v else v)
        | None => MatchFailure
        end
  end.

(** Teensy 3.5: flash starts at address 0; the header sets [DRYRUN] to 1.
    The flash primitive is taken to succeed. *)
Definition teensy35 : Platform := {|
  sscanf_x := hex_scan;
  FLASH_BASE_ADDR := 0;
  IN_FLASH := fun a => a <? 0x80000;
  flash_write_block := fun _ _ _ _ => 0;
  DRYRUN := true
|}.

(** The uninitialised local of [handle_received_hex_line]. *)
Definition stale_line : ParsedHexLine :=
  mkLine 0 0 0 (replicate 16 0) 0 false.

Definition zero_stack : StackBytes := mkStack 0 (fun _ => 0).

Definition update (t : Z) (s : State) : option Response * State :=
  @update teensy35 stale_line t t s.

(** Delivering frames at one instant [t], stopping at undefined
    behaviour. *)
Definition deliver (t : Z) (frames : list (list Z)) (s : State)
  : option State :=
  foldl (fun acc buf => s ← acc; handle_can_msg zero_stack t buf s)
    (Some s) frames.

(** Frames as the sender packs them. *)
Definition init_frame (line_count file_checksum init_msg_checksum : Z)
  : list Z :=
  le_bytes 8
    (Z.lor (Z.shiftl line_count 1)
       (Z.lor (Z.shiftl file_checksum 16) (Z.shiftl init_msg_checksum 48))).

Definition segment_frame (line_num segment_num total_segments : Z)
  (hex_data : list Z) : list Z :=
  le_bytes 3
    (Z.lor 1
       (Z.lor (Z.shiftl line_num 1)
          (Z.lor (Z.shiftl segment_num 16) (Z.shiftl total_segments 20))))
  ++ take 5 (hex_data ++ replicate 5 PAD).

(** The segments of one line of text. *)
Fixpoint chunks (fuel : nat) (text : list Z) : list (list Z) :=
  match fuel, text with
  | S fuel', _ :: _ => take 5 text :: chunks fuel' (drop 5 text)
  | _, _ => []
  end.

Definition line_frames (line_num : Z) (text : list Z) : list (list Z) :=
  let cs := chunks (length text) text in
  imap (fun i c =>
          segment_frame line_num (Z.of_nat i) (Z.of_nat (length cs)) c) cs.

(** [":00000001FF"], the end-of-file record. *)
Definition eof_text : list Z :=
  [58; 48; 48; 48; 48; 48; 48; 48; 49; 70; 70].

(** [":10010000214601360121470136007EFE09D2190140"], a data record of
    16 bytes at address 0x0100. *)
Definition data_text : list Z :=
  [58; 49; 48; 48; 49; 48; 48; 48; 48; 50; 49; 52; 54; 48; 49; 51; 54; 48;
   49; 50; 49; 52; 55; 48; 49; 51; 54; 48; 48; 55; 69; 70; 69; 48; 57; 68;
   50; 49; 57; 48; 49; 52; 48].

(** Init frames for the file that consists of the end-of-file record
    alone.  [spec_init] carries the low 16 bits of the CRC-32 of its wire
    bytes 0 to 5, [corrupted_init] that value with one bit flipped, and
    [accepted_init] a value that the receiver's own calculation
    reproduces. *)
Definition spec_init : list Z :=
  init_frame 1 (FastCRC.crc32_of eof_text) 12286.
Definition corrupted_init : list Z :=
  init_frame 1 (FastCRC.crc32_of eof_text) 12287.
Definition accepted_init : list Z :=
  init_frame 1 (FastCRC.crc32_of eof_text) 223.

(** A session on a 256 KiB staging buffer: idle after [init], armed by
    [accepted_init], then one [update], the three segments of the
    end-of-file line, and the [update] that consumes the line. *)
Definition idle : State := init (boot 0 0x40000).

Definition armed : State :=
  default idle (handle_can_msg zero_stack 0 accepted_init idle).

Definition line_received : State :=
  default armed
    (deliver 0 (line_frames 0 eof_text) (snd (update 0 armed))).

Definition line_consumed : State := snd (update 0 line_received).

(** The responses of [n] consecutive calls of [update]. *)
Fixpoint responses (n : nat) (t : Z) (s : State) : list (option Response) :=
  match n with
  | O => []
  | S n' => fst (update t s) :: responses n' t (snd (update t s))
  end.

(** A session on a staging buffer of [size] bytes at address 0, armed for
    a file of two lines, with the data record (which ends at 0x0110)
    received. *)
Definition data_line_received (size : Z) : State :=
  let armed :=
    default (init (boot 0 size))
      (handle_can_msg zero_stack 0
         (init_frame 2 (FastCRC.crc32_of (data_text ++ eof_text)) 45364)
         (init (boot 0 size))) in
  default armed (deliver 0 (line_frames 0 data_text) armed).

Definition small_line_received : State := data_line_received 0x100.

(** The same platform in a build without [DRYRUN]. *)
Definition flashing : Platform := {|
  sscanf_x := hex_scan;
  FLASH_BASE_ADDR := 0;
  IN_FLASH := fun a => a <? 0x80000;
  flash_write_block := fun _ _ _ _ => 0;
  DRYRUN := false
|}.

(** The three segments of the end-of-file line, decoded. *)
Definition eof_segments : list TransferSegmentMsg.t :=
  map unpack_transfer_segment_msg (line_frames 0 eof_text).

(** The same segments out of order, the first one twice. *)
Definition eof_segments_shuffled : list TransferSegmentMsg.t :=
  match eof_segments with
  | [m0; m1; m2] => [m2; m0; m1; m0]
  | _ => []
  end.

(** The line that the parser reads from the buffer of a state. *)
Definition parsed (s : State) : ParsedHexLine :=
  @parse_and_validate_hex_line teensy35 stale_line (hex_line_buf s).

(** A stack whose first byte behind the message object is 1. *)
Definition other_stack : StackBytes :=
  mkStack 0 (fun i => match i with O => 1 | S _ => 0 end).

End Teensy.

(** ** Segment delivery in isolation

    The reassembler run over a list of decoded segment messages; [None] is
    undefined behaviour (a store outside an array). *)
Definition deliver_segment (msg : TransferSegmentMsg.t) (s : State)
  : option State :=
  snd <$> process_transfer_segment_msg msg s.

(** A list of steps that may each stop with [None], run from left to
    right. *)
Definition run_steps {M S : Type} (step : M -> S -> option S) (l : list M)
  (s : S) : option S :=
  foldl (fun acc m => acc ≫= step m) (Some s) l.

Definition deliver_segments (msgs : list TransferSegmentMsg.t) (s : State)
  : option State :=
  run_steps deliver_segment msgs s.

(** The five stores of [copy_segment] when none of them is out of
    bounds. *)
Definition pasted (segment_num : Z) (hex_data : list Z) (buf : list Z)
  : list Z :=
  foldl
    (fun b i =>
       <[Z.to_nat (segment_num * MAX_HEX_CHUNK_SIZE + Z.of_nat i)
         := at_index hex_data i]> b)
    buf (seq 0 (Z.to_nat MAX_HEX_CHUNK_SIZE)).

(** [check_and_copy] without its result flag, and the state in which it
    runs: the state itself, or the state with the count and the flags set
    up when this is the first segment of the line. *)
Definition copy_step (msg : TransferSegmentMsg.t) (s : State) : option State :=
  snd <$> check_and_copy msg s.

Definition opened (total_segments : Z) (s : State) : State :=
  if hex_line_segment_count s =? -1 then first_segment total_segments s
  else s.

Definition admitted (total_segments : Z) (s : State) : bool :=
  (hex_line_segment_count s =? -1)
  || (total_segments =? hex_line_segment_count s).

(** Two messages of one line agree: same total, and the same bytes when
    they carry the same segment number. *)
Definition consistent (m1 m2 : TransferSegmentMsg.t) : Prop :=
  TransferSegmentMsg.total_segments m1 = TransferSegmentMsg.total_segments m2
  /\ (TransferSegmentMsg.segment_num m1 = TransferSegmentMsg.segment_num m2 ->
      TransferSegmentMsg.hex_data m1 = TransferSegmentMsg.hex_data m2).

(** The fields that only the controller itself advances. *)
Definition same_progress (s s' : State) : Prop :=
  hex_line_num s' = hex_line_num s /\
  computed_file_checksum s' = computed_file_checksum s /\
  CRC32 s' = CRC32 s /\
  total_lines s' = total_lines s /\
  received_file_checksum s' = received_file_checksum s /\
  transfer_in_progress s' = transfer_in_progress s /\
  file_transfer_complete s' = file_transfer_complete s.

(** * The checksum invariant and the other sources *)

(** The file checksum of a state covers [text]: the CRC object has been
    fed [text] since its last restart and [computed_file_checksum] is the
    CRC-32 of [text]. *)
Definition checksum_covers (text : list Z) (s : State) : Prop :=
  CRC32 s = FastCRC.mkCRC (FastCRC.feed 0xFFFFFFFF text) /\
  computed_file_checksum s = FastCRC.crc32_of text.

Abbreviation seg_num := TransferSegmentMsg.segment_num.

(** ** FirmwareUpdater.cpp

    [FirmwareUpdater::update] reports the state of the transfer on the
    serial line; the result is the list of the lines it prints. *)
Module FirmwareUpdater.

Import String.

Definition no_transfer : string := "No transfer in progress."%string.
Definition in_progress : string := "Transfer in progress..."%string.
Definition complete : string := "File transfer complete."%string.

Definition update (s : State) : list string :=
  (if negb (is_transfer_in_progress s) then [no_transfer] else [in_progress])
  ++ (if is_file_transfer_complete s then [complete] else []).

End FirmwareUpdater.

(** ** CAN.cpp

    A frame as FlexCAN's [CAN_message_t] holds it. *)
Module CAN.

Record CAN_message_t : Type := mkMsg {
  id : Z;
  ext : Z;
  len : Z;
  timeout : Z;
  buf : list Z
}.

(** [uint8_t deviceID = (uint8_t) (rxmsg.id & 0xFFu);] *)
Definition deviceID (rxmsg : CAN_message_t) : Z :=
  u8 (Z.land (id rxmsg) 0xFF).

(** One turn of the loop of [handleInbox], for the frame that
    [CANbus.read] delivered: a frame for device 0 goes to
    [HexTransfer::handle_can_msg], for any other the device number is
    printed.  [st] and [millis] are what [handle_can_msg] finds on the
    stack and reads from the clock in this turn; the second component of
    the result collects the numbers printed. *)
Definition handle_frame (fr : StackBytes * Z * CAN_message_t)
  (acc : State * list Z) : option (State * list Z) :=
  let '(st, millis, rxmsg) := fr in
  let '(s, printed) := acc in
  if deviceID rxmsg =? 0 then
    s' ← handle_can_msg st millis (buf rxmsg) s; Some (s', printed)
  else Some (s, printed ++ [deviceID rxmsg]).

(** [while (CANbus.read(rxmsg)) { ... }] over the frames waiting in the
    controller. *)
Definition handleInbox (inbox : list (StackBytes * Z * CAN_message_t))
  (s : State) : option (State * list Z) :=
  run_steps handle_frame inbox (s, []).

(** [CAN::write(deviceID, commandID, payloadLength, buffer)] up to the call
    of [CANbus.write]: the frame it builds.  [memcpy] with a length above
    8 writes behind [txmsg.buf], and with a length above that of [buffer]
    reads behind it: undefined behaviour in the source, [None] here. *)
Definition write (deviceID commandID payloadLength : Z) (buffer : list Z)
  : option CAN_message_t :=
  let fullID := u16 (u8 deviceID + Z.shiftl (u8 commandID) 8) in
  if (u8 payloadLength <=? 8)
     && (u8 payloadLength <=? Z.of_nat (length buffer))
  then
    Some (mkMsg fullID 1 (u8 payloadLength) 0
            (take (Z.to_nat (u8 payloadLength)) (map u8 buffer)
             ++ replicate (8 - Z.to_nat (u8 payloadLength)) 0))
  else None.

End CAN.

(** ** The earlier class [HexTransfer]

    The repository also holds an earlier version of the receiver, a class
    with the members below.  Its [unpack_transfer_chunk_msg] has the body
    of [unpack_transfer_segment_msg] with the fields called [chunk_num]
    and [total_chunks]; the decoded message is shared.  [size_t] has 32
    bits, so the -1 of the constructor and of the comparison is
    [u32 (-1)]. *)
Module Legacy.

Record State : Type := mkState {
  cur_hex_line_num : Z;
  cur_hex_line_chunk_count : Z;
  chunks_received : list bool;
  all_chunks_received : bool;
  cur_hex_line_data : list Z
}.

(** The constructor; it leaves [all_chunks_received] as it finds it. *)
Definition HexTransfer (all_chunks_received0 : bool) : State :=
  mkState (u32 (-1)) (u32 (-1)) (replicate 9 false) all_chunks_received0
    (replicate (Z.to_nat MAX_HEX_LINE_SIZE) PAD).

Definition unpack_transfer_chunk_msg (buf : list Z) : TransferSegmentMsg.t :=
  unpack_transfer_segment_msg buf.

(** [for (int i = 0; i < cur_hex_line_chunk_count; i++)
      if (!chunks_received[i]) { all_chunks_received = false; break; }]
    with [n] turns left; a read outside the array of 9 flags is
    [None]. *)
Fixpoint scan_chunks (n : nat) (i : nat) (received : list bool)
  : option bool :=
  match n with
  | O => Some true
  | S n' =>
      match received !! i with
      | None => None
      | Some false => Some false
      | Some true => scan_chunks n' (S i) received
      end
  end.

Definition process_transfer_chunk_msg (msg : TransferSegmentMsg.t)
  (s : State) : option (bool * State) :=
  if negb (TransferSegmentMsg.line_num msg =? cur_hex_line_num s)
  then Some (false, s)
  else
    let counted :=
      if cur_hex_line_chunk_count s =? u32 (-1) then
        Some (mkState (cur_hex_line_num s)
                (TransferSegmentMsg.total_segments msg)
                (chunks_received s) (all_chunks_received s)
                (cur_hex_line_data s))
      else if negb (TransferSegmentMsg.segment_num msg
                    =? cur_hex_line_chunk_count s)
      then None
      else Some s in
    match counted with
    | None => Some (false, s)
    | Some s =>
        if TransferSegmentMsg.segment_num msg >=? cur_hex_line_chunk_count s
        then Some (false, s)
        else
          data ← copy_segment (TransferSegmentMsg.segment_num msg)
                   (TransferSegmentMsg.hex_data msg) (cur_hex_line_data s);
          received ← store 9 (TransferSegmentMsg.segment_num msg) true
                       (chunks_received s);
          all ← scan_chunks (Z.to_nat (cur_hex_line_chunk_count s)) 0
                  received;
          Some (true,
                mkState (cur_hex_line_num s) (cur_hex_line_chunk_count s)
                  received all data)
    end.

(** [process_can_msg]: the test of the message type has an empty body,
    and the result of [parse_and_validate_hex_line], called when all
    chunks are in, is dropped; what remains is the state that
    [process_transfer_chunk_msg] leaves. *)
Definition process_can_msg (buf : list Z) (s : State) : option State :=
  snd <$> process_transfer_chunk_msg (unpack_transfer_chunk_msg buf) s.

End Legacy.

(** The segment messages on which [process_transfer_segment_msg] stores
    past [hex_line_buf]: those that pass every check of the handler with a
    segment number of [MAX_CHUNKS_PER_HEX_LINE] or more.  The buffer holds
    9 segments, the 4-bit fields of a frame allow a total of up to 15. *)
Definition segment_overruns (msg : TransferSegmentMsg.t) (s : State) : Prop :=
  transfer_in_progress s = true /\
  TransferSegmentMsg.line_num msg = hex_line_num s /\
  (hex_line_segment_count s = -1 \/
   hex_line_segment_count s = TransferSegmentMsg.total_segments msg) /\
  MAX_CHUNKS_PER_HEX_LINE <= TransferSegmentMsg.segment_num msg
  < TransferSegmentMsg.total_segments msg.

(** ** A session whose data record wraps around

    A file of three lines for a staging buffer of 256 KiB in RAM at
    0x20000000, in a build without [DRYRUN]: the extended linear address
    record [":02000004FFFFFC"] (upper word 0xFFFF), the data record
    [":10FFF80042...42D9"] (16 bytes at address 0xFFF8, so that the record
    ends 8 bytes past 2^32) and the end-of-file record.  The init frame
    carries a checksum that the receiver's calculation reproduces. *)
Module Wrapping.

Definition ext_text : list Z :=
  [58; 48; 50; 48; 48; 48; 48; 48; 52; 70; 70; 70; 70; 70; 67].

Definition data_text : list Z :=
  [58; 49; 48; 70; 70; 70; 56; 48; 48; 52; 50; 52; 50; 52; 50; 52; 50; 52;
   50; 52; 50; 52; 50; 52; 50; 52; 50; 52; 50; 52; 50; 52; 50; 52; 50; 52;
   50; 52; 50; 52; 50; 68; 57].

Definition init_msg : list Z :=
  Teensy.init_frame 3
    (FastCRC.crc32_of (ext_text ++ data_text ++ Teensy.eof_text)) 9053.

Definition update (s : State) : option Response * State :=
  @update Teensy.flashing Teensy.stale_line 0 0 s.

Definition idle : State := init (boot 0x20000000 0x40000).

Definition armed : State :=
  default idle (handle_can_msg Teensy.zero_stack 0 init_msg idle).

(** The first line delivered and consumed: the base address is set. *)
Definition base_set : State :=
  snd (update
         (default armed
            (Teensy.deliver 0 (Teensy.line_frames 0 ext_text) armed))).

(** The segments of the data record delivered, before the [update] that
    handles the line. *)
Definition data_received : State :=
  default base_set
    (Teensy.deliver 0 (Teensy.line_frames 1 data_text) base_set).

Definition parsed : ParsedHexLine :=
  @parse_and_validate_hex_line Teensy.flashing Teensy.stale_line
    (hex_line_buf data_received).

End Wrapping.

(** * Properties *)

Arguments update : simpl never.
Arguments handle_received_hex_line : simpl never.
Arguments parse_and_validate_hex_line : simpl never.
Arguments line_length : simpl never.
Arguments FastCRC.crc32 : simpl never.
Arguments FastCRC.crc32_upd : simpl never.
Arguments pack_le : simpl never.

Ltac branches :=
  repeat match goal with
         | |- context [if ?b then _ else _] => destruct b eqn:?; simpl
         end.

(** ** Steps that commute and absorb repetition

    If any two steps of a list commute and every step is idempotent, the
    result of running the list depends only on which steps it contains. *)

Section KleisliFold.

Context {M S : Type}.
Variable step : M -> S -> option S.
Variable agree : M -> M -> Prop.
Hypothesis step_comm :
  forall m1 m2 s, agree m1 m2 -> step m1 s ≫= step m2 = step m2 s ≫= step m1.
Hypothesis step_idem : forall m s, step m s ≫= step m = step m s.

Local Abbreviation run := (run_steps step).

Lemma foldl_bind_None (l : list M) :
  foldl (fun acc m => acc ≫= step m) None l = None.
Proof. induction l; simpl; auto. Qed.

Lemma run_cons (m : M) (l : list M) (s : S) :
  run (m :: l) s = step m s ≫= run l.
Proof.
  unfold run_steps. simpl. destruct (step m s); simpl; [reflexivity|].
  apply foldl_bind_None.
Qed.

Lemma run_app (l1 l2 : list M) (s : S) :
  run (l1 ++ l2) s = run l1 s ≫= run l2.
Proof.
  revert s. induction l1 as [|m l1 IH]; intros s; [reflexivity|].
  simpl. rewrite !run_cons. destruct (step m s); simpl; auto.
Qed.

Lemma run_snoc (l : list M) (m : M) (s : S) :
  run (l ++ [m]) s = run l s ≫= step m.
Proof.
  rewrite run_app. destruct (run l s); simpl; [|reflexivity].
  rewrite run_cons. destruct (step m s0); reflexivity.
Qed.

Lemma step_past_run (m : M) (l : list M) (s : S) :
  (forall m', m' ∈ l -> agree m m') ->
  step m s ≫= run l = run l s ≫= step m.
Proof.
  revert s. induction l as [|m' l IH]; intros s Hag.
  - simpl. destruct (step m s); reflexivity.
  - assert (Hm : agree m m') by (apply Hag; left).
    assert (Hl : forall x, x ∈ l -> agree m x) by (intros; apply Hag; now right).
    transitivity ((step m s ≫= step m') ≫= run l).
    { destruct (step m s); simpl; [apply run_cons | reflexivity]. }
    rewrite step_comm by exact Hm.
    rewrite run_cons.
    destruct (step m' s) as [s1|]; simpl; [|reflexivity].
    apply IH, Hl.
Qed.

Lemma run_absorb (m : M) (l : list M) (s : S) :
  m ∈ l ->
  (forall m', m' ∈ l -> agree m m') ->
  run l s ≫= step m = run l s.
Proof.
  intros Hin Hag.
  apply list_elem_of_split in Hin as (l1 & l2 & ->).
  rewrite run_app.
  destruct (run l1 s) as [s1|]; simpl; [|reflexivity].
  rewrite run_cons.
  rewrite <- (step_idem m s1) at 2.
  destruct (step m s1) as [s2|]; simpl; [|reflexivity].
  symmetry. apply step_past_run.
  intros m' H. apply Hag. apply elem_of_app. right. now right.
Qed.

Lemma run_absorb_list (l1 l2 : list M) (s : S) :
  (forall m, m ∈ l2 -> m ∈ l1) ->
  (forall m m', m ∈ l1 -> m' ∈ l1 -> agree m m') ->
  run (l1 ++ l2) s = run l1 s.
Proof.
  revert l1. induction l2 as [|m l2 IH]; intros l1 Hsub Hag.
  - now rewrite app_nil_r.
  - replace (l1 ++ m :: l2) with ((l1 ++ [m]) ++ l2)
      by (rewrite <- app_assoc; reflexivity).
    assert (Hm : m ∈ l1) by (apply Hsub; left).
    rewrite IH.
    + rewrite run_snoc. apply run_absorb; auto.
    + intros x Hx. apply elem_of_app. left. apply Hsub. now right.
    + intros x y Hx Hy. apply Hag.
      * apply elem_of_app in Hx as [Hx|Hx]; [auto|].
        apply list_elem_of_singleton in Hx. now subst.
      * apply elem_of_app in Hy as [Hy|Hy]; [auto|].
        apply list_elem_of_singleton in Hy. now subst.
Qed.

Lemma run_swap (l1 l2 : list M) (s : S) :
  (forall m m', m ∈ l1 -> m' ∈ l2 -> agree m m') ->
  run (l1 ++ l2) s = run (l2 ++ l1) s.
Proof.
  revert s. induction l1 as [|m l1 IH]; intros s Hag.
  - now rewrite app_nil_r.
  - simpl. rewrite run_cons.
    replace (l2 ++ m :: l1) with ((l2 ++ [m]) ++ l1)
      by (rewrite <- app_assoc; reflexivity).
    rewrite run_app, run_snoc.
    rewrite <- step_past_run by (intros; apply Hag; [left | auto]).
    destruct (step m s) as [s1|]; simpl; [|reflexivity].
    rewrite IH by (intros; apply Hag; [now right | auto]).
    apply run_app.
Qed.

Lemma run_same_elements (l1 l2 : list M) (s : S) :
  (forall m, m ∈ l1 <-> m ∈ l2) ->
  (forall m m', m ∈ l1 -> m' ∈ l1 -> agree m m') ->
  run l1 s = run l2 s.
Proof.
  intros Hsame Hag.
  rewrite <- (run_absorb_list l1 l2 s) by (auto; intros; now apply Hsame).
  rewrite run_swap by (intros; apply Hag; auto; now apply Hsame).
  apply run_absorb_list.
  - intros; now apply Hsame.
  - intros; apply Hag; now apply Hsame.
Qed.

End KleisliFold.

(** ** Segment reassembly *)

Lemma store_Some {A : Type} (size idx : Z) (v : A) (a : list A) :
  0 <= idx < size -> store size idx v a = Some (<[Z.to_nat idx := v]> a).
Proof.
  intros H. unfold store.
  destruct (Z.leb_spec 0 idx), (Z.ltb_spec idx size); simpl; auto; lia.
Qed.

Lemma store_None {A : Type} (size idx : Z) (v : A) (a : list A) :
  ~ (0 <= idx < size) -> store size idx v a = None.
Proof.
  intros H. unfold store.
  destruct (Z.leb_spec 0 idx), (Z.ltb_spec idx size); simpl; auto; lia.
Qed.

Lemma copy_segment_Some (k : Z) (d b : list Z) :
  0 <= k < MAX_CHUNKS_PER_HEX_LINE ->
  copy_segment k d b = Some (pasted k d b).
Proof.
  unfold MAX_CHUNKS_PER_HEX_LINE. intros H.
  unfold copy_segment, pasted, MAX_HEX_CHUNK_SIZE, MAX_HEX_LINE_SIZE. simpl.
  repeat (rewrite store_Some by lia; simpl). reflexivity.
Qed.

Lemma copy_segment_None (k : Z) (d b : list Z) :
  ~ (0 <= k < MAX_CHUNKS_PER_HEX_LINE) -> copy_segment k d b = None.
Proof.
  unfold MAX_CHUNKS_PER_HEX_LINE. intros H.
  unfold copy_segment, MAX_HEX_CHUNK_SIZE, MAX_HEX_LINE_SIZE. simpl.
  rewrite store_None by lia. reflexivity.
Qed.

Lemma length_pasted (k : Z) (d b : list Z) : length (pasted k d b) = length b.
Proof. unfold pasted. simpl. now rewrite !length_insert. Qed.

Lemma lookup_pasted (k : Z) (d b : list Z) (j : nat) :
  0 <= k ->
  pasted k d b !! j
  = if decide ((5 * Z.to_nat k <= j < 5 * Z.to_nat k + 5)%nat
               /\ (j < length b)%nat)
    then Some (at_index d (j - 5 * Z.to_nat k)) else b !! j.
Proof.
  intros Hk. unfold pasted, MAX_HEX_CHUNK_SIZE. simpl.
  rewrite !list_lookup_insert, !length_insert.
  repeat case_decide; try reflexivity; try lia;
    f_equal; f_equal; lia.
Qed.

Lemma pasted_comm (k1 k2 : Z) (d1 d2 b : list Z) :
  0 <= k1 -> 0 <= k2 -> (k1 = k2 -> d1 = d2) ->
  pasted k1 d1 (pasted k2 d2 b) = pasted k2 d2 (pasted k1 d1 b).
Proof.
  intros H1 H2 Hd. apply list_eq. intros j.
  rewrite !lookup_pasted, !length_pasted by assumption.
  repeat case_decide; try reflexivity; try lia.
  assert (k1 = k2) by lia. subst. now rewrite Hd.
Qed.

Lemma pasted_idem (k : Z) (d b : list Z) :
  0 <= k -> pasted k d (pasted k d b) = pasted k d b.
Proof.
  intros H. apply list_eq. intros j.
  rewrite !lookup_pasted, !length_pasted by assumption.
  repeat case_decide; try reflexivity; lia.
Qed.

Lemma check_and_copy_spec (msg : TransferSegmentMsg.t) (s : State) :
  let k := TransferSegmentMsg.segment_num msg in
  check_and_copy msg s
  = if k >=? hex_line_segment_count s then Some (false, s)
    else if decide (0 <= k < MAX_CHUNKS_PER_HEX_LINE
                    /\ k < Z.of_nat (length (hex_line_segments_received s)))
         then Some (true,
                    set_hex_line_segments_received
                      (<[Z.to_nat k := true]> (hex_line_segments_received s))
                      (set_hex_line_buf
                         (pasted k (TransferSegmentMsg.hex_data msg)
                            (hex_line_buf s)) s))
         else None.
Proof.
  intros k. unfold check_and_copy. fold k.
  destruct (k >=? hex_line_segment_count s); [reflexivity|].
  case_decide as Hd.
  - rewrite copy_segment_Some by tauto. simpl.
    rewrite store_Some by lia. reflexivity.
  - destruct (decide (0 <= k < MAX_CHUNKS_PER_HEX_LINE)) as [Hk|Hk].
    + rewrite copy_segment_Some by assumption. simpl.
      rewrite store_None by lia. reflexivity.
    + rewrite copy_segment_None by assumption. reflexivity.
Qed.

Lemma copy_step_spec (msg : TransferSegmentMsg.t) (s : State) :
  let k := TransferSegmentMsg.segment_num msg in
  copy_step msg s
  = if k >=? hex_line_segment_count s then Some s
    else if decide (0 <= k < MAX_CHUNKS_PER_HEX_LINE
                    /\ k < Z.of_nat (length (hex_line_segments_received s)))
         then Some (set_hex_line_segments_received
                      (<[Z.to_nat k := true]> (hex_line_segments_received s))
                      (set_hex_line_buf
                         (pasted k (TransferSegmentMsg.hex_data msg)
                            (hex_line_buf s)) s))
         else None.
Proof.
  intros k. unfold copy_step. rewrite check_and_copy_spec. fold k.
  destruct (k >=? _); [reflexivity|]. case_decide; reflexivity.
Qed.

Lemma copy_step_fields (msg : TransferSegmentMsg.t) (s s' : State) :
  copy_step msg s = Some s' ->
  hex_line_num s' = hex_line_num s /\
  hex_line_segment_count s' = hex_line_segment_count s /\
  length (hex_line_segments_received s')
  = length (hex_line_segments_received s) /\
  length (hex_line_buf s') = length (hex_line_buf s) /\
  (hex_line_segment_count s = -1 -> s' = s).
Proof.
  rewrite copy_step_spec.
  destruct (Z.geb_spec (TransferSegmentMsg.segment_num msg)
              (hex_line_segment_count s)).
  - intros [= <-]. auto.
  - case_decide as Hd; [|discriminate]. intros [= <-]. simpl.
    rewrite length_insert, length_pasted. repeat split. lia.
Qed.

Lemma copy_step_comm (m1 m2 : TransferSegmentMsg.t) (s : State) :
  (TransferSegmentMsg.segment_num m1 = TransferSegmentMsg.segment_num m2 ->
   TransferSegmentMsg.hex_data m1 = TransferSegmentMsg.hex_data m2) ->
  copy_step m1 s ≫= copy_step m2 = copy_step m2 s ≫= copy_step m1.
Proof.
  intros Hd. rewrite (copy_step_spec m1 s), (copy_step_spec m2 s). cbv zeta.
  destruct (Z.geb_spec (TransferSegmentMsg.segment_num m1)
              (hex_line_segment_count s)) as [G1|G1];
    destruct (Z.geb_spec (TransferSegmentMsg.segment_num m2)
                (hex_line_segment_count s)) as [G2|G2];
    repeat case_decide; simpl; rewrite ?copy_step_spec; simpl;
    rewrite ?length_insert;
    repeat match goal with
      | |- context [?a >=? ?b] => destruct (Z.geb_spec a b); try lia
      end;
    repeat case_decide; try tauto; try reflexivity.
  f_equal. destruct s; unfold set_hex_line_segments_received, set_hex_line_buf;
    simpl. f_equal.
  - apply list_eq. intros j.
    rewrite !list_lookup_insert, !length_insert.
    repeat case_decide; try reflexivity; try tauto; lia.
  - apply pasted_comm; try tauto. intros E. symmetry. apply Hd. now symmetry.
Qed.

Lemma copy_step_idem (m : TransferSegmentMsg.t) (s : State) :
  copy_step m s ≫= copy_step m = copy_step m s.
Proof.
  rewrite (copy_step_spec m s). cbv zeta.
  destruct (Z.geb_spec (TransferSegmentMsg.segment_num m)
              (hex_line_segment_count s)) as [G1|G1];
    repeat case_decide; simpl; rewrite ?copy_step_spec; simpl;
    rewrite ?length_insert;
    repeat match goal with
      | |- context [?a >=? ?b] => destruct (Z.geb_spec a b); try lia
      end;
    repeat case_decide; try tauto; try reflexivity.
  f_equal. destruct s; unfold set_hex_line_segments_received, set_hex_line_buf;
    simpl. f_equal.
  - apply list_eq. intros j.
    rewrite !list_lookup_insert, !length_insert.
    repeat case_decide; try reflexivity; try tauto; lia.
  - apply pasted_idem; tauto.
Qed.

Lemma deliver_segment_alt (msg : TransferSegmentMsg.t) (s : State) :
  deliver_segment msg s
  = if negb (TransferSegmentMsg.line_num msg =? hex_line_num s) then Some s
    else if admitted (TransferSegmentMsg.total_segments msg) s
         then copy_step msg (opened (TransferSegmentMsg.total_segments msg) s)
         else Some s.
Proof.
  unfold deliver_segment, process_transfer_segment_msg, admitted, opened,
    copy_step.
  destruct (negb _); [reflexivity|].
  destruct (hex_line_segment_count s =? -1); simpl; [reflexivity|].
  destruct (_ =? _); reflexivity.
Qed.

Lemma copy_step_opened (msg : TransferSegmentMsg.t) (t : Z) (s s' : State) :
  admitted t s = true ->
  copy_step msg (opened t s) = Some s' ->
  opened t s' = s' /\ admitted t s' = true /\
  hex_line_num s' = hex_line_num s.
Proof.
  intros Ha Hc. apply copy_step_fields in Hc as (Hn & Hcnt & _ & _ & Hsame).
  unfold admitted, opened in *.
  destruct (Z.eqb_spec (hex_line_segment_count s) (-1)) as [E|E].
  - simpl in Hcnt, Hn, Hsame.
    destruct (Z.eqb_spec t (-1)) as [Et|Et].
    + rewrite Hsame by assumption. simpl. rewrite Et. simpl.
      repeat split.
    + rewrite Hcnt. destruct (Z.eqb_spec t (-1)); [contradiction|].
      rewrite Z.eqb_refl, orb_true_r. auto.
  - simpl in Ha. apply Z.eqb_eq in Ha. rewrite Hcnt.
    destruct (Z.eqb_spec (hex_line_segment_count s) (-1)); [contradiction|].
    rewrite Ha, Z.eqb_refl, orb_true_r. auto.
Qed.

Lemma deliver_segment_line_num (msg : TransferSegmentMsg.t) (s s' : State) :
  deliver_segment msg s = Some s' -> hex_line_num s' = hex_line_num s.
Proof.
  rewrite deliver_segment_alt.
  destruct (negb _); [now intros [= <-]|].
  destruct (admitted _ s) eqn:Ha; [|now intros [= <-]].
  intros H. now apply copy_step_opened in H.
Qed.

Lemma deliver_segment_other_line (msg : TransferSegmentMsg.t) (s : State) :
  TransferSegmentMsg.line_num msg <> hex_line_num s ->
  deliver_segment msg s = Some s.
Proof.
  intros H. rewrite deliver_segment_alt.
  destruct (Z.eqb_spec (TransferSegmentMsg.line_num msg) (hex_line_num s));
    [contradiction | reflexivity].
Qed.

Lemma bind_deliver_other_line (msg : TransferSegmentMsg.t) (s : State)
  (x : option State) :
  TransferSegmentMsg.line_num msg <> hex_line_num s ->
  (forall s', x = Some s' -> hex_line_num s' = hex_line_num s) ->
  x ≫= deliver_segment msg = x.
Proof.
  intros Hne Hx. destruct x as [s'|]; simpl; [|reflexivity].
  apply deliver_segment_other_line. rewrite (Hx s') by reflexivity. exact Hne.
Qed.

Lemma bind_copy_step_opened (m1 m2 : TransferSegmentMsg.t) (t : Z)
  (s : State) :
  TransferSegmentMsg.line_num m2 = hex_line_num s ->
  TransferSegmentMsg.total_segments m2 = t ->
  admitted t s = true ->
  copy_step m1 (opened t s) ≫= deliver_segment m2
  = copy_step m1 (opened t s) ≫= copy_step m2.
Proof.
  intros Hl Ht Ha.
  destruct (copy_step m1 (opened t s)) as [s1|] eqn:H1; simpl; [|reflexivity].
  apply copy_step_opened in H1 as (Ho & Ha1 & Hn); [|assumption].
  rewrite deliver_segment_alt, Ht, Hl, Hn, Z.eqb_refl, Ha1, Ho. reflexivity.
Qed.

Lemma deliver_segment_comm (m1 m2 : TransferSegmentMsg.t) (s : State) :
  consistent m1 m2 ->
  deliver_segment m1 s ≫= deliver_segment m2
  = deliver_segment m2 s ≫= deliver_segment m1.
Proof.
  intros [Ht Hd].
  destruct (Z.eq_dec (TransferSegmentMsg.line_num m1) (hex_line_num s))
    as [L1|L1].
  - destruct (Z.eq_dec (TransferSegmentMsg.line_num m2) (hex_line_num s))
      as [L2|L2].
    + rewrite (deliver_segment_alt m1 s), (deliver_segment_alt m2 s).
      rewrite L1, L2, Z.eqb_refl, <- Ht. simpl.
      destruct (admitted _ s) eqn:Ha.
      * rewrite !bind_copy_step_opened by auto. now apply copy_step_comm.
      * simpl. rewrite !deliver_segment_alt, L1, L2, Z.eqb_refl, <- Ht, Ha.
        reflexivity.
    + rewrite (bind_deliver_other_line m2 s) by
        (auto; intros; now apply (deliver_segment_line_num m1)).
      now rewrite (deliver_segment_other_line m2 s).
  - rewrite (bind_deliver_other_line m1 s) by
      (auto; intros; now apply (deliver_segment_line_num m2)).
    now rewrite (deliver_segment_other_line m1 s).
Qed.

Lemma deliver_segment_idem (m : TransferSegmentMsg.t) (s : State) :
  deliver_segment m s ≫= deliver_segment m = deliver_segment m s.
Proof.
  destruct (Z.eq_dec (TransferSegmentMsg.line_num m) (hex_line_num s))
    as [L|L].
  - rewrite (deliver_segment_alt m s), L, Z.eqb_refl. simpl.
    destruct (admitted _ s) eqn:Ha.
    + rewrite bind_copy_step_opened by auto. apply copy_step_idem.
    + simpl. now rewrite deliver_segment_alt, L, Z.eqb_refl, Ha.
  - rewrite deliver_segment_other_line by assumption. simpl.
    now apply deliver_segment_other_line.
Qed.

Lemma process_transfer_segment_msg_alt (msg : TransferSegmentMsg.t)
  (s : State) :
  process_transfer_segment_msg msg s
  = if negb (TransferSegmentMsg.line_num msg =? hex_line_num s)
    then Some (false, s)
    else if admitted (TransferSegmentMsg.total_segments msg) s
         then check_and_copy msg
                (opened (TransferSegmentMsg.total_segments msg) s)
         else Some (false, s).
Proof.
  unfold process_transfer_segment_msg, admitted, opened.
  destruct (negb _); [reflexivity|].
  destruct (hex_line_segment_count s =? -1); simpl; [reflexivity|].
  destruct (_ =? _); reflexivity.
Qed.

Lemma duplicate_segment_accepted (msg : TransferSegmentMsg.t)
  (s1 s2 : State) :
  process_transfer_segment_msg msg s1 = Some (true, s2) ->
  process_transfer_segment_msg msg s2 = Some (true, s2).
Proof.
  rewrite !process_transfer_segment_msg_alt.
  destruct (Z.eqb_spec (TransferSegmentMsg.line_num msg) (hex_line_num s1))
    as [L|L]; simpl; [|discriminate].
  destruct (admitted _ s1) eqn:Ha; [|discriminate].
  set (t := TransferSegmentMsg.total_segments msg) in *.
  intros H.
  assert (Hc : copy_step msg (opened t s1) = Some s2)
    by (unfold copy_step; rewrite H; reflexivity).
  destruct (copy_step_opened msg t s1 s2 Ha Hc) as (Ho & Ha2 & Hn).
  pose proof (copy_step_idem msg (opened t s1)) as Hi.
  rewrite Hc in Hi. simpl in Hi.
  apply copy_step_fields in Hc as (_ & Hcnt & _).
  rewrite Hn, L, Z.eqb_refl, Ha2, Ho. simpl.
  revert H Hi. unfold copy_step. rewrite !check_and_copy_spec, Hcnt. cbv zeta.
  destruct (_ >=? _); [discriminate|].
  intros _. repeat case_decide; simpl; try discriminate.
  now intros [= ->].
Qed.

(** C8: segment messages that agree pairwise (same total, same bytes for
    the same segment number) leave the same state, so the same line buffer
    and the same received flags, whatever the order in which they are
    delivered and however often each is repeated; in-order delivery
    without duplicates is one such order.  Delivery that runs into a store
    outside an array does so in every order.  A segment that was accepted
    is accepted again when it is repeated, and changes nothing. *)
Theorem C8_segment_order_and_duplicates (l1 l2 : list TransferSegmentMsg.t)
  (s : State) :
  (forall m m', m ∈ l1 -> m' ∈ l1 -> consistent m m') ->
  (forall m, m ∈ l1 <-> m ∈ l2) ->
  deliver_segments l1 s = deliver_segments l2 s /\
  hex_line_buf <$> deliver_segments l1 s
  = hex_line_buf <$> deliver_segments l2 s /\
  hex_line_segments_received <$> deliver_segments l1 s
  = hex_line_segments_received <$> deliver_segments l2 s /\
  (forall m s1 s2,
     process_transfer_segment_msg m s1 = Some (true, s2) ->
     process_transfer_segment_msg m s2 = Some (true, s2)).
Proof.
  intros Hag Hsame.
  assert (E : deliver_segments l1 s = deliver_segments l2 s).
  { unfold deliver_segments.
    apply (run_same_elements deliver_segment consistent); auto.
    - intros. now apply deliver_segment_comm.
    - intros. apply deliver_segment_idem. }
  rewrite E. repeat split. apply duplicate_segment_accepted.
Qed.

Lemma unpack_transfer_init_msg_state (st : StackBytes) (buf : list Z)
  (s : State) :
  snd (unpack_transfer_init_msg st buf s)
  = set_CRC32 (CRC32 (snd (unpack_transfer_init_msg st buf s))) s.
Proof.
  unfold unpack_transfer_init_msg.
  destruct (FastCRC.crc32 _ _) as [c o]. reflexivity.
Qed.

(** ** The representation invariant is kept

    So the reads of [are_all_segments_received] stay inside the array of
    flags, and a line whose segments have numbers below
    [MAX_CHUNKS_PER_HEX_LINE] is reassembled without a store outside an
    array. *)

Lemma wf_State_same_line (s s' : State) :
  hex_line_buf s' = hex_line_buf s ->
  hex_line_segment_count s' = hex_line_segment_count s ->
  hex_line_segments_received s' = hex_line_segments_received s ->
  wf_State s -> wf_State s'.
Proof. unfold wf_State. intros -> -> ->. auto. Qed.

Lemma wf_reset_cur_hex_line_buff (s : State) :
  wf_State (reset_cur_hex_line_buff s).
Proof. split; [reflexivity | left; reflexivity]. Qed.

Lemma wf_clear_transfer_state (s : State) : wf_State (clear_transfer_state s).
Proof. split; [reflexivity | left; reflexivity]. Qed.

Lemma wf_first_segment (t : Z) (s : State) :
  0 <= t -> wf_State s -> wf_State (first_segment t s).
Proof.
  intros Ht [Hb _]. split; [exact Hb|]. right. simpl.
  rewrite length_replicate. lia.
Qed.

Lemma wf_copy_step (msg : TransferSegmentMsg.t) (s s' : State) :
  wf_State s -> copy_step msg s = Some s' -> wf_State s'.
Proof.
  intros [Hb Hc] H.
  apply copy_step_fields in H as (_ & Hcnt & Hm & Hl & _).
  split; [congruence|]. rewrite Hcnt, Hm. exact Hc.
Qed.

Lemma wf_deliver_segment (msg : TransferSegmentMsg.t) (s s' : State) :
  0 <= TransferSegmentMsg.total_segments msg ->
  wf_State s -> deliver_segment msg s = Some s' -> wf_State s'.
Proof.
  intros Ht Hwf. rewrite deliver_segment_alt.
  destruct (negb _); [now intros [= <-]|].
  destruct (admitted _ s); [|now intros [= <-]].
  apply wf_copy_step. unfold opened.
  destruct (_ =? -1); [now apply wf_first_segment | exact Hwf].
Qed.

Lemma deliver_segment_defined (msg : TransferSegmentMsg.t) (s : State) :
  0 <= TransferSegmentMsg.segment_num msg ->
  0 <= TransferSegmentMsg.total_segments msg <= MAX_CHUNKS_PER_HEX_LINE ->
  wf_State s ->
  is_Some (deliver_segment msg s).
Proof.
  intros Hk Ht Hwf. rewrite deliver_segment_alt.
  destruct (negb _); [eauto|].
  destruct (admitted _ s) eqn:Ha; [|eauto].
  assert (Hwf' : wf_State (opened (TransferSegmentMsg.total_segments msg) s)).
  { unfold opened.
    destruct (_ =? -1); [apply wf_first_segment; [lia | exact Hwf] | exact Hwf]. }
  assert (Hc : hex_line_segment_count
                 (opened (TransferSegmentMsg.total_segments msg) s)
               = TransferSegmentMsg.total_segments msg).
  { unfold admitted, opened in *.
    destruct (Z.eqb_spec (hex_line_segment_count s) (-1)); [reflexivity|].
    simpl in Ha. apply Z.eqb_eq in Ha. congruence. }
  rewrite copy_step_spec. cbv zeta. rewrite Hc.
  destruct (Z.geb_spec (TransferSegmentMsg.segment_num msg)
              (TransferSegmentMsg.total_segments msg)); [eauto|].
  destruct Hwf' as [_ [Hm|[_ Hm]]]; [lia|]. rewrite Hc in Hm.
  case_decide as Hd; [eauto|]. exfalso. apply Hd. lia.
Qed.

Lemma deliver_segments_defined (msgs : list TransferSegmentMsg.t)
  (s : State) :
  (forall m, m ∈ msgs ->
     0 <= TransferSegmentMsg.segment_num m /\
     0 <= TransferSegmentMsg.total_segments m <= MAX_CHUNKS_PER_HEX_LINE) ->
  wf_State s ->
  exists s', deliver_segments msgs s = Some s' /\ wf_State s'.
Proof.
  unfold deliver_segments. revert s.
  induction msgs as [|m msgs IH]; intros s Hok Hwf; [eauto|].
  rewrite run_cons.
  destruct (Hok m) as [Hk Ht]; [left|].
  destruct (deliver_segment_defined m s Hk Ht Hwf) as [s1 H1].
  rewrite H1. simpl. apply IH.
  - intros m' Hm'. apply Hok. now right.
  - apply (wf_deliver_segment m s); [lia | exact Hwf | exact H1].
Qed.

Lemma unpack_transfer_segment_msg_range (buf : list Z) :
  let m := unpack_transfer_segment_msg buf in
  0 <= TransferSegmentMsg.segment_num m /\
  0 <= TransferSegmentMsg.total_segments m.
Proof.
  unfold unpack_transfer_segment_msg. simpl.
  split; apply Z.land_nonneg; right; lia.
Qed.

Lemma wf_handle_can_msg (st : StackBytes) (millis : Z) (buf : list Z)
  (s s' : State) :
  wf_State s -> handle_can_msg st millis buf s = Some s' -> wf_State s'.
Proof.
  intros Hwf. unfold handle_can_msg.
  destruct (Z.land (byte_at buf 0) 1 =? 0).
  - pose proof (unpack_transfer_init_msg_state st buf s) as Hu.
    destruct (unpack_transfer_init_msg st buf s) as [msg s1]. simpl in Hu.
    assert (Hwf1 : wf_State s1)
      by (rewrite Hu; revert Hwf; now apply wf_State_same_line).
    unfold process_transfer_init_msg.
    destruct (TransferInitMsg.msg_type msg); [now intros [= <-]|].
    destruct (negb _); intros [= <-].
    + revert Hwf1. now apply wf_State_same_line.
    + split; [reflexivity | left; reflexivity].
  - destruct (transfer_in_progress s).
    + destruct (process_transfer_segment_msg _ s) as [[ok s2]|] eqn:Hp;
        simpl; [|discriminate].
      assert (Hwf2 : wf_State s2).
      { apply (wf_deliver_segment (unpack_transfer_segment_msg buf) s).
        - apply unpack_transfer_segment_msg_range.
        - exact Hwf.
        - unfold deliver_segment. rewrite Hp. reflexivity. }
      destruct ok; intros [= <-]; [|exact Hwf2].
      revert Hwf2. now apply wf_State_same_line.
    + intros [= <-]. revert Hwf. now apply wf_State_same_line.
Qed.

(** ** Record processing: what each processor leaves alone *)

Section Controller.

Context {platform : Platform}.

Lemma process_hex_line_dispatch (hex_line : ParsedHexLine) (s : State) :
  (record_type hex_line = 0 /\
   process_hex_line hex_line s = process_hex_data_record hex_line s) \/
  (record_type hex_line = 1 /\
   process_hex_line hex_line s = process_hex_eof_record hex_line s) \/
  (record_type hex_line = 2 /\
   process_hex_line hex_line s
   = process_hex_extended_segment_address_record hex_line s) \/
  (record_type hex_line = 3 /\
   process_hex_line hex_line s
   = process_hex_start_segment_address_record hex_line s) \/
  (record_type hex_line = 4 /\
   process_hex_line hex_line s
   = process_hex_extended_linear_address_record hex_line s) \/
  (record_type hex_line = 5 /\
   process_hex_line hex_line s
   = process_hex_start_linear_address_record hex_line s) \/
  ((record_type hex_line < 0 \/ 5 < record_type hex_line) /\
   process_hex_line hex_line s = (false, s)).
Proof.
  unfold process_hex_line.
  destruct (record_type hex_line) as [|p|p].
  - left. split; reflexivity.
  - destruct p as [[p|p|]|[p|p|]|]; try destruct p;
      first [ right; left; split; reflexivity
            | right; right; left; split; reflexivity
            | right; right; right; left; split; reflexivity
            | right; right; right; right; left; split; reflexivity
            | right; right; right; right; right; left; split; reflexivity
            | right; right; right; right; right; right; split;
              [right; lia | reflexivity] ].
  - right; right; right; right; right; right.
    split; [left; lia | reflexivity].
Qed.

Lemma update_min_max_spec (hex_line : ParsedHexLine) (s : State) :
  let s1 := update_min_max hex_line s in
  max_address s1
  = Z.max (max_address s)
      (u32 (base_address s + address hex_line + byte_count hex_line)) /\
  min_address s1
  = Z.min (min_address s) (u32 (base_address s + address hex_line)) /\
  s1 = set_min_address (min_address s1) (set_max_address (max_address s1) s).
Proof.
  unfold update_min_max.
  destruct (Z.gtb_spec
              (u32 (base_address s + address hex_line + byte_count hex_line))
              (max_address s)); simpl;
    destruct (Z.ltb_spec (u32 (base_address s + address hex_line))
                (min_address s)); simpl;
    (split; [lia|]); (split; [lia|]); destruct s; reflexivity.
Qed.

Lemma process_hex_line_progress (hex_line : ParsedHexLine) (s : State) :
  same_progress s (snd (process_hex_line hex_line s)).
Proof.
  destruct (process_hex_line_dispatch hex_line s)
    as [[_ ->]|[[_ ->]|[[_ ->]|[[_ ->]|[[_ ->]|[[_ ->]|[_ ->]]]]]]];
    cbv beta delta [process_hex_data_record process_hex_eof_record
      process_hex_extended_segment_address_record
      process_hex_start_segment_address_record
      process_hex_extended_linear_address_record
      process_hex_start_linear_address_record];
    try (destruct (update_min_max_spec hex_line s) as (_ & _ & ->));
    branches; repeat split.
Qed.

Lemma reset_cur_hex_line_buff_fixed (s : State) :
  hex_line_segment_count s = -1 ->
  hex_line_segments_received s = [] ->
  hex_line_buf s = replicate (Z.to_nat MAX_HEX_LINE_SIZE) PAD ->
  reset_cur_hex_line_buff s = s.
Proof.
  destruct s; simpl; intros -> -> ->. reflexivity.
Qed.

Lemma update_reaches_line_check (hex_line0 : ParsedHexLine)
  (t_transfer t_segment : Z) (s : State) :
  transfer_in_progress s = true ->
  has_transfer_timed_out t_transfer s = false ->
  has_segment_timed_out t_segment s = false ->
  new_transfer_init_msg_received s = false ->
  are_all_segments_received s = true ->
  update hex_line0 t_transfer t_segment s
  = (Some (send_response (fst (handle_received_hex_line hex_line0 s))
             ErrorCode.NONE),
     snd (handle_received_hex_line hex_line0 s)).
Proof.
  intros Hp Ht Hs Hn Ha. unfold update.
  rewrite Hp, Ht, Hs, Hn, Ha. simpl.
  destruct (handle_received_hex_line hex_line0 s). reflexivity.
Qed.

Lemma short_line_is_invalid (hex_line0 : ParsedHexLine) (buf : list Z) :
  (line_length buf < 11)%nat ->
  valid (parse_and_validate_hex_line hex_line0 buf) = false.
Proof.
  intros H. unfold parse_and_validate_hex_line.
  destruct (Z.ltb_spec (Z.of_nat (line_length buf)) 11); [reflexivity | lia].
Qed.

Lemma handle_invalid_line (hex_line0 : ParsedHexLine) (s : State) :
  valid (parse_and_validate_hex_line hex_line0 (hex_line_buf s))
  = false ->
  handle_received_hex_line hex_line0 s
  = (ResponseCode.SEND_LINE, reset_cur_hex_line_buff s).
Proof.
  intros H. unfold handle_received_hex_line. rewrite H. reflexivity.
Qed.

Lemma handle_received_hex_line_cases (hex_line0 : ParsedHexLine) (s : State) :
  let hex_line :=
    parse_and_validate_hex_line hex_line0 (hex_line_buf s) in
  let s1 := snd (process_hex_line hex_line s) in
  handle_received_hex_line hex_line0 s
  = (ResponseCode.SEND_LINE,
     if negb (valid hex_line) then reset_cur_hex_line_buff s
     else if negb (fst (process_hex_line hex_line s))
          then reset_cur_hex_line_buff s1
          else reset_cur_hex_line_buff
                 (set_hex_line_num (u32 (hex_line_num s1 + 1))
                    (add_hex_line_to_checksum s1))).
Proof.
  unfold handle_received_hex_line.
  destruct (valid _); simpl; [|reflexivity].
  destruct (process_hex_line _ s) as [[|] s1]; reflexivity.
Qed.

(** C9: with [hex_line_segment_count = -1], the state that
    [reset_cur_hex_line_buff] leaves, [are_all_segments_received] returns
    true because its loop does not run; an [update] that gets to the check
    therefore hands the buffer to [handle_received_hex_line], and with the
    buffer still all [PAD] the parser rejects the empty line and the
    controller answers [SEND_LINE]. *)
Theorem C9_empty_line_taken_as_complete (hex_line0 : ParsedHexLine)
  (t_transfer t_segment : Z) (s : State) :
  hex_line_segment_count s = -1 ->
  are_all_segments_received s = true /\
  hex_line_segment_count (reset_cur_hex_line_buff s) = -1 /\
  (transfer_in_progress s = true ->
   has_transfer_timed_out t_transfer s = false ->
   has_segment_timed_out t_segment s = false ->
   new_transfer_init_msg_received s = false ->
   update hex_line0 t_transfer t_segment s
   = (Some (send_response (fst (handle_received_hex_line hex_line0 s))
              ErrorCode.NONE),
      snd (handle_received_hex_line hex_line0 s))) /\
  (hex_line_buf s = hex_line_buf (reset_cur_hex_line_buff s) ->
   valid (parse_and_validate_hex_line hex_line0 (hex_line_buf s))
   = false /\
   handle_received_hex_line hex_line0 s
   = (ResponseCode.SEND_LINE, reset_cur_hex_line_buff s)).
Proof.
  intros Hc.
  assert (Ha : are_all_segments_received s = true).
  { unfold are_all_segments_received. rewrite Hc. reflexivity. }
  split; [exact Ha|]. split; [reflexivity|]. split.
  - intros Hp Ht Hs Hn. now apply update_reaches_line_check.
  - intros Hb.
    assert (Hv : valid (parse_and_validate_hex_line hex_line0
                          (hex_line_buf s)) = false).
    { apply short_line_is_invalid. rewrite Hb. vm_compute. lia. }
    split; [exact Hv|]. now apply handle_invalid_line.
Qed.

(** C5: in an [update] that processes a completed line, a line that fails
    parsing or whose record fails processing leaves [hex_line_num] and
    [computed_file_checksum] (and the running CRC behind it) as they were;
    if either of them changed, the line parsed and its record was
    processed. *)
Theorem C5_failed_line_keeps_progress (hex_line0 : ParsedHexLine)
  (t_transfer t_segment : Z) (s : State) :
  transfer_in_progress s = true ->
  has_transfer_timed_out t_transfer s = false ->
  has_segment_timed_out t_segment s = false ->
  new_transfer_init_msg_received s = false ->
  are_all_segments_received s = true ->
  let hex_line :=
    parse_and_validate_hex_line hex_line0 (hex_line_buf s) in
  let s' := snd (update hex_line0 t_transfer t_segment s) in
  (valid hex_line = false \/ fst (process_hex_line hex_line s) = false ->
   hex_line_num s' = hex_line_num s /\
   computed_file_checksum s' = computed_file_checksum s /\
   CRC32 s' = CRC32 s) /\
  (hex_line_num s' <> hex_line_num s \/
   computed_file_checksum s' <> computed_file_checksum s ->
   valid hex_line = true /\ fst (process_hex_line hex_line s) = true).
Proof.
  intros Hp Ht Hs Hn Ha hex_line s'.
  assert (Hfail : valid hex_line = false \/
                  fst (process_hex_line hex_line s) = false ->
                  hex_line_num s' = hex_line_num s /\
                  computed_file_checksum s' = computed_file_checksum s /\
                  CRC32 s' = CRC32 s).
  { intros Hf. subst s'.
    rewrite update_reaches_line_check by assumption.
    rewrite handle_received_hex_line_cases. fold hex_line.
    cbv zeta. unfold snd at 1.
    destruct (process_hex_line_progress hex_line s) as (H1 & H2 & H3 & _).
    destruct (valid hex_line); simpl.
    - destruct Hf as [Hf|Hf]; [discriminate|]. rewrite Hf. simpl.
      auto.
    - auto. }
  split; [exact Hfail|].
  intros Hch.
  destruct (valid hex_line) eqn:Hv.
  - destruct (fst (process_hex_line hex_line s)) eqn:Hk; [auto|].
    exfalso. destruct Hfail as (H1 & H2 & _); [now right|].
    destruct Hch; contradiction.
  - exfalso. destruct Hfail as (H1 & H2 & _); [now left|].
    destruct Hch; contradiction.
Qed.

(** C7: an end-of-file record is accepted exactly when [hex_line_num]
    equals [total_lines - 1] (computed in [size_t]); acceptance sets
    [eof_received], and a rejected record leaves the whole state, so also
    [eof_received], as it was. *)
Theorem C7_eof_only_on_last_line (hex_line : ParsedHexLine) (s : State) :
  record_type hex_line = 1 ->
  let ok := fst (process_hex_line hex_line s) in
  let s' := snd (process_hex_line hex_line s) in
  (ok = true <-> hex_line_num s = u32 (total_lines s - 1)) /\
  (1 <= total_lines s <= 2 ^ 32 ->
   (ok = true <-> hex_line_num s = total_lines s - 1)) /\
  (ok = true -> eof_received s' = true /\ s' = set_eof_received true s) /\
  (ok = false -> s' = s /\ eof_received s' = eof_received s).
Proof.
  intros Hr ok s'. subst ok s'.
  destruct (process_hex_line_dispatch hex_line s)
    as [[E _]|[[_ ->]|[[E _]|[[E _]|[[E _]|[[E _]|[E _]]]]]]]; try lia.
  unfold process_hex_eof_record. rewrite Hr. simpl.
  assert (Hu : 1 <= total_lines s <= 2 ^ 32 ->
               u32 (total_lines s - 1) = total_lines s - 1).
  { intros. unfold u32. apply Z.mod_small. lia. }
  destruct (Z.eqb_spec (hex_line_num s) (u32 (total_lines s - 1))) as [e|n];
    simpl.
  - split; [tauto|]. split; [intros Hb; rewrite <- (Hu Hb); tauto|].
    split; [auto | discriminate].
  - split; [split; [discriminate | contradiction]|].
    split; [intros Hb; rewrite <- (Hu Hb);
            split; [discriminate | contradiction]|].
    split; [discriminate | auto].
Qed.

(** ** The data record: address bounds and staging writes *)



Lemma process_hex_line_writes (hex_line : ParsedHexLine) (s : State) :
  let s1 := snd (process_hex_line hex_line s) in
  staging_writes s1 = staging_writes s \/
  (record_type hex_line = 0 /\
   DRYRUN = false /\
   u32 (base_address s + address hex_line + byte_count hex_line)
   <= u32 (FLASH_BASE_ADDR + flash_buffer_size s) /\
   exists w, staging_writes s1 = staging_writes s ++ [w]).
Proof.
  destruct (process_hex_line_dispatch hex_line s)
    as [[Hr ->]|[[_ ->]|[[_ ->]|[[_ ->]|[[_ ->]|[[_ ->]|[_ ->]]]]]]];
    try (left;
         cbv beta delta [process_hex_eof_record
           process_hex_extended_segment_address_record
           process_hex_start_segment_address_record
           process_hex_extended_linear_address_record
           process_hex_start_linear_address_record];
         branches; reflexivity).
  unfold process_hex_data_record. rewrite Hr. simpl.
  destruct (update_min_max_spec hex_line s) as (Hmax & _ & Hs1).
  set (s1 := update_min_max hex_line s) in *.
  assert (Hw : staging_writes s1 = staging_writes s) by (rewrite Hs1; reflexivity).
  assert (Hsz : flash_buffer_size s1 = flash_buffer_size s)
    by (rewrite Hs1; reflexivity).
  destruct (Z.gtb_spec (max_address s1)
              (u32 (FLASH_BASE_ADDR + flash_buffer_size s1)));
    [left; exact Hw|].
  destruct DRYRUN; [left; exact Hw|].
  right. split; [reflexivity|]. split; [reflexivity|].
  split; [rewrite <- Hsz; lia|].
  branches; rewrite Hw; eexists; reflexivity.
Qed.

Lemma clear_transfer_state_writes (s : State) :
  staging_writes (clear_transfer_state s) = staging_writes s.
Proof. reflexivity. Qed.

Lemma process_transfer_init_msg_writes (msg : TransferInitMsg.t) (s : State) :
  staging_writes (snd (process_transfer_init_msg msg s)) = staging_writes s.
Proof. unfold process_transfer_init_msg. branches; reflexivity. Qed.

Lemma check_and_copy_writes (msg : TransferSegmentMsg.t) (s s' : State)
  (ok : bool) :
  check_and_copy msg s = Some (ok, s') ->
  staging_writes s' = staging_writes s.
Proof.
  unfold check_and_copy. intros H.
  destruct (_ >=? _); [inversion H; reflexivity|].
  destruct (copy_segment _ _ _); simpl in H; [|discriminate].
  destruct (store _ _ _ _); simpl in H; [|discriminate].
  inversion H; reflexivity.
Qed.

Lemma process_transfer_segment_msg_writes (msg : TransferSegmentMsg.t)
  (s s' : State) (ok : bool) :
  process_transfer_segment_msg msg s = Some (ok, s') ->
  staging_writes s' = staging_writes s.
Proof.
  unfold process_transfer_segment_msg. intros H.
  destruct (negb _); [inversion H; reflexivity|].
  destruct (_ =? -1).
  - apply check_and_copy_writes in H. exact H.
  - destruct (negb _); [inversion H; reflexivity|].
    now apply check_and_copy_writes in H.
Qed.

Lemma handle_can_msg_writes (st : StackBytes) (millis : Z) (buf : list Z)
  (s s' : State) :
  handle_can_msg st millis buf s = Some s' ->
  staging_writes s' = staging_writes s.
Proof.
  unfold handle_can_msg. intros H.
  destruct (Z.land (byte_at buf 0) 1 =? 0).
  - pose proof (unpack_transfer_init_msg_state st buf s) as Hu.
    destruct (unpack_transfer_init_msg st buf s) as [msg s1]. simpl in Hu.
    pose proof (process_transfer_init_msg_writes msg s1) as Hp.
    destruct (process_transfer_init_msg msg s1) as [ok s2]. simpl in Hp.
    assert (staging_writes s2 = staging_writes s)
      by (rewrite Hp, Hu; reflexivity).
    destruct ok; simpl in H; inversion H; subst; auto.
  - destruct (transfer_in_progress s).
    + destruct (process_transfer_segment_msg _ s) as [[ok s2]|] eqn:Hs;
        simpl in H; [|discriminate].
      apply process_transfer_segment_msg_writes in Hs.
      destruct ok; simpl in H; inversion H; subst; auto.
    + inversion H; subst; reflexivity.
Qed.

Lemma add_hex_line_to_checksum_state (s : State) :
  add_hex_line_to_checksum s
  = set_computed_file_checksum
      (computed_file_checksum (add_hex_line_to_checksum s))
      (set_CRC32 (CRC32 (add_hex_line_to_checksum s)) s).
Proof.
  unfold add_hex_line_to_checksum.
  destruct (FastCRC.crc32_upd _ _) as [c o]. reflexivity.
Qed.

Lemma handle_received_hex_line_writes (hex_line0 : ParsedHexLine) (s : State) :
  let hex_line :=
    parse_and_validate_hex_line hex_line0 (hex_line_buf s) in
  staging_writes (snd (handle_received_hex_line hex_line0 s))
  = if valid hex_line
    then staging_writes (snd (process_hex_line hex_line s))
    else staging_writes s.
Proof.
  intros hex_line. rewrite handle_received_hex_line_cases. fold hex_line.
  cbv zeta. cbn [snd].
  destruct (valid hex_line); cbn [negb]; [|reflexivity].
  destruct (fst (process_hex_line hex_line s)); cbn [negb]; [|reflexivity].
  rewrite add_hex_line_to_checksum_state. reflexivity.
Qed.

Lemma update_writes (hex_line0 : ParsedHexLine) (t_transfer t_segment : Z)
  (s : State) :
  let hex_line :=
    parse_and_validate_hex_line hex_line0 (hex_line_buf s) in
  staging_writes (snd (update hex_line0 t_transfer t_segment s))
  = staging_writes s \/
  (valid hex_line = true /\
   staging_writes (snd (update hex_line0 t_transfer t_segment s))
   = staging_writes (snd (process_hex_line hex_line s))).
Proof.
  intros hex_line. unfold update.
  destruct (transfer_in_progress s); simpl; [|now left].
  destruct (has_transfer_timed_out t_transfer s); simpl; [now left|].
  destruct (has_segment_timed_out t_segment s); simpl; [now left|].
  destruct (new_transfer_init_msg_received s); simpl; [now left|].
  destruct (are_all_segments_received s); simpl.
  - pose proof (handle_received_hex_line_writes hex_line0 s) as H.
    fold hex_line in H. cbv zeta in H.
    destruct (handle_received_hex_line hex_line0 s) as [res s']. simpl in *.
    destruct (valid hex_line); [right; auto | left; auto].
  - destruct (eof_received s); simpl; [|now left].
    destruct (is_file_checksum_valid s); simpl; now left.
Qed.

(** What the bound check does guarantee: the staging region is written
    only by a data record (type 0), and only when the end of its range,
    [base_address + address + byte_count] reduced to 32 bits, does not
    exceed [FLASH_BASE_ADDR + flash_buffer_size] reduced to 32 bits, for
    the record processor and for a whole [update]; a handled frame that
    stays within the arrays writes nothing.  A data record that brings
    [max_address] exactly to the bound passes the check (and is accepted
    unless the flash primitive reports an error); one that brings it above
    the bound is rejected with no write. *)
Lemma staging_written_within_wrapped_bound (hex_line0 hex_line : ParsedHexLine)
  (t_transfer t_segment : Z) (s : State) :
  let hi := u32 (base_address s + address hex_line + byte_count hex_line) in
  let bound := u32 (FLASH_BASE_ADDR + flash_buffer_size s) in
  let parsed :=
    parse_and_validate_hex_line hex_line0 (hex_line_buf s) in
  (staging_writes (snd (process_hex_line hex_line s)) <> staging_writes s ->
   record_type hex_line = 0 /\ hi <= bound /\
   (0 <= base_address s + address hex_line + byte_count hex_line < 2 ^ 32 ->
    0 <= FLASH_BASE_ADDR + flash_buffer_size s < 2 ^ 32 ->
    base_address s + address hex_line + byte_count hex_line
    <= FLASH_BASE_ADDR + flash_buffer_size s)) /\
  (staging_writes (snd (update hex_line0 t_transfer t_segment s))
   <> staging_writes s ->
   valid parsed = true /\ record_type parsed = 0 /\
   u32 (base_address s + address parsed + byte_count parsed) <= bound) /\
  (forall st millis buf s',
     handle_can_msg st millis buf s = Some s' ->
     staging_writes s' = staging_writes s) /\
  (record_type hex_line = 0 ->
   Z.max (max_address s) hi = bound ->
   fst (process_hex_line hex_line s)
   = DRYRUN
     || negb (IN_FLASH (flash_buffer_addr s))
     || (flash_write_block (staging_writes s)
           (u32 (flash_buffer_addr s + base_address s + address hex_line
                 - FLASH_BASE_ADDR))
           (data_bytes hex_line) (byte_count hex_line) =? 0)) /\
  (record_type hex_line = 0 ->
   Z.max (max_address s) hi > bound ->
   fst (process_hex_line hex_line s) = false /\
   staging_writes (snd (process_hex_line hex_line s)) = staging_writes s).
Proof.
  intros hi bound parsed.
  split; [|split; [|split; [|split]]].
  - intros Hne.
    destruct (process_hex_line_writes hex_line s) as [He|(Hr & _ & Hb & _)];
      [contradiction|].
    split; [exact Hr|]. split; [exact Hb|].
    intros H1 H2. fold hi bound in Hb. subst hi bound. unfold u32 in Hb.
    rewrite !Z.mod_small in Hb by lia. exact Hb.
  - intros Hne.
    destruct (update_writes hex_line0 t_transfer t_segment s) as [He|[Hv He]];
      [contradiction|].
    fold parsed in Hv, He. rewrite He in Hne.
    destruct (process_hex_line_writes parsed s) as [He'|(Hr & _ & Hb & _)];
      [contradiction|].
    auto.
  - intros st millis buf s'. apply handle_can_msg_writes.
  - intros Hr Hmax.
    destruct (process_hex_line_dispatch hex_line s)
      as [[_ ->]|[[E _]|[[E _]|[[E _]|[[E _]|[[E _]|[E _]]]]]]]; try lia.
    unfold process_hex_data_record. rewrite Hr. simpl.
    destruct (update_min_max_spec hex_line s) as (Hm & _ & Hs1).
    set (s1 := update_min_max hex_line s) in *.
    assert (Hsz : flash_buffer_size s1 = flash_buffer_size s)
      by (rewrite Hs1; reflexivity).
    assert (Hfa : flash_buffer_addr s1 = flash_buffer_addr s)
      by (rewrite Hs1; reflexivity).
    assert (Hba : base_address s1 = base_address s)
      by (rewrite Hs1; reflexivity).
    assert (Hsw : staging_writes s1 = staging_writes s)
      by (rewrite Hs1; reflexivity).
    rewrite Hsz, Hfa, Hba, Hsw. fold hi in Hm. fold bound.
    destruct (Z.gtb_spec (max_address s1) bound); [lia|].
    destruct DRYRUN; simpl; [reflexivity|].
    destruct (IN_FLASH (flash_buffer_addr s)); simpl; [|reflexivity].
    destruct (_ =? 0); reflexivity.
  - intros Hr Hmax.
    destruct (process_hex_line_dispatch hex_line s)
      as [[_ ->]|[[E _]|[[E _]|[[E _]|[[E _]|[[E _]|[E _]]]]]]]; try lia.
    unfold process_hex_data_record. rewrite Hr. simpl.
    destruct (update_min_max_spec hex_line s) as (Hm & _ & Hs1).
    set (s1 := update_min_max hex_line s) in *.
    assert (Hsz : flash_buffer_size s1 = flash_buffer_size s)
      by (rewrite Hs1; reflexivity).
    rewrite Hsz. fold hi in Hm. fold bound.
    destruct (Z.gtb_spec (max_address s1) bound); [|lia].
    simpl. split; [reflexivity|]. rewrite Hs1. reflexivity.
Qed.

(** A data record whose range starts below 2^32 and ends at or above it,
    in a build without [DRYRUN]: when the wrapped end address and the old
    [max_address] pass the bound check, the record is staged. *)
Lemma wrapped_data_record_staged (hex_line : ParsedHexLine) (s : State) :
  record_type hex_line = 0 ->
  DRYRUN = false ->
  let lo := base_address s + address hex_line in
  let bound := u32 (FLASH_BASE_ADDR + flash_buffer_size s) in
  0 <= lo < 2 ^ 32 ->
  2 ^ 32 <= lo + byte_count hex_line < 2 ^ 33 ->
  max_address s <= bound ->
  lo + byte_count hex_line - 2 ^ 32 <= bound ->
  u32 (lo + byte_count hex_line) <= bound /\
  staging_writes (snd (process_hex_line hex_line s))
  = staging_writes s
    ++ [if IN_FLASH (flash_buffer_addr s)
        then FlashWrite (u32 (flash_buffer_addr s + lo - FLASH_BASE_ADDR))
               (data_bytes hex_line)
        else RamCopy (u32 (flash_buffer_addr s + lo - FLASH_BASE_ADDR))
               (data_bytes hex_line)].
Proof.
  intros Hr Hd lo bound Hlo Hhi Hmax Hend.
  assert (Hwrap : u32 (lo + byte_count hex_line)
                  = lo + byte_count hex_line - 2 ^ 32).
  { unfold u32. symmetry. apply (Z.mod_unique _ _ 1); lia. }
  split; [rewrite Hwrap; exact Hend|].
  unfold process_hex_line. rewrite Hr.
  unfold process_hex_data_record. rewrite Hr, Hd. cbn [Z.eqb negb].
  destruct (update_min_max_spec hex_line s) as (Hm & _ & Hs1).
  set (s1 := update_min_max hex_line s) in *.
  assert (Hsz : flash_buffer_size s1 = flash_buffer_size s)
    by (rewrite Hs1; reflexivity).
  assert (Hfa : flash_buffer_addr s1 = flash_buffer_addr s)
    by (rewrite Hs1; reflexivity).
  assert (Hba : base_address s1 = base_address s)
    by (rewrite Hs1; reflexivity).
  assert (Hsw : staging_writes s1 = staging_writes s)
    by (rewrite Hs1; reflexivity).
  fold lo in Hm. rewrite Hwrap in Hm.
  rewrite Hsz, Hfa, Hba, Hsw. fold bound.
  destruct (Z.gtb_spec (max_address s1) bound); [lia|].
  replace (flash_buffer_addr s + base_address s + address hex_line
           - FLASH_BASE_ADDR)
    with (flash_buffer_addr s + lo - FLASH_BASE_ADDR) by (subst lo; lia).
  destruct (IN_FLASH (flash_buffer_addr s)).
  - destruct (negb _); reflexivity.
  - reflexivity.
Qed.

(** C6 on the code: the bound check compares 32-bit sums.  An [update]
    that handles a completed line holding a valid data record whose range
    [base_address + address + byte_count] runs past 2^32 finds a small
    wrapped end address; when that and the old [max_address] are within
    the bound, a build without [DRYRUN] writes the record to the staging
    region, although [base_address + address + byte_count] exceeds
    [FLASH_BASE_ADDR + flash_buffer_size]. *)
Theorem C6_bound_check_wraps (hex_line0 : ParsedHexLine)
  (t_transfer t_segment : Z) (s : State) :
  let hex_line := parse_and_validate_hex_line hex_line0 (hex_line_buf s) in
  let lo := base_address s + address hex_line in
  let bound := FLASH_BASE_ADDR + flash_buffer_size s in
  let addr := u32 (flash_buffer_addr s + lo - FLASH_BASE_ADDR) in
  transfer_in_progress s = true ->
  has_transfer_timed_out t_transfer s = false ->
  has_segment_timed_out t_segment s = false ->
  new_transfer_init_msg_received s = false ->
  are_all_segments_received s = true ->
  valid hex_line = true ->
  record_type hex_line = 0 ->
  DRYRUN = false ->
  0 <= lo < 2 ^ 32 ->
  2 ^ 32 <= lo + byte_count hex_line < 2 ^ 33 ->
  0 <= bound < 2 ^ 32 ->
  max_address s <= bound ->
  lo + byte_count hex_line - 2 ^ 32 <= bound ->
  staging_writes (snd (update hex_line0 t_transfer t_segment s))
  = staging_writes s
    ++ [if IN_FLASH (flash_buffer_addr s)
        then FlashWrite addr (data_bytes hex_line)
        else RamCopy addr (data_bytes hex_line)] /\
  base_address s + address hex_line + byte_count hex_line
  > FLASH_BASE_ADDR + flash_buffer_size s.
Proof.
  intros hex_line lo bound addr Hp Ht Hs Hn Ha Hv Hr Hd Hlo Hhi Hb Hmax Hend.
  split; [|subst lo bound; lia].
  assert (Hu : u32 (FLASH_BASE_ADDR + flash_buffer_size s) = bound)
    by (unfold u32; apply Z.mod_small; exact Hb).
  destruct (wrapped_data_record_staged hex_line s Hr Hd Hlo Hhi) as [_ Hw];
    [rewrite Hu; exact Hmax | rewrite Hu; exact Hend |].
  rewrite update_reaches_line_check by assumption. cbn [snd].
  rewrite handle_received_hex_line_writes. cbv zeta. fold hex_line.
  rewrite Hv. exact Hw.
Qed.

(** ** Init messages *)

Lemma land_1_testbit (x : Z) : Z.land x 1 = Z.b2z (Z.testbit x 0).
Proof.
  change 1 with (Z.ones 1) at 1. rewrite Z.land_ones by lia.
  change (2 ^ 1) with 2. symmetry. apply Z.bit0_mod.
Qed.

Lemma pack_le_bit0 (buf : list Z) :
  Z.land (Z.shiftr (pack_le buf) 0) 1 = Z.land (byte_at buf 0) 1.
Proof.
  rewrite Z.shiftr_0_r, !land_1_testbit. unfold pack_le.
  cbn [seq fold_left].
  rewrite !Z.lor_spec, !Z.shiftl_spec by lia.
  repeat match goal with
         | |- context [Z.testbit ?a ?i] => rewrite (Z.testbit_neg_r a i) by lia
         end.
  rewrite !orb_false_r. reflexivity.
Qed.

Lemma unpack_transfer_init_msg_type (st : StackBytes) (buf : list Z)
  (s : State) :
  Z.land (byte_at buf 0) 1 = 0 ->
  TransferInitMsg.msg_type (fst (unpack_transfer_init_msg st buf s)) = false.
Proof.
  intros H. unfold unpack_transfer_init_msg.
  destruct (FastCRC.crc32 _ _) as [c o]. simpl.
  rewrite pack_le_bit0, H. reflexivity.
Qed.

(** The fields of the unpacked message, before the checksum is
    calculated. *)
Lemma unpack_transfer_init_msg_calculated (st : StackBytes) (buf : list Z)
  (s : State) :
  let m := fst (unpack_transfer_init_msg st buf s) in
  TransferInitMsg.calculated_msg_checksum m
  = u16 (FastCRC.crc32_of
           (init_msg_crc_input st
              (TransferInitMsg.mk
                 (TransferInitMsg.msg_type m) (TransferInitMsg.line_count m)
                 (TransferInitMsg.file_checksum m)
                 (TransferInitMsg.init_msg_checksum m) 0))).
Proof.
  unfold unpack_transfer_init_msg, FastCRC.crc32, FastCRC.crc32_upd,
    FastCRC.crc32_of.
  cbn [fst FastCRC.seed TransferInitMsg.calculated_msg_checksum
         TransferInitMsg.msg_type TransferInitMsg.line_count
         TransferInitMsg.file_checksum TransferInitMsg.init_msg_checksum].
  reflexivity.
Qed.

Lemma update_when_idle (hex_line0 : ParsedHexLine) (t_transfer t_segment : Z)
  (s : State) :
  transfer_in_progress s = false ->
  update hex_line0 t_transfer t_segment s = (None, s).
Proof. intros H. unfold update. rewrite H. reflexivity. Qed.

(** C3, as the code has it: an init message whose checksum field differs
    from the value the receiver calculated, delivered while no transfer is
    in progress, leaves [transfer_in_progress] false and sets the two flags
    [new_transfer_init_msg_received] and [transfer_init_msg_error]; the
    checksum calculation has also overwritten the running value of the
    shared CRC object.  Nothing else changes, not even the time stamp, and
    a following [update] returns at its first test without a response. *)
Theorem C3_bad_init_while_idle (st : StackBytes) (millis : Z) (buf : list Z)
  (hex_line0 : ParsedHexLine) (t_transfer t_segment : Z) (s : State) :
  Z.land (byte_at buf 0) 1 = 0 ->
  TransferInitMsg.init_msg_checksum (fst (unpack_transfer_init_msg st buf s))
  <> TransferInitMsg.calculated_msg_checksum
       (fst (unpack_transfer_init_msg st buf s)) ->
  transfer_in_progress s = false ->
  exists s',
    handle_can_msg st millis buf s = Some s' /\
    transfer_in_progress s' = false /\
    new_transfer_init_msg_received s' = true /\
    transfer_init_msg_error s' = true /\
    s' = set_transfer_init_msg_error true
           (set_new_transfer_init_msg_received true
              (set_CRC32 (CRC32 s') s)) /\
    update hex_line0 t_transfer t_segment s' = (None, s').
Proof.
  intros Hb Hne Hidle. unfold handle_can_msg.
  apply Z.eqb_eq in Hb. rewrite Hb.
  pose proof (unpack_transfer_init_msg_type st buf s (proj1 (Z.eqb_eq _ _) Hb))
    as Ht.
  pose proof (unpack_transfer_init_msg_state st buf s) as Hs.
  destruct (unpack_transfer_init_msg st buf s) as [msg s1]. simpl in *.
  unfold process_transfer_init_msg. rewrite Ht.
  destruct (Z.eqb_spec (TransferInitMsg.init_msg_checksum msg)
              (TransferInitMsg.calculated_msg_checksum msg));
    [contradiction|].
  simpl. eexists. split; [reflexivity|].
  rewrite Hs. simpl. rewrite Hidle.
  do 4 (split; [reflexivity|]).
  apply update_when_idle. exact Hidle.
Qed.

(** C4 on the code: handling an init message whose checksum matches starts
    the transfer and stores the line count and the file checksum, but
    [abort_transfer], called after the flag was set, clears
    [new_transfer_init_msg_received] again.  The next [update] therefore
    does not take the branch for a new init message: it answers
    [SEND_LINE] because the empty line counts as complete. *)
Theorem C4_valid_init_clears_its_flag (st : StackBytes) (millis : Z)
  (buf : list Z) (hex_line0 : ParsedHexLine) (t_transfer t_segment : Z)
  (s : State) :
  Z.land (byte_at buf 0) 1 = 0 ->
  TransferInitMsg.init_msg_checksum (fst (unpack_transfer_init_msg st buf s))
  = TransferInitMsg.calculated_msg_checksum
      (fst (unpack_transfer_init_msg st buf s)) ->
  exists s',
    handle_can_msg st millis buf s = Some s' /\
    transfer_in_progress s' = true /\
    total_lines s'
    = TransferInitMsg.line_count (fst (unpack_transfer_init_msg st buf s)) /\
    received_file_checksum s'
    = TransferInitMsg.file_checksum
        (fst (unpack_transfer_init_msg st buf s)) /\
    new_transfer_init_msg_received s' = false /\
    are_all_segments_received s' = true /\
    (has_transfer_timed_out t_transfer s' = false ->
     has_segment_timed_out t_segment s' = false ->
     update hex_line0 t_transfer t_segment s'
     = (Some (ResponseCode.SEND_LINE, ErrorCode.NONE), s')).
Proof.
  intros Hb He. unfold handle_can_msg.
  apply Z.eqb_eq in Hb. rewrite Hb.
  pose proof (unpack_transfer_init_msg_type st buf s (proj1 (Z.eqb_eq _ _) Hb))
    as Ht.
  destruct (unpack_transfer_init_msg st buf s) as [msg s1]. simpl in *.
  unfold process_transfer_init_msg. rewrite Ht, He, Z.eqb_refl. simpl.
  eexists. split; [reflexivity|].
  do 5 (split; [reflexivity|]).
  intros H1 H2.
  match goal with |- update _ _ _ ?x = _ => set (s' := x) in * end.
  rewrite update_reaches_line_check by (auto; reflexivity).
  rewrite handle_invalid_line.
  - cbn [fst snd send_response].
    rewrite reset_cur_hex_line_buff_fixed by reflexivity. reflexivity.
  - apply short_line_is_invalid. vm_compute. lia.
Qed.

Lemma wf_update (hex_line0 : ParsedHexLine) (t_transfer t_segment : Z)
  (s : State) :
  wf_State s -> wf_State (snd (update hex_line0 t_transfer t_segment s)).
Proof.
  intros Hwf. unfold update.
  destruct (transfer_in_progress s); cbn [negb snd]; [|exact Hwf].
  destruct (has_transfer_timed_out t_transfer s);
    [apply wf_clear_transfer_state|].
  destruct (has_segment_timed_out t_segment s); [exact Hwf|].
  destruct (new_transfer_init_msg_received s); [exact Hwf|].
  destruct (are_all_segments_received s).
  - rewrite (surjective_pairing (handle_received_hex_line hex_line0 s)).
    cbn [snd]. rewrite handle_received_hex_line_cases. cbv zeta. cbn [snd].
    destruct (negb (valid _)); [apply wf_reset_cur_hex_line_buff|].
    destruct (negb (fst _)); apply wf_reset_cur_hex_line_buff.
  - destruct (eof_received s); [|exact Hwf].
    destruct (negb _); [apply wf_clear_transfer_state|].
    revert Hwf. now apply wf_State_same_line.
Qed.

(** ** Completion *)

Lemma line_consumed_leaves_no_segment (hex_line0 : ParsedHexLine)
  (s : State) :
  fst (handle_received_hex_line hex_line0 s) = ResponseCode.SEND_LINE /\
  hex_line_segment_count (snd (handle_received_hex_line hex_line0 s)) = -1.
Proof.
  rewrite handle_received_hex_line_cases. cbv zeta. cbn [fst snd].
  split; [reflexivity|].
  destruct (negb (valid _)); [reflexivity|].
  destruct (negb (fst _)); reflexivity.
Qed.

(** [update] reports [TRANSFER_COMPLETE] only in a state in which some
    segment of a started line is still missing. *)
Lemma complete_needs_pending_segment (hex_line0 : ParsedHexLine)
  (t_transfer t_segment : Z) (s : State) (err : ErrorCode.t) :
  fst (update hex_line0 t_transfer t_segment s)
  = Some (ResponseCode.TRANSFER_COMPLETE, err) ->
  are_all_segments_received s = false /\ hex_line_segment_count s <> -1 /\
  eof_received s = true /\
  computed_file_checksum s = received_file_checksum s.
Proof.
  unfold update.
  destruct (transfer_in_progress s); cbn [negb fst]; [|discriminate].
  destruct (has_transfer_timed_out t_transfer s); [discriminate|].
  destruct (has_segment_timed_out t_segment s); [discriminate|].
  destruct (new_transfer_init_msg_received s).
  { destruct (transfer_init_msg_error s); discriminate. }
  destruct (are_all_segments_received s) eqn:Ha.
  { pose proof (line_consumed_leaves_no_segment hex_line0 s) as [Hr _].
    destruct (handle_received_hex_line hex_line0 s) as [res s'].
    cbn [fst] in *. rewrite Hr. discriminate. }
  destruct (eof_received s); [|discriminate].
  unfold is_file_checksum_valid.
  destruct (Z.eqb_spec (computed_file_checksum s) (received_file_checksum s));
    cbn [negb fst]; [|discriminate].
  intros _. split; [reflexivity|]. split; [|auto].
  intros Hc. unfold are_all_segments_received in Ha. rewrite Hc in Ha.
  discriminate.
Qed.

End Controller.

(** ** The controller on literal inputs *)

Ltac by_computation := vm_compute; repeat split; congruence.

(** C1 on the code: a session that starts with an init message the
    receiver accepts and delivers every segment of its one-line file (the
    end-of-file record), with the declared file checksum equal to the
    computed one and no time-out, never gets [TRANSFER_COMPLETE].  Once the
    line is consumed the segment count is -1 again, the empty line counts
    as complete, and every further [update] answers [SEND_LINE] and leaves
    the state as it is: [transfer_in_progress] stays true and
    [file_transfer_complete] stays false. *)
Theorem C1_transfer_never_completes (n : nat) :
  transfer_in_progress Teensy.armed = true /\
  fst (Teensy.update 0 Teensy.armed)
  = Some (ResponseCode.SEND_LINE, ErrorCode.NONE) /\
  are_all_segments_received Teensy.line_received = true /\
  take 11 (hex_line_buf Teensy.line_received) = Teensy.eof_text /\
  fst (Teensy.update 0 Teensy.line_received)
  = Some (ResponseCode.SEND_LINE, ErrorCode.NONE) /\
  eof_received Teensy.line_consumed = true /\
  hex_line_num Teensy.line_consumed = total_lines Teensy.line_consumed /\
  computed_file_checksum Teensy.line_consumed
  = received_file_checksum Teensy.line_consumed /\
  Teensy.responses n 0 Teensy.line_consumed
  = replicate n (Some (ResponseCode.SEND_LINE, ErrorCode.NONE)) /\
  Nat.iter n (fun s => snd (Teensy.update 0 s)) Teensy.line_consumed
  = Teensy.line_consumed /\
  transfer_in_progress Teensy.line_consumed = true /\
  file_transfer_complete Teensy.line_consumed = false.
Proof.
  assert (Hfix : Teensy.update 0 Teensy.line_consumed
                 = (Some (ResponseCode.SEND_LINE, ErrorCode.NONE),
                    Teensy.line_consumed))
    by (vm_compute; reflexivity).
  do 8 (split; [vm_compute; reflexivity|]).
  split; [|split; [|split; vm_compute; reflexivity]].
  - induction n as [|n IH]; [reflexivity|].
    cbn [Teensy.responses replicate]. rewrite Hfix. cbn [fst snd].
    now rewrite IH.
  - induction n as [|n IH]; [reflexivity|].
    rewrite Nat.iter_succ, IH, Hfix. reflexivity.
Qed.

(** C2 on the code: for the init frame whose checksum field is the low 16
    bits of the CRC-32 of its wire bytes 0 to 5, the receiver calculates a
    different value, because it runs the CRC over 48 bytes of memory that
    start at the unpacked message object; the value changes with the bytes
    that lie behind the object, and the frame is rejected. *)
Theorem C2_init_checksum_not_over_wire_bytes :
  let buf := Teensy.spec_init in
  let calculated st :=
    TransferInitMsg.calculated_msg_checksum
      (fst (unpack_transfer_init_msg st buf Teensy.idle)) in
  u16 (FastCRC.crc32_of (take 6 buf)) = 12286 /\
  TransferInitMsg.init_msg_checksum
    (fst (unpack_transfer_init_msg Teensy.zero_stack buf Teensy.idle))
  = 12286 /\
  calculated Teensy.zero_stack = 44700 /\
  calculated Teensy.other_stack = 31241 /\
  (forall st,
     calculated st
     = u16 (FastCRC.crc32_of
              (init_msg_crc_input st
                 (TransferInitMsg.mk false 1 (FastCRC.crc32_of Teensy.eof_text)
                    12286 0)))) /\
  transfer_in_progress
    (default Teensy.idle
       (handle_can_msg Teensy.zero_stack 0 buf Teensy.idle))
  = false.
Proof.
  cbv zeta.
  do 4 (split; [vm_compute; reflexivity|]).
  split; [|vm_compute; reflexivity].
  intros st. rewrite unpack_transfer_init_msg_calculated. cbv zeta.
  do 3 f_equal;
    unfold unpack_transfer_init_msg, FastCRC.crc32, FastCRC.crc32_upd;
    cbn [fst TransferInitMsg.msg_type TransferInitMsg.line_count
           TransferInitMsg.file_checksum TransferInitMsg.init_msg_checksum];
    vm_compute; reflexivity.
Qed.

(** C3 fails on the code as the claim states it: after the corrupted init
    frame arrives in the idle state, a flag of the session has changed and
    the following [update] emits nothing at all. *)
Lemma C3_counterexample :
  transfer_in_progress Teensy.idle = false /\
  (let msg :=
     fst (unpack_transfer_init_msg Teensy.zero_stack Teensy.corrupted_init
            Teensy.idle) in
   TransferInitMsg.init_msg_checksum msg
   <> TransferInitMsg.calculated_msg_checksum msg) /\
  match handle_can_msg Teensy.zero_stack 0 Teensy.corrupted_init
          Teensy.idle with
  | Some s' =>
      transfer_in_progress s' = false /\
      new_transfer_init_msg_received s'
      <> new_transfer_init_msg_received Teensy.idle /\
      fst (Teensy.update 0 s') = None /\
      fst (Teensy.update 0 s')
      <> Some (ResponseCode.ERROR, ErrorCode.TRANSFER_INIT_CHECKSUM_ERROR)
  | None => False
  end.
Proof. by_computation. Qed.

Lemma C3_witness :
  Z.land (byte_at Teensy.corrupted_init 0) 1 = 0 /\
  transfer_in_progress Teensy.idle = false /\
  exists s',
    handle_can_msg Teensy.zero_stack 0 Teensy.corrupted_init Teensy.idle
    = Some s' /\
    transfer_init_msg_error s' = true /\
    Teensy.update 0 s' = (None, s').
Proof.
  split; [reflexivity|]. split; [reflexivity|].
  destruct (@C3_bad_init_while_idle Teensy.teensy35 Teensy.zero_stack 0
              Teensy.corrupted_init Teensy.stale_line 0 0 Teensy.idle)
    as (s' & H1 & _ & _ & H2 & _ & H3).
  - reflexivity.
  - vm_compute. congruence.
  - reflexivity.
  - exists s'. split; [exact H1|]. split; [exact H2|exact H3].
Defined.

Lemma C4_witness :
  Z.land (byte_at Teensy.accepted_init 0) 1 = 0 /\
  exists s',
    handle_can_msg Teensy.zero_stack 0 Teensy.accepted_init Teensy.idle
    = Some s' /\
    transfer_in_progress s' = true /\
    new_transfer_init_msg_received s' = false /\
    are_all_segments_received s' = true.
Proof.
  split; [reflexivity|].
  destruct (@C4_valid_init_clears_its_flag Teensy.teensy35 Teensy.zero_stack
              0 Teensy.accepted_init Teensy.stale_line 0 0 Teensy.idle)
    as (s' & H1 & H2 & _ & _ & H3 & H4 & _).
  - reflexivity.
  - vm_compute. reflexivity.
  - exists s'. split; [exact H1|]. split; [exact H2|].
    split; [exact H3|exact H4].
Defined.

Lemma C5_witness :
  transfer_in_progress Teensy.small_line_received = true /\
  are_all_segments_received Teensy.small_line_received = true /\
  fst (@process_hex_line Teensy.teensy35
         (Teensy.parsed Teensy.small_line_received)
         Teensy.small_line_received) = false /\
  hex_line_num (snd (Teensy.update 0 Teensy.small_line_received))
  = hex_line_num Teensy.small_line_received /\
  computed_file_checksum (snd (Teensy.update 0 Teensy.small_line_received))
  = computed_file_checksum Teensy.small_line_received.
Proof.
  do 3 (split; [vm_compute; reflexivity|]).
  destruct (@C5_failed_line_keeps_progress Teensy.teensy35 Teensy.stale_line
              0 0 Teensy.small_line_received) as [Hfail _];
    try (vm_compute; reflexivity).
  destruct Hfail as (H1 & H2 & _).
  - right. vm_compute. reflexivity.
  - split; [exact H1 | exact H2].
Defined.

Lemma C7_witness :
  record_type (Teensy.parsed Teensy.line_received) = 1 /\
  hex_line_num Teensy.line_received
  = total_lines Teensy.line_received - 1 /\
  fst (@process_hex_line Teensy.teensy35
         (Teensy.parsed Teensy.line_received) Teensy.line_received) = true /\
  eof_received
    (snd (@process_hex_line Teensy.teensy35
            (Teensy.parsed Teensy.line_received) Teensy.line_received))
  = true.
Proof.
  split; [vm_compute; reflexivity|]. split; [vm_compute; reflexivity|].
  destruct (@C7_eof_only_on_last_line Teensy.teensy35
              (Teensy.parsed Teensy.line_received) Teensy.line_received)
    as (Hiff & _ & Hok & _).
  - vm_compute. reflexivity.
  - assert (Ht : fst (@process_hex_line Teensy.teensy35
                        (Teensy.parsed Teensy.line_received)
                        Teensy.line_received) = true).
    { apply Hiff. vm_compute. reflexivity. }
    split; [exact Ht|]. apply Hok. exact Ht.
Defined.

Lemma C8_witness :
  deliver_segments Teensy.eof_segments_shuffled Teensy.armed
  = deliver_segments Teensy.eof_segments Teensy.armed /\
  hex_line_buf <$> deliver_segments Teensy.eof_segments_shuffled Teensy.armed
  = Some (Teensy.eof_text ++ replicate 34 PAD) /\
  hex_line_segments_received
  <$> deliver_segments Teensy.eof_segments_shuffled Teensy.armed
  = Some [true; true; true].
Proof.
  destruct (C8_segment_order_and_duplicates Teensy.eof_segments_shuffled
              Teensy.eof_segments Teensy.armed) as (H & Hb & Hm & _).
  - intros m m' H1 H2. vm_compute in H1, H2.
    repeat (apply elem_of_cons in H1 as [->|H1]);
      try (apply elem_of_nil in H1; contradiction);
      repeat (apply elem_of_cons in H2 as [->|H2]);
      try (apply elem_of_nil in H2; contradiction);
      (split; [reflexivity | vm_compute; congruence]).
  - intros m.
    let l := eval vm_compute in Teensy.eof_segments_shuffled in
    change Teensy.eof_segments_shuffled with l.
    let l := eval vm_compute in Teensy.eof_segments in
    change Teensy.eof_segments with l.
    rewrite !elem_of_cons, !elem_of_nil. tauto.
  - split; [exact H|]. rewrite Hb, Hm. vm_compute. split; reflexivity.
Defined.

Lemma C9_witness :
  hex_line_segment_count Teensy.armed = -1 /\
  are_all_segments_received Teensy.armed = true /\
  Teensy.update 0 Teensy.armed
  = (Some (ResponseCode.SEND_LINE, ErrorCode.NONE),
     reset_cur_hex_line_buff Teensy.armed).
Proof.
  split; [vm_compute; reflexivity|].
  destruct (@C9_empty_line_taken_as_complete Teensy.teensy35
              Teensy.stale_line 0 0 Teensy.armed) as (Ha & _ & Hu & Hl).
  - vm_compute. reflexivity.
  - split; [exact Ha|]. unfold Teensy.update.
    rewrite Hu by (vm_compute; reflexivity).
    destruct Hl as [_ ->]; [vm_compute; reflexivity|]. reflexivity.
Defined.


Lemma staging_written_within_wrapped_bound_example :
  let fits := Teensy.data_line_received 0x110 in
  let over := Teensy.data_line_received 0x10F in
  record_type (Teensy.parsed fits) = 0 /\
  fst (@process_hex_line Teensy.flashing (Teensy.parsed fits) fits) = true /\
  length (staging_writes
            (snd (@process_hex_line Teensy.flashing (Teensy.parsed fits)
                    fits))) = 1%nat /\
  u32 (base_address fits + address (Teensy.parsed fits)
       + byte_count (Teensy.parsed fits)) = 0x110 /\
  fst (@process_hex_line Teensy.flashing (Teensy.parsed over) over) = false /\
  staging_writes
    (snd (@process_hex_line Teensy.flashing (Teensy.parsed over) over))
  = [].
Proof.
  intros fits over.
  destruct (@staging_written_within_wrapped_bound Teensy.flashing
              Teensy.stale_line (Teensy.parsed fits) 0 0 fits)
    as (Honly & _ & _ & Hfit & _).
  destruct (@staging_written_within_wrapped_bound Teensy.flashing
              Teensy.stale_line (Teensy.parsed over) 0 0 over)
    as (_ & _ & _ & _ & Hover).
  split; [vm_compute; reflexivity|].
  split; [rewrite Hfit; vm_compute; reflexivity|].
  split; [vm_compute; reflexivity|].
  split; [vm_compute; reflexivity|].
  destruct Hover as [Hrej Hsame]; [vm_compute; reflexivity..|].
  split; [exact Hrej|]. rewrite Hsame. vm_compute. reflexivity.
Defined.

Lemma C6_witness :
  staging_writes (snd (Wrapping.update Wrapping.data_received))
  = [RamCopy 0x1FFFFFF8 (data_bytes Wrapping.parsed)] /\
  base_address Wrapping.data_received + address Wrapping.parsed
  + byte_count Wrapping.parsed
  > 0 + flash_buffer_size Wrapping.data_received.
Proof.
  destruct (@C6_bound_check_wraps Teensy.flashing Teensy.stale_line 0 0
              Wrapping.data_received) as [H1 H2];
    [vm_compute; reflexivity | vm_compute; reflexivity
    |vm_compute; reflexivity | vm_compute; reflexivity
    |vm_compute; reflexivity | vm_compute; reflexivity
    |vm_compute; reflexivity | reflexivity
    |vm_compute; split; [discriminate | reflexivity]
    |vm_compute; split; [discriminate | reflexivity]
    |vm_compute; split; [discriminate | reflexivity]
    |vm_compute; discriminate
    |vm_compute; discriminate |].
  split; [|exact H2].
  unfold Wrapping.update. rewrite H1. vm_compute. reflexivity.
Defined.

(** * Further properties of the code *)

(** ** Frame layout *)

Lemma lor_shiftl_add (a b n : Z) :
  0 <= a < 2 ^ n -> 0 <= b -> 0 <= n ->
  Z.lor a (Z.shiftl b n) = a + b * 2 ^ n.
Proof.
  intros Ha Hb Hn.
  assert (Hd : Z.land a (Z.shiftl b n) = 0).
  { apply Z.bits_inj'. intros k Hk.
    rewrite Z.land_spec, Z.shiftl_spec, Z.bits_0 by lia.
    destruct (Z.lt_ge_cases k n).
    - rewrite (Z.testbit_neg_r b) by lia. apply andb_false_r.
    - destruct (Z.eq_dec a 0) as [->|].
      + rewrite Z.bits_0. reflexivity.
      + rewrite (Z.bits_above_log2 a k); [reflexivity | lia |].
        apply Z.log2_lt_pow2; [lia|].
        apply Z.lt_le_trans with (2 ^ n); [lia|].
        apply Z.pow_le_mono_r; lia. }
  rewrite <- Z.lxor_lor by exact Hd.
  rewrite <- Z.add_nocarry_lxor by exact Hd.
  now rewrite Z.shiftl_mul_pow2.
Qed.

Lemma byte_at_range (buf : list Z) (i : nat) : 0 <= byte_at buf i < 256.
Proof. unfold byte_at, u8. apply Z.mod_pos_bound. lia. Qed.

Lemma pack_le_sum (buf : list Z) :
  pack_le buf
  = byte_at buf 0 + byte_at buf 1 * 2 ^ 8 + byte_at buf 2 * 2 ^ 16
    + byte_at buf 3 * 2 ^ 24 + byte_at buf 4 * 2 ^ 32
    + byte_at buf 5 * 2 ^ 40 + byte_at buf 6 * 2 ^ 48
    + byte_at buf 7 * 2 ^ 56.
Proof.
  unfold pack_le. cbn [seq fold_left].
  pose proof (byte_at_range buf 0). pose proof (byte_at_range buf 1).
  pose proof (byte_at_range buf 2). pose proof (byte_at_range buf 3).
  pose proof (byte_at_range buf 4). pose proof (byte_at_range buf 5).
  pose proof (byte_at_range buf 6). pose proof (byte_at_range buf 7).
  change (8 * Z.of_nat 0) with 0. change (8 * Z.of_nat 1) with 8.
  change (8 * Z.of_nat 2) with 16. change (8 * Z.of_nat 3) with 24.
  change (8 * Z.of_nat 4) with 32. change (8 * Z.of_nat 5) with 40.
  change (8 * Z.of_nat 6) with 48. change (8 * Z.of_nat 7) with 56.
  rewrite Z.lor_0_l, Z.shiftl_0_r.
  rewrite (lor_shiftl_add _ _ 8) by lia.
  rewrite (lor_shiftl_add _ _ 16) by lia.
  rewrite (lor_shiftl_add _ _ 24) by lia.
  rewrite (lor_shiftl_add _ _ 32) by lia.
  rewrite (lor_shiftl_add _ _ 40) by lia.
  rewrite (lor_shiftl_add _ _ 48) by lia.
  rewrite (lor_shiftl_add _ _ 56) by lia.
  reflexivity.
Qed.

Lemma shiftr_land_ones (p k n : Z) :
  0 <= k -> 0 <= n ->
  Z.land (Z.shiftr p k) (Z.ones n) = (p / 2 ^ k) mod 2 ^ n.
Proof. intros. rewrite Z.land_ones, Z.shiftr_div_pow2 by lia. reflexivity. Qed.

Ltac frame_bytes buf :=
  pose proof (byte_at_range buf 0); pose proof (byte_at_range buf 1);
  pose proof (byte_at_range buf 2); pose proof (byte_at_range buf 3);
  pose proof (byte_at_range buf 4); pose proof (byte_at_range buf 5);
  pose proof (byte_at_range buf 6); pose proof (byte_at_range buf 7).

Lemma unpack_transfer_segment_msg_data (buf : list Z) :
  TransferSegmentMsg.hex_data (unpack_transfer_segment_msg buf)
  = [byte_at buf 3; byte_at buf 4; byte_at buf 5; byte_at buf 6;
     byte_at buf 7].
Proof.
  unfold unpack_transfer_segment_msg. cbv zeta.
  cbn [TransferSegmentMsg.hex_data].
  frame_bytes buf. change 0xFF with (Z.ones 8).
  change (Z.to_nat MAX_HEX_CHUNK_SIZE) with 5%nat. cbn [seq map].
  change (24 + 8 * Z.of_nat 0) with 24. change (24 + 8 * Z.of_nat 1) with 32.
  change (24 + 8 * Z.of_nat 2) with 40. change (24 + 8 * Z.of_nat 3) with 48.
  change (24 + 8 * Z.of_nat 4) with 56.
  rewrite (shiftr_land_ones _ 24 8), (shiftr_land_ones _ 32 8),
    (shiftr_land_ones _ 40 8), (shiftr_land_ones _ 48 8),
    (shiftr_land_ones _ 56 8) by lia.
  rewrite pack_le_sum.
  repeat f_equal; Z.div_mod_to_equations; lia.
Qed.

(** X1: the fields of a segment message are these parts of the eight
    frame bytes: the message type is bit 0 of byte 0, the line number the
    upper seven bits of byte 0 with byte 1 above them, the segment number
    and the total the low and the high half of byte 2, and the text bytes
    3 to 7 in order. *)
Theorem X1_segment_frame_layout (buf : list Z) :
  let m := unpack_transfer_segment_msg buf in
  TransferSegmentMsg.msg_type m = negb (Z.land (byte_at buf 0) 1 =? 0) /\
  TransferSegmentMsg.line_num m = byte_at buf 0 / 2 + byte_at buf 1 * 128 /\
  TransferSegmentMsg.segment_num m = byte_at buf 2 mod 16 /\
  TransferSegmentMsg.total_segments m = byte_at buf 2 / 16 /\
  TransferSegmentMsg.hex_data m
  = [byte_at buf 3; byte_at buf 4; byte_at buf 5; byte_at buf 6;
     byte_at buf 7].
Proof.
  unfold unpack_transfer_segment_msg. cbv zeta.
  cbn [TransferSegmentMsg.msg_type TransferSegmentMsg.line_num
         TransferSegmentMsg.segment_num TransferSegmentMsg.total_segments
         TransferSegmentMsg.hex_data].
  split; [now rewrite pack_le_bit0|].
  frame_bytes buf.
  change 0x0F with (Z.ones 4). change 0x7FFF with (Z.ones 15).
  change 0xFF with (Z.ones 8).
  change (Z.to_nat MAX_HEX_CHUNK_SIZE) with 5%nat. cbn [seq map].
  change (24 + 8 * Z.of_nat 0) with 24. change (24 + 8 * Z.of_nat 1) with 32.
  change (24 + 8 * Z.of_nat 2) with 40. change (24 + 8 * Z.of_nat 3) with 48.
  change (24 + 8 * Z.of_nat 4) with 56.
  rewrite (shiftr_land_ones _ 1 15), (shiftr_land_ones _ 16 4),
    (shiftr_land_ones _ 20 4), (shiftr_land_ones _ 24 8),
    (shiftr_land_ones _ 32 8), (shiftr_land_ones _ 40 8),
    (shiftr_land_ones _ 48 8), (shiftr_land_ones _ 56 8) by lia.
  rewrite pack_le_sum.
  split; [Z.div_mod_to_equations; lia|].
  split; [Z.div_mod_to_equations; lia|].
  split; [Z.div_mod_to_equations; lia|].
  repeat f_equal; Z.div_mod_to_equations; lia.
Qed.

(** X2: the fields of an init message are these parts of the eight frame
    bytes: the line count as the line number of a segment, the file
    checksum the bytes 2 to 5 and the message checksum the bytes 6 and 7,
    both least significant byte first.  Unpacking changes nothing in the
    state but the running value of the CRC object. *)
Theorem X2_init_frame_layout (st : StackBytes) (buf : list Z) (s : State) :
  let m := fst (unpack_transfer_init_msg st buf s) in
  TransferInitMsg.msg_type m = negb (Z.land (byte_at buf 0) 1 =? 0) /\
  TransferInitMsg.line_count m = byte_at buf 0 / 2 + byte_at buf 1 * 128 /\
  TransferInitMsg.file_checksum m
  = byte_at buf 2 + byte_at buf 3 * 2 ^ 8 + byte_at buf 4 * 2 ^ 16
    + byte_at buf 5 * 2 ^ 24 /\
  TransferInitMsg.init_msg_checksum m
  = byte_at buf 6 + byte_at buf 7 * 2 ^ 8 /\
  0 <= TransferInitMsg.calculated_msg_checksum m < 2 ^ 16 /\
  snd (unpack_transfer_init_msg st buf s)
  = set_CRC32 (CRC32 (snd (unpack_transfer_init_msg st buf s))) s.
Proof.
  cbv zeta. split; [|split; [|split; [|split; [|split]]]].
  - unfold unpack_transfer_init_msg. destruct (FastCRC.crc32 _ _).
    cbn [fst TransferInitMsg.msg_type]. now rewrite pack_le_bit0.
  - unfold unpack_transfer_init_msg. destruct (FastCRC.crc32 _ _).
    cbn [fst TransferInitMsg.line_count]. frame_bytes buf.
    change 0x7FFF with (Z.ones 15).
    rewrite (shiftr_land_ones _ 1 15) by lia. rewrite pack_le_sum.
    Z.div_mod_to_equations; lia.
  - unfold unpack_transfer_init_msg. destruct (FastCRC.crc32 _ _).
    cbn [fst TransferInitMsg.file_checksum]. frame_bytes buf.
    change 0xFFFFFFFF with (Z.ones 32).
    rewrite (shiftr_land_ones _ 16 32) by lia. rewrite pack_le_sum.
    Z.div_mod_to_equations; lia.
  - unfold unpack_transfer_init_msg. destruct (FastCRC.crc32 _ _).
    cbn [fst TransferInitMsg.init_msg_checksum]. frame_bytes buf.
    change 0xFFFF with (Z.ones 16).
    rewrite (shiftr_land_ones _ 48 16) by lia. rewrite pack_le_sum.
    Z.div_mod_to_equations; lia.
  - unfold unpack_transfer_init_msg. destruct (FastCRC.crc32 _ _).
    cbn [fst TransferInitMsg.calculated_msg_checksum].
    unfold u16. apply Z.mod_pos_bound. lia.
  - apply unpack_transfer_init_msg_state.
Qed.

(** ** Timeouts *)

Lemma elapsed_across_rollover (last d : Z) :
  0 <= d < 2 ^ 32 -> u32 (u32 (last + d) - last) = d.
Proof.
  intros H. unfold u32.
  rewrite Zminus_mod_idemp_l.
  replace (last + d - last) with d by lia. apply Z.mod_small. lia.
Qed.

(** X3: the two timeout tests measure the time since the last accepted
    frame also across the 32-bit rollover of [millis()]: [d] milliseconds
    after the time stamp the inactivity timeout is reported exactly when
    [d] exceeds 15000 and the line timeout exactly when [d] exceeds 5000,
    whatever the time stamp was; an inactivity timeout implies a line
    timeout at the same reading. *)
Theorem X3_timeouts_across_rollover (d : Z) (s : State) :
  0 <= d < 2 ^ 32 ->
  let now := u32 (last_successful_can_msg_ts s + d) in
  has_transfer_timed_out now s = (d >? INACTIVITY_TIMEOUT_LEN) /\
  has_segment_timed_out now s = (d >? HEX_LINE_TIMEOUT_LEN) /\
  (has_transfer_timed_out now s = true ->
   has_segment_timed_out now s = true).
Proof.
  intros Hd now. subst now.
  unfold has_transfer_timed_out, has_segment_timed_out.
  rewrite elapsed_across_rollover by exact Hd.
  split; [reflexivity|]. split; [reflexivity|].
  unfold INACTIVITY_TIMEOUT_LEN, HEX_LINE_TIMEOUT_LEN.
  intros H. apply Z.gtb_lt in H. apply Z.gtb_lt. lia.
Qed.

Lemma X3_witness :
  let s := set_last_successful_can_msg_ts (2 ^ 32 - 1000) Teensy.armed in
  has_transfer_timed_out 14001 s = true /\
  has_transfer_timed_out 14000 s = false /\
  has_segment_timed_out 4001 s = true /\
  has_segment_timed_out 4000 s = false.
Proof.
  intros s.
  destruct (X3_timeouts_across_rollover 15001 s) as (H1 & _);
    [vm_compute; split; [discriminate | reflexivity]|].
  destruct (X3_timeouts_across_rollover 15000 s) as (H2 & _);
    [vm_compute; split; [discriminate | reflexivity]|].
  destruct (X3_timeouts_across_rollover 5001 s) as (_ & H3 & _);
    [vm_compute; split; [discriminate | reflexivity]|].
  destruct (X3_timeouts_across_rollover 5000 s) as (_ & H4 & _);
    [vm_compute; split; [discriminate | reflexivity]|].
  split; [exact H1|]. split; [exact H2|]. split; [exact H3 | exact H4].
Defined.

Section Coverage.

Context {platform : Platform}.

(** X4: while a transfer is in progress, an [update] that finds the
    inactivity timeout expired answers [ERROR], with the error code left
    at [NONE], and clears the transfer state, after which [update] is
    silent; an [update] that finds only the line timeout expired answers
    [SEND_LINE] and changes nothing, not even when every segment of the
    line has arrived: the line is not processed and the time stamp stays,
    so the answer repeats. *)
Theorem X4_update_on_timeouts (hex_line0 : ParsedHexLine)
  (t_transfer t_segment : Z) (s : State) :
  transfer_in_progress s = true ->
  (has_transfer_timed_out t_transfer s = true ->
   update hex_line0 t_transfer t_segment s
   = (Some (ResponseCode.ERROR, ErrorCode.NONE), clear_transfer_state s) /\
   transfer_in_progress (clear_transfer_state s) = false /\
   flash_buffer_addr (clear_transfer_state s) = flash_buffer_addr s /\
   flash_buffer_size (clear_transfer_state s) = flash_buffer_size s /\
   forall h t1 t2,
     update h t1 t2 (clear_transfer_state s) = (None, clear_transfer_state s))
  /\
  (has_transfer_timed_out t_transfer s = false ->
   has_segment_timed_out t_segment s = true ->
   update hex_line0 t_transfer t_segment s
   = (Some (ResponseCode.SEND_LINE, ErrorCode.NONE), s)).
Proof.
  intros Hp. split.
  - intros Ht. split.
    + unfold update. rewrite Hp, Ht. reflexivity.
    + split; [reflexivity|]. split; [reflexivity|]. split; [reflexivity|].
      intros h t1 t2. apply update_when_idle. reflexivity.
  - intros Ht Hs. unfold update. rewrite Hp, Ht, Hs. reflexivity.
Qed.

End Coverage.

Lemma X4_witness :
  transfer_in_progress Teensy.line_received = true /\
  are_all_segments_received Teensy.line_received = true /\
  Teensy.update 15001 Teensy.line_received
  = (Some (ResponseCode.ERROR, ErrorCode.NONE),
     clear_transfer_state Teensy.line_received) /\
  Teensy.update 5001 Teensy.line_received
  = (Some (ResponseCode.SEND_LINE, ErrorCode.NONE), Teensy.line_received).
Proof.
  split; [vm_compute; reflexivity|]. split; [vm_compute; reflexivity|].
  destruct (@X4_update_on_timeouts Teensy.teensy35 Teensy.stale_line
              15001 15001 Teensy.line_received) as [H1 _];
    [vm_compute; reflexivity|].
  destruct (@X4_update_on_timeouts Teensy.teensy35 Teensy.stale_line
              5001 5001 Teensy.line_received) as [_ H2];
    [vm_compute; reflexivity|].
  destruct H1 as [H1 _]; [vm_compute; reflexivity|].
  split; [exact H1|].
  apply H2; vm_compute; reflexivity.
Defined.

(** ** The length of a line and the parser *)

Lemma scan_to_pad_spec (fuel len : nat) (buf : list Z) :
  let r := scan_to_pad fuel len buf in
  (len <= r <= len + fuel)%nat /\
  (forall i, (len <= i < r)%nat ->
     at_index buf i <> PAD /\ Z.of_nat i < MAX_HEX_LINE_SIZE) /\
  ((r < len + fuel)%nat ->
   ~ (Z.of_nat r < MAX_HEX_LINE_SIZE /\ at_index buf r <> PAD)).
Proof.
  revert len. induction fuel as [|fuel IH]; intros len; cbn [scan_to_pad].
  - cbv zeta. split; [lia|]. split; [intros; lia | lia].
  - destruct (Z.ltb_spec (Z.of_nat len) MAX_HEX_LINE_SIZE) as [Hl|Hl];
      [destruct (Z.eqb_spec (at_index buf len) PAD) as [Hp|Hp]|];
      cbn [andb negb].
    + cbv zeta. split; [lia|]. split; [intros; lia|]. intros _ [_ H].
      contradiction.
    + specialize (IH (S len)). cbv zeta in IH.
      destruct IH as (H1 & H2 & H3).
      cbv zeta. split; [lia|]. split.
      * intros i Hi. destruct (Nat.eq_dec i len) as [->|Hne]; [auto|].
        apply H2. lia.
      * intros H. apply H3. lia.
    + cbv zeta. split; [lia|]. split; [intros; lia|]. intros _ [H _]. lia.
Qed.

Lemma line_length_bounds (buf : list Z) :
  (line_length buf <= 45)%nat /\
  (forall i, (i < line_length buf)%nat -> at_index buf i <> PAD) /\
  ((line_length buf < 45)%nat ->
   ~ at_index buf (line_length buf) <> PAD).
Proof.
  unfold line_length.
  destruct (scan_to_pad_spec (Z.to_nat MAX_HEX_LINE_SIZE) 0 buf)
    as (H1 & H2 & H3).
  change (Z.to_nat MAX_HEX_LINE_SIZE) with 45%nat in *.
  unfold MAX_HEX_LINE_SIZE in *.
  split; [lia|]. split.
  - intros i Hi. apply H2. lia.
  - intros Hlt E. apply H3; [lia|]. split; [lia | exact E].
Qed.

(** X5: the length that the parser and the checksum take for a line is
    the position of the first [PAD] byte among the 45 bytes of the buffer,
    and 45 when there is none. *)
Theorem X5_line_length_is_first_pad (buf : list Z) :
  (line_length buf <= 45)%nat /\
  (forall i, (i < line_length buf)%nat -> at_index buf i <> PAD) /\
  ((line_length buf < 45)%nat -> at_index buf (line_length buf) = PAD).
Proof.
  unfold line_length.
  pose proof (scan_to_pad_spec (Z.to_nat MAX_HEX_LINE_SIZE) 0 buf) as H.
  cbv zeta in H. destruct H as (H1 & H2 & H3).
  change (Z.to_nat MAX_HEX_LINE_SIZE) with 45%nat in *.
  unfold MAX_HEX_LINE_SIZE in *.
  split; [lia|]. split.
  - intros i Hi. apply H2. lia.
  - intros Hlt.
    destruct (Z.eq_dec (at_index buf (scan_to_pad 45 0 buf)) PAD) as [E|E];
      [exact E|].
    exfalso. apply H3; [lia|]. split; [lia | exact E].
Qed.

Lemma at_index_app_l (l1 l2 : list Z) (i : nat) :
  (i < length l1)%nat -> at_index (l1 ++ l2) i = at_index l1 i.
Proof. intros H. unfold at_index. now rewrite lookup_app_l. Qed.

Lemma at_index_elem (l : list Z) (i : nat) :
  (i < length l)%nat -> at_index l i ∈ l.
Proof.
  intros H. unfold at_index.
  destruct (lookup_lt_is_Some_2 l i H) as [x Hx]. rewrite Hx. simpl.
  apply list_elem_of_lookup. eauto.
Qed.

(** X6: a text of at most 45 bytes that contains no [PAD] byte, padded
    with [PAD] to the size of the buffer, has its own length as line
    length, so the bytes that enter the file checksum are the text. *)
Theorem X6_padded_text_recovered (text : list Z) :
  (length text <= 45)%nat ->
  PAD ∉ text ->
  let buf := text ++ replicate (45 - length text) PAD in
  line_length buf = length text /\
  take (line_length buf) buf = text.
Proof.
  intros Hlen Hpad buf.
  destruct (line_length_bounds buf) as (H1 & H2 & H3).
  assert (Hb : length buf = 45%nat).
  { subst buf. rewrite length_app, length_replicate. lia. }
  assert (E : line_length buf = length text).
  { destruct (Nat.lt_trichotomy (line_length buf) (length text))
      as [Hlt|[Heq|Hgt]]; [|exact Heq|].
    - exfalso. apply (H3 ltac:(lia)). intros E. apply Hpad.
      rewrite <- E. subst buf.
      rewrite at_index_app_l by exact Hlt. now apply at_index_elem.
    - exfalso. apply (H2 (length text) Hgt). subst buf.
      unfold at_index. rewrite lookup_app_r by lia.
      rewrite Nat.sub_diag.
      destruct (45 - length text)%nat eqn:Hk; [lia|]. reflexivity. }
  split; [exact E|]. rewrite E. subst buf. now rewrite take_app_length.
Qed.

Lemma X6_witness :
  line_length (Teensy.eof_text ++ replicate 34 PAD) = 11%nat /\
  take 11 (Teensy.eof_text ++ replicate 34 PAD) = Teensy.eof_text.
Proof.
  destruct (X6_padded_text_recovered Teensy.eof_text) as [H1 H2].
  - vm_compute. lia.
  - unfold Teensy.eof_text, PAD. rewrite !not_elem_of_cons.
    repeat split; try discriminate. apply not_elem_of_nil.
  - split; [exact H1|]. rewrite H1 in H2. exact H2.
Defined.

Section Parser.

Context {platform : Platform}.

Lemma scan_field_result (width ptr : nat) (buf : list Z)
  (assign : Z -> ParsedHexLine -> ParsedHexLine)
  (hex_line hex_line' : ParsedHexLine) :
  scan_field width ptr buf assign hex_line = Some hex_line' ->
  hex_line' = hex_line \/ exists v, hex_line' = assign v hex_line.
Proof.
  unfold scan_field. destruct (sscanf_x _ _); intros [= <-]; eauto.
Qed.

Lemma scan_data_fields (n i ptr : nat) (buf : list Z)
  (hex_line : ParsedHexLine) :
  let r := snd (scan_data n i ptr buf hex_line) in
  byte_count r = byte_count hex_line /\
  address r = address hex_line /\
  record_type r = record_type hex_line /\
  checksum r = checksum hex_line /\
  valid r = valid hex_line.
Proof.
  revert i ptr hex_line.
  induction n as [|n IH]; intros i ptr hex_line; cbn [scan_data].
  - cbn. auto.
  - destruct (scan_field 2 ptr buf _ hex_line) as [h|] eqn:E; [|cbn; auto].
    apply scan_field_result in E as [->|[v ->]].
    + apply IH.
    + specialize (IH (S i) (ptr + 2)%nat
                    (set_data (<[i:=v]> (data hex_line)) hex_line)).
      cbv zeta in *. exact IH.
Qed.

(** X7: a line that the parser returns as valid starts with a colon, has
    a byte count of at most 16 and a record type of at most 5, and its
    length up to the first [PAD] is 11 plus twice the byte count (so
    between 11 and 43). *)
Theorem X7_valid_line_shape (hex_line0 : ParsedHexLine) (buf : list Z) :
  valid (parse_and_validate_hex_line hex_line0 buf) = true ->
  let r := parse_and_validate_hex_line hex_line0 buf in
  at_index buf 0 = 58 /\
  0 <= byte_count r <= 16 /\
  record_type r <= 5 /\
  Z.of_nat (line_length buf) = 11 + 2 * byte_count r /\
  (11 <= line_length buf <= 43)%nat.
Proof.
  cbv zeta. unfold parse_and_validate_hex_line.
  destruct (Z.ltb_spec (Z.of_nat (line_length buf)) 11) as [Hl|Hl];
    [discriminate|].
  destruct (Z.eqb_spec (at_index buf 0) 58) as [Hc|Hc]; cbn [negb];
    [|discriminate].
  destruct (scan_field 2 1 buf set_byte_count _) as [h1|] eqn:E1;
    [|discriminate].
  destruct (Z.gtb_spec (byte_count h1) 16) as [Hb|Hb]; [discriminate|].
  destruct (Z.eqb_spec (Z.of_nat (line_length buf)) (11 + byte_count h1 * 2))
    as [Hn|Hn]; cbn [negb]; [|discriminate].
  destruct (scan_field 4 3 buf set_address h1) as [h2|] eqn:E2;
    [|discriminate].
  destruct (scan_field 2 7 buf set_record_type h2) as [h3|] eqn:E3;
    [|discriminate].
  destruct (Z.gtb_spec (record_type h3) 5) as [Hr|Hr]; [discriminate|].
  assert (B2 : byte_count h2 = byte_count h1)
    by (apply scan_field_result in E2 as [->|[v ->]]; reflexivity).
  assert (B3 : byte_count h3 = byte_count h1)
    by (apply scan_field_result in E3 as [->|[v ->]]; [|cbn]; exact B2).
  pose proof (scan_data_fields (Z.to_nat (byte_count h3)) 0 9 buf h3) as Hd.
  cbv zeta in Hd.
  destruct (scan_data (Z.to_nat (byte_count h3)) 0 9 buf h3) as [ok h4].
  cbn [snd] in Hd. destruct Hd as (B4 & _ & R4 & _).
  destruct ok; cbn [negb]; [|discriminate].
  destruct (scan_field 2 _ buf set_checksum h4) as [h5|] eqn:E5;
    [|discriminate].
  intros _.
  assert (B5 : byte_count h5 = byte_count h1 /\ record_type h5 = record_type h3).
  { apply scan_field_result in E5 as [->|[v ->]]; cbn; split; congruence. }
  destruct B5 as [-> ->].
  split; [exact Hc|]. repeat split; lia.
Qed.

End Parser.

Lemma X7_witness :
  valid (Teensy.parsed Teensy.small_line_received) = true /\
  byte_count (Teensy.parsed Teensy.small_line_received) = 16 /\
  line_length (hex_line_buf Teensy.small_line_received) = 43%nat.
Proof.
  destruct (@X7_valid_line_shape Teensy.teensy35 Teensy.stale_line
              (hex_line_buf Teensy.small_line_received))
    as (_ & _ & _ & H & _); [vm_compute; reflexivity|].
  split; [vm_compute; reflexivity|]. split; [vm_compute; reflexivity|].
  vm_compute. reflexivity.
Defined.

(** ** Records *)

Lemma flat_map_le_bytes_lookup (l : list Z) (i : nat) :
  (i < 4 * length l)%nat ->
  flat_map (le_bytes 4) l !! i
  = Some (Z.land (Z.shiftr (at_index l (i / 4))
                    (8 * Z.of_nat (i mod 4))) 255).
Proof.
  revert i. induction l as [|x l IH]; intros i Hi; [simpl in Hi; lia|].
  cbn [flat_map].
  destruct (Nat.lt_ge_cases i 4) as [Hlt|Hge].
  - rewrite lookup_app_l by (unfold le_bytes; rewrite length_map, length_seq; lia).
    rewrite (Nat.div_small i 4), (Nat.mod_small i 4) by lia.
    unfold at_index. cbn [lookup list_lookup default].
    do 4 (destruct i as [|i]; [reflexivity|]). lia.
  - rewrite lookup_app_r by (unfold le_bytes; rewrite length_map, length_seq; lia).
    replace (length (le_bytes 4 x)) with 4%nat by reflexivity.
    rewrite IH by (simpl in Hi; lia).
    assert (Hd : (i / 4 = S ((i - 4) / 4))%nat).
    { replace i with ((i - 4) + 1 * 4)%nat at 1 by lia.
      rewrite Nat.div_add by lia. lia. }
    assert (Hm : (i mod 4 = (i - 4) mod 4)%nat).
    { replace i with ((i - 4) + 1 * 4)%nat at 1 by lia.
      apply Nat.Div0.mod_add. }
    rewrite Hd, Hm. reflexivity.
Qed.

(** X8: the bytes handed to the flash primitive are the first
    [byte_count] bytes of the array of [unsigned int] that holds the data,
    seen as bytes: byte [i] is byte [i mod 4] of entry [i / 4].  When every
    entry is below 256, as after a two-digit conversion, byte [i] is the
    data byte number [i / 4] for [i] a multiple of 4 and zero otherwise, so
    a record of [n] bytes stages only its first [n / 4] (rounded up) data
    bytes, three zero bytes after each. *)
Theorem X8_staged_bytes_are_the_int_array (hex_line : ParsedHexLine)
  (i : nat) :
  (i < Z.to_nat (byte_count hex_line))%nat ->
  (i < 4 * length (data hex_line))%nat ->
  data_bytes hex_line !! i
  = Some ((at_index (data hex_line) (i / 4) / 2 ^ (8 * Z.of_nat (i mod 4)))
          mod 256) /\
  (0 <= at_index (data hex_line) (i / 4) < 256 ->
   data_bytes hex_line !! i
   = Some (if (i mod 4 =? 0)%nat then at_index (data hex_line) (i / 4)
           else 0)).
Proof.
  intros Hn Hl.
  assert (E : data_bytes hex_line !! i
              = Some ((at_index (data hex_line) (i / 4)
                       / 2 ^ (8 * Z.of_nat (i mod 4))) mod 256)).
  { unfold data_bytes. rewrite lookup_take_lt by exact Hn.
    rewrite flat_map_le_bytes_lookup by exact Hl.
    change 255 with (Z.ones 8). rewrite shiftr_land_ones by lia.
    reflexivity. }
  split; [exact E|]. intros Hr. rewrite E. f_equal.
  pose proof (Nat.mod_upper_bound i 4 ltac:(lia)) as Hm.
  destruct (i mod 4)%nat as [|[|[|[|k]]]] eqn:Em; cbn [Nat.eqb]; try lia.
  - change (8 * Z.of_nat 0) with 0. rewrite Z.pow_0_r, Z.div_1_r.
    apply Z.mod_small. exact Hr.
  - change (2 ^ (8 * Z.of_nat 1)) with 256.
    rewrite Z.div_small by lia. reflexivity.
  - change (2 ^ (8 * Z.of_nat 2)) with 65536.
    rewrite Z.div_small by lia. reflexivity.
  - change (2 ^ (8 * Z.of_nat 3)) with 16777216.
    rewrite Z.div_small by lia. reflexivity.
Qed.

Lemma X8_witness :
  data_bytes (Teensy.parsed Teensy.small_line_received) !! 4%nat = Some 0x46 /\
  data_bytes (Teensy.parsed Teensy.small_line_received) !! 1%nat = Some 0.
Proof.
  destruct (X8_staged_bytes_are_the_int_array
              (Teensy.parsed Teensy.small_line_received) 4) as [_ H4];
    [vm_compute; lia | vm_compute; lia |].
  destruct (X8_staged_bytes_are_the_int_array
              (Teensy.parsed Teensy.small_line_received) 1) as [_ H1];
    [vm_compute; lia | vm_compute; lia |].
  split.
  - rewrite H4 by (vm_compute; split; [discriminate | reflexivity]).
    vm_compute. reflexivity.
  - rewrite H1 by (vm_compute; split; [discriminate | reflexivity]).
    vm_compute. reflexivity.
Defined.

Lemma extended_address_value (d0 d1 n : Z) :
  0 <= d0 < 256 -> 0 <= d1 < 256 -> 0 <= n <= 16 ->
  u32 (Z.shiftl (Z.lor (u32 (Z.shiftl d0 8)) d1) n)
  = (d0 * 256 + d1) * 2 ^ n.
Proof.
  intros H0 H1 Hn.
  assert (E : u32 (Z.shiftl d0 8) = d0 * 256).
  { rewrite Z.shiftl_mul_pow2 by lia. unfold u32.
    change (2 ^ 8) with 256. apply Z.mod_small. lia. }
  assert (L : Z.lor (d0 * 256) d1 = d0 * 256 + d1).
  { rewrite Z.lor_comm.
    pose proof (lor_shiftl_add d1 d0 8) as P.
    rewrite Z.shiftl_mul_pow2 in P by lia. change (2 ^ 8) with 256 in P.
    rewrite P by lia. lia. }
  rewrite E, L, Z.shiftl_mul_pow2 by lia.
  unfold u32. apply Z.mod_small.
  assert (0 < 2 ^ n <= 2 ^ 16)
    by (split; [apply Z.pow_pos_nonneg; lia
               | apply Z.pow_le_mono_r; lia]).
  change (2 ^ 16) with 65536 in *. change (2 ^ 32) with 4294967296. nia.
Qed.

Section Records.

Context {platform : Platform}.

(** X9: an extended segment address record (type 2) sets the base address
    to 16 times, an extended linear address record (type 4) to 65536 times
    the big-endian 16-bit number in its first two data bytes; both are
    always accepted, change nothing else, and the record's address field
    and byte count play no part. *)
Theorem X9_extended_address_records (hex_line : ParsedHexLine) (s : State) :
  0 <= at_index (data hex_line) 0 < 256 ->
  0 <= at_index (data hex_line) 1 < 256 ->
  let upper := at_index (data hex_line) 0 * 256 + at_index (data hex_line) 1 in
  (record_type hex_line = 2 ->
   process_hex_line hex_line s = (true, set_base_address (upper * 16) s)) /\
  (record_type hex_line = 4 ->
   process_hex_line hex_line s = (true, set_base_address (upper * 65536) s)).
Proof.
  intros H0 H1 upper. split; intros Hr; unfold process_hex_line; rewrite Hr;
    [unfold process_hex_extended_segment_address_record
    |unfold process_hex_extended_linear_address_record];
    rewrite Hr; cbn [Z.eqb Pos.eqb negb];
    rewrite extended_address_value by lia; reflexivity.
Qed.

Lemma process_hex_line_frame (hex_line : ParsedHexLine) (s : State) :
  let s' := snd (process_hex_line hex_line s) in
  s' = set_staging_writes (staging_writes s')
         (set_eof_received (eof_received s')
            (set_min_address (min_address s')
               (set_max_address (max_address s')
                  (set_base_address (base_address s') s)))).
Proof.
  cbv zeta.
  destruct (process_hex_line_dispatch hex_line s)
    as [[Hr ->]|[[Hr ->]|[[Hr ->]|[[Hr ->]|[[Hr ->]|[[Hr ->]|[Hr ->]]]]]]];
    cbv beta delta [process_hex_data_record process_hex_eof_record
      process_hex_extended_segment_address_record
      process_hex_start_segment_address_record
      process_hex_extended_linear_address_record
      process_hex_start_linear_address_record];
    rewrite ?Hr; cbn [Z.eqb Pos.eqb negb fst snd];
    try (destruct s; reflexivity).
  - destruct (update_min_max_spec hex_line s) as (_ & _ & Hs1).
    set (s1 := update_min_max hex_line s) in *.
    branches; rewrite Hs1; destruct s; reflexivity.
  - branches; destruct s; reflexivity.
Qed.

(** X10: whatever the record, [process_hex_line] changes at most the base
    address, the two address bounds, the end-of-file flag and the staging
    region.  A record other than a data record that is rejected leaves the
    state as it was; the two start address records (types 3 and 5) are
    accepted without any effect, so [start_address] is never assigned; a
    record type outside 0 to 5 is rejected. *)
Theorem X10_record_effects (hex_line : ParsedHexLine) (s : State) :
  let ok := fst (process_hex_line hex_line s) in
  let s' := snd (process_hex_line hex_line s) in
  s' = set_staging_writes (staging_writes s')
         (set_eof_received (eof_received s')
            (set_min_address (min_address s')
               (set_max_address (max_address s')
                  (set_base_address (base_address s') s)))) /\
  (record_type hex_line <> 0 -> ok = false -> s' = s) /\
  (record_type hex_line = 3 \/ record_type hex_line = 5 ->
   ok = true /\ s' = s) /\
  (record_type hex_line < 0 \/ 5 < record_type hex_line -> ok = false).
Proof.
  cbv zeta. split; [apply process_hex_line_frame|].
  destruct (process_hex_line_dispatch hex_line s)
    as [[Hr ->]|[[Hr ->]|[[Hr ->]|[[Hr ->]|[[Hr ->]|[[Hr ->]|[Hr ->]]]]]]];
    cbv beta delta [process_hex_data_record process_hex_eof_record
      process_hex_extended_segment_address_record
      process_hex_start_segment_address_record
      process_hex_extended_linear_address_record
      process_hex_start_linear_address_record];
    rewrite ?Hr; cbn [Z.eqb Pos.eqb negb fst snd].
  - split; [intros; lia | split; intros; lia].
  - split; [|split; intros; lia].
    intros _. branches; [reflexivity | discriminate].
  - split; [discriminate | split; intros; lia].
  - split; [auto|]. split; [auto | intros; lia].
  - split; [discriminate | split; intros; lia].
  - split; [auto|]. split; [auto | intros; lia].
  - split; [reflexivity|]. split; [intros; lia | reflexivity].
Qed.

End Records.

Lemma X9_witness :
  @process_hex_line Teensy.teensy35
    (mkLine 2 0 4 [0x12; 0x34] 0 true) Teensy.armed
  = (true, set_base_address 0x12340000 Teensy.armed).
Proof.
  destruct (@X9_extended_address_records Teensy.teensy35
              (mkLine 2 0 4 [0x12; 0x34] 0 true) Teensy.armed) as [_ H];
    [vm_compute; split; [discriminate | reflexivity]
    |vm_compute; split; [discriminate | reflexivity]|].
  exact (H eq_refl).
Defined.

Lemma X10_witness :
  @process_hex_line Teensy.teensy35
    (mkLine 4 0 5 [0; 0; 0x12; 0x34] 0 true) Teensy.armed
  = (true, Teensy.armed).
Proof.
  destruct (@X10_record_effects Teensy.teensy35
              (mkLine 4 0 5 [0; 0; 0x12; 0x34] 0 true) Teensy.armed)
    as (_ & _ & H & _).
  destruct H as [H1 H2]; [right; reflexivity|].
  rewrite (surjective_pairing (process_hex_line _ _)), H1, H2. reflexivity.
Defined.

(** ** The file checksum and the dry-run build *)

Section Checksum.

Context {platform : Platform}.

(** X11: the computed file checksum is the CRC-32 of the text of the
    accepted lines, one after the other and without line ends.
    [clear_transfer_state] starts it over the empty text; a line that
    parses and whose record is processed extends the text by the bytes of
    the line buffer before the first [PAD] and advances [hex_line_num] by
    one; any other line leaves both as they were. *)
Theorem X11_checksum_covers_accepted_lines (hex_line0 : ParsedHexLine)
  (text : list Z) (s0 s : State) :
  checksum_covers [] (clear_transfer_state s0) /\
  (checksum_covers text s ->
   let hex_line := parse_and_validate_hex_line hex_line0 (hex_line_buf s) in
   let line := take (line_length (hex_line_buf s)) (hex_line_buf s) in
   let s' := snd (handle_received_hex_line hex_line0 s) in
   if valid hex_line && fst (process_hex_line hex_line s)
   then checksum_covers (text ++ line) s' /\
        hex_line_num s' = u32 (hex_line_num s + 1)
   else checksum_covers text s' /\ hex_line_num s' = hex_line_num s).
Proof.
  split; [split; reflexivity|].
  intros [Hc Hf] hex_line line s'. subst s'.
  rewrite handle_received_hex_line_cases. fold hex_line. cbv zeta.
  cbn [snd].
  destruct (process_hex_line_progress hex_line s) as (Hn & Hcf & Hcrc & _).
  destruct (valid hex_line); cbn [andb negb]; [|split; [split|]; auto].
  assert (Hb : hex_line_buf (snd (process_hex_line hex_line s))
               = hex_line_buf s).
  { rewrite (process_hex_line_frame hex_line s). reflexivity. }
  destruct (fst (process_hex_line hex_line s)); cbn [negb].
  - set (s1 := snd (process_hex_line hex_line s)) in *.
    unfold add_hex_line_to_checksum, FastCRC.crc32_upd.
    rewrite Hb, Hcrc, Hc. cbn [FastCRC.seed].
    fold line. unfold checksum_covers, FastCRC.crc32_of, FastCRC.feed.
    rewrite fold_left_app.
    split; [split; reflexivity|]. cbn. rewrite Hn. reflexivity.
  - split; [split|]; cbn; congruence.
Qed.

(** X12: in a build with [DRYRUN] set, as the header has it, no call of
    [update] writes to the staging region, whatever the line. *)
Theorem X12_dry_run_writes_nothing (hex_line0 : ParsedHexLine)
  (t_transfer t_segment : Z) (s : State) :
  DRYRUN = true ->
  staging_writes (snd (update hex_line0 t_transfer t_segment s))
  = staging_writes s.
Proof.
  intros Hd.
  destruct (update_writes hex_line0 t_transfer t_segment s) as [E|[_ E]];
    [exact E|].
  rewrite E.
  destruct (process_hex_line_writes
              (parse_and_validate_hex_line hex_line0 (hex_line_buf s)) s)
    as [E'|(_ & Hf & _)]; [exact E'|].
  rewrite Hd in Hf. discriminate.
Qed.

End Checksum.

Lemma X11_witness :
  checksum_covers [] Teensy.line_received /\
  let s := Teensy.line_received in
  let hex_line :=
    @parse_and_validate_hex_line Teensy.teensy35 Teensy.stale_line
      (hex_line_buf s) in
  let line := take (line_length (hex_line_buf s)) (hex_line_buf s) in
  let s' := snd (@handle_received_hex_line Teensy.teensy35
                   Teensy.stale_line s) in
  if valid hex_line && fst (@process_hex_line Teensy.teensy35 hex_line s)
  then checksum_covers ([] ++ line) s' /\
       hex_line_num s' = u32 (hex_line_num s + 1)
  else checksum_covers [] s' /\ hex_line_num s' = hex_line_num s.
Proof.
  assert (H0 : checksum_covers [] Teensy.line_received)
    by (split; vm_compute; reflexivity).
  split; [exact H0|].
  exact (proj2 (@X11_checksum_covers_accepted_lines Teensy.teensy35
                  Teensy.stale_line [] Teensy.idle Teensy.line_received) H0).
Defined.

Lemma X12_witness :
  staging_writes (snd (Teensy.update 0 Teensy.small_line_received)) = [].
Proof.
  exact (@X12_dry_run_writes_nothing Teensy.teensy35 Teensy.stale_line 0 0
           Teensy.small_line_received eq_refl).
Defined.

(** ** Init messages during a transfer *)

Lemma clear_transfer_state_forgets (o : FastCRC32) (a b : bool) (s : State) :
  clear_transfer_state
    (set_transfer_init_msg_error a
       (set_new_transfer_init_msg_received b (set_CRC32 o s)))
  = clear_transfer_state s.
Proof. destruct s. vm_compute. reflexivity. Qed.

Section InitMessages.

Context {platform : Platform}.

(** X13: an init message whose checksum field differs from the calculated
    value, received while a transfer is in progress, leaves the transfer
    in progress and sets the two init flags (and overwrites the CRC
    object); nothing else changes, the time stamp included.  No [update]
    clears the flags: until the transfer times out every [update] leaves
    the state as it is and answers [ERROR], or [SEND_LINE] once the
    segment time-out has passed, so no further line is processed. *)
Theorem X13_bad_init_blocks_transfer (st : StackBytes) (millis : Z)
  (buf : list Z) (s : State) :
  Z.land (byte_at buf 0) 1 = 0 ->
  TransferInitMsg.init_msg_checksum (fst (unpack_transfer_init_msg st buf s))
  <> TransferInitMsg.calculated_msg_checksum
       (fst (unpack_transfer_init_msg st buf s)) ->
  transfer_in_progress s = true ->
  exists s',
    handle_can_msg st millis buf s = Some s' /\
    s' = set_transfer_init_msg_error true
           (set_new_transfer_init_msg_received true
              (set_CRC32 (CRC32 s') s)) /\
    transfer_in_progress s' = true /\
    forall hex_line0 t_transfer t_segment,
      has_transfer_timed_out t_transfer s' = false ->
      update hex_line0 t_transfer t_segment s'
      = (Some (if has_segment_timed_out t_segment s'
               then ResponseCode.SEND_LINE else ResponseCode.ERROR,
               ErrorCode.NONE), s').
Proof.
  intros Hb Hne Hp. unfold handle_can_msg.
  apply Z.eqb_eq in Hb. rewrite Hb.
  pose proof (unpack_transfer_init_msg_type st buf s (proj1 (Z.eqb_eq _ _) Hb))
    as Ht.
  pose proof (unpack_transfer_init_msg_state st buf s) as Hs.
  destruct (unpack_transfer_init_msg st buf s) as [msg s1]. simpl in *.
  unfold process_transfer_init_msg. rewrite Ht.
  destruct (Z.eqb_spec (TransferInitMsg.init_msg_checksum msg)
              (TransferInitMsg.calculated_msg_checksum msg));
    [contradiction|].
  simpl. eexists. split; [reflexivity|].
  rewrite Hs. simpl. rewrite Hp.
  split; [reflexivity|]. split; [reflexivity|].
  intros hex_line0 t_transfer t_segment Hto.
  unfold update. cbn [transfer_in_progress set_transfer_init_msg_error
    set_new_transfer_init_msg_received set_CRC32 negb].
  rewrite Hp. cbn [negb]. rewrite Hto.
  destruct (has_segment_timed_out t_segment _); reflexivity.
Qed.

(** X14: an init message whose checksum matches restarts the session from
    any state, also in the middle of a transfer or after a completed one:
    the result is the cleared state with the transfer marked in progress,
    the line count and file checksum of the message and a fresh time
    stamp.  Line number, end-of-file flag, address bounds, computed
    checksum and line buffer of the earlier transfer are gone; the staging
    configuration and what was written to the staging region stay. *)
Theorem X14_valid_init_restarts (st : StackBytes) (millis : Z)
  (buf : list Z) (s : State) :
  Z.land (byte_at buf 0) 1 = 0 ->
  TransferInitMsg.init_msg_checksum (fst (unpack_transfer_init_msg st buf s))
  = TransferInitMsg.calculated_msg_checksum
      (fst (unpack_transfer_init_msg st buf s)) ->
  let msg := fst (unpack_transfer_init_msg st buf s) in
  exists s',
    handle_can_msg st millis buf s = Some s' /\
    s' = set_last_successful_can_msg_ts (u32 millis)
           (set_total_lines (TransferInitMsg.line_count msg)
              (set_received_file_checksum (TransferInitMsg.file_checksum msg)
                 (set_transfer_in_progress true (clear_transfer_state s)))) /\
    hex_line_num s' = 0 /\ eof_received s' = false /\
    file_transfer_complete s' = false /\
    checksum_covers [] s' /\
    hex_line_segment_count s' = -1 /\
    hex_line_buf s' = replicate (Z.to_nat MAX_HEX_LINE_SIZE) PAD /\
    flash_buffer_addr s' = flash_buffer_addr s /\
    flash_buffer_size s' = flash_buffer_size s /\
    staging_writes s' = staging_writes s.
Proof.
  intros Hb He msg. subst msg. unfold handle_can_msg.
  apply Z.eqb_eq in Hb. rewrite Hb.
  pose proof (unpack_transfer_init_msg_type st buf s (proj1 (Z.eqb_eq _ _) Hb))
    as Ht.
  pose proof (unpack_transfer_init_msg_state st buf s) as Hs.
  destruct (unpack_transfer_init_msg st buf s) as [msg s1].
  cbn [fst snd] in *.
  unfold process_transfer_init_msg. rewrite Ht, He, Z.eqb_refl.
  cbn [negb]. unfold abort_transfer. rewrite Hs.
  rewrite clear_transfer_state_forgets.
  eexists. split; [reflexivity|]. split; [reflexivity|].
  split; [reflexivity|]. split; [reflexivity|]. split; [reflexivity|].
  split; [split; reflexivity|].
  split; [reflexivity|]. split; [reflexivity|]. split; [reflexivity|].
  split; reflexivity.
Qed.

End InitMessages.

Lemma X13_witness :
  exists s',
    handle_can_msg Teensy.zero_stack 7 Teensy.corrupted_init Teensy.armed
    = Some s' /\
    transfer_in_progress s' = true /\
    Teensy.update 8 s' = (Some (ResponseCode.ERROR, ErrorCode.NONE), s').
Proof.
  destruct (@X13_bad_init_blocks_transfer Teensy.teensy35 Teensy.zero_stack 7
              Teensy.corrupted_init Teensy.armed)
    as (s' & H1 & H2 & H3 & H4).
  - vm_compute. reflexivity.
  - vm_compute. discriminate.
  - vm_compute. reflexivity.
  - exists s'. split; [exact H1|]. split; [exact H3|].
    unfold Teensy.update.
    assert (E : s' = default Teensy.armed
                       (handle_can_msg Teensy.zero_stack 7
                          Teensy.corrupted_init Teensy.armed))
      by (rewrite H1; reflexivity).
    assert (Ht : has_transfer_timed_out 8 s' = false)
      by (rewrite E; vm_compute; reflexivity).
    assert (Hg : has_segment_timed_out 8 s' = false)
      by (rewrite E; vm_compute; reflexivity).
    rewrite (H4 Teensy.stale_line 8 8 Ht), Hg. reflexivity.
Defined.

Lemma X14_witness :
  exists s',
    handle_can_msg Teensy.zero_stack 9 Teensy.accepted_init
      Teensy.line_consumed = Some s' /\
    hex_line_num s' = 0 /\ eof_received s' = false.
Proof.
  destruct (@X14_valid_init_restarts Teensy.zero_stack 9
              Teensy.accepted_init Teensy.line_consumed)
    as (s' & H1 & _ & H3 & H4 & _).
  - vm_compute. reflexivity.
  - vm_compute. reflexivity.
  - exists s'. split; [exact H1|]. split; [exact H3 | exact H4].
Defined.

(** ** Segment frames *)

Lemma handle_segment_frame (st : StackBytes) (millis : Z) (buf : list Z)
  (s : State) :
  Z.land (byte_at buf 0) 1 <> 0 ->
  handle_can_msg st millis buf s
  = if transfer_in_progress s then
      '(ok, s1) ← process_transfer_segment_msg
                    (unpack_transfer_segment_msg buf) s;
      if negb ok then Some s1
      else Some (set_last_successful_can_msg_ts (u32 millis) s1)
    else Some (set_last_successful_can_msg_ts (u32 millis) s).
Proof.
  intros H. unfold handle_can_msg.
  destruct (Z.eqb_spec (Z.land (byte_at buf 0) 1) 0); [contradiction|].
  reflexivity.
Qed.

(** X15: what the handler does with a segment frame it does not accept.
    While no transfer is in progress the frame is ignored but the time
    stamp is refreshed.  During a transfer a frame for another line, a
    frame whose total differs from the one fixed for the line, and a frame
    whose segment number is not below that total leave the whole state as
    it was, the time stamp included.  The first frame of a line fixes the
    total even when its own segment number is not below it and it is
    rejected. *)
Theorem X15_rejected_segment_frames (st : StackBytes) (millis : Z)
  (buf : list Z) (s : State) :
  Z.land (byte_at buf 0) 1 <> 0 ->
  let msg := unpack_transfer_segment_msg buf in
  (transfer_in_progress s = false ->
   handle_can_msg st millis buf s
   = Some (set_last_successful_can_msg_ts (u32 millis) s)) /\
  (transfer_in_progress s = true ->
   (TransferSegmentMsg.line_num msg <> hex_line_num s ->
    handle_can_msg st millis buf s = Some s) /\
   (hex_line_segment_count s <> -1 ->
    TransferSegmentMsg.total_segments msg <> hex_line_segment_count s ->
    handle_can_msg st millis buf s = Some s) /\
   (hex_line_segment_count s <> -1 ->
    TransferSegmentMsg.segment_num msg >= hex_line_segment_count s ->
    handle_can_msg st millis buf s = Some s) /\
   (TransferSegmentMsg.line_num msg = hex_line_num s ->
    hex_line_segment_count s = -1 ->
    TransferSegmentMsg.segment_num msg
    >= TransferSegmentMsg.total_segments msg ->
    handle_can_msg st millis buf s
    = Some (first_segment (TransferSegmentMsg.total_segments msg) s))).
Proof.
  intros Hb msg. rewrite handle_segment_frame by exact Hb. fold msg.
  split; [intros ->; reflexivity|].
  intros ->. unfold process_transfer_segment_msg.
  split; [|split; [|split]].
  - intros Hl.
    destruct (Z.eqb_spec (TransferSegmentMsg.line_num msg) (hex_line_num s));
      [contradiction | reflexivity].
  - intros Hc Ht.
    destruct (Z.eqb_spec (TransferSegmentMsg.line_num msg) (hex_line_num s));
      [|reflexivity].
    destruct (Z.eqb_spec (hex_line_segment_count s) (-1)); [contradiction|].
    destruct (Z.eqb_spec (TransferSegmentMsg.total_segments msg)
                (hex_line_segment_count s)); [contradiction | reflexivity].
  - intros Hc Hk.
    destruct (Z.eqb_spec (TransferSegmentMsg.line_num msg) (hex_line_num s));
      [|reflexivity].
    destruct (Z.eqb_spec (hex_line_segment_count s) (-1)); [contradiction|].
    destruct (Z.eqb_spec (TransferSegmentMsg.total_segments msg)
                (hex_line_segment_count s)); [|reflexivity].
    cbn [negb]. unfold check_and_copy.
    destruct (Z.geb_spec (TransferSegmentMsg.segment_num msg)
                (hex_line_segment_count s)); [reflexivity | lia].
  - intros Hl Hc Hk. rewrite Hl, Z.eqb_refl, Hc. cbn [negb Z.eqb].
    unfold check_and_copy.
    destruct (Z.geb_spec (TransferSegmentMsg.segment_num msg)
                (hex_line_segment_count
                   (first_segment (TransferSegmentMsg.total_segments msg) s)));
      [reflexivity|].
    cbn in *. lia.
Qed.

Lemma X15_witness :
  handle_can_msg Teensy.zero_stack 7
    (Teensy.segment_frame 0 3 3 [58; 48; 48; 48; 48]) Teensy.armed
  = Some (first_segment 3 Teensy.armed) /\
  handle_can_msg Teensy.zero_stack 7
    (Teensy.segment_frame 0 3 3 [58; 48; 48; 48; 48]) Teensy.idle
  = Some (set_last_successful_can_msg_ts 7 Teensy.idle).
Proof.
  destruct (X15_rejected_segment_frames Teensy.zero_stack 7
              (Teensy.segment_frame 0 3 3 [58; 48; 48; 48; 48]) Teensy.armed)
    as [_ H]; [vm_compute; discriminate|].
  destruct H as (_ & _ & _ & H); [vm_compute; reflexivity|].
  destruct (X15_rejected_segment_frames Teensy.zero_stack 7
              (Teensy.segment_frame 0 3 3 [58; 48; 48; 48; 48]) Teensy.idle)
    as [H' _]; [vm_compute; discriminate|].
  split.
  - rewrite H; [reflexivity | vm_compute; reflexivity
               | vm_compute; reflexivity | vm_compute; discriminate].
  - rewrite H'; [reflexivity | vm_compute; reflexivity].
Defined.

Lemma set_flags_over_flags (received received0 : list bool) (b : list Z)
  (s : State) :
  set_hex_line_segments_received received
    (set_hex_line_buf b (set_hex_line_segments_received received0 s))
  = set_hex_line_segments_received received (set_hex_line_buf b s).
Proof. destruct s; reflexivity. Qed.

(** X16: a segment frame for the current line whose total agrees with the
    line's (or is the first of the line) and whose segment number is below
    the total and below 9 is accepted: the time stamp is refreshed, the
    flag of the segment is set, and the frame bytes 3 to 7 are stored at
    positions [5 * segment_num] to [5 * segment_num + 4] of the line
    buffer.  The other positions of the buffer, the other flags and every
    other field stay as they were. *)
Theorem X16_accepted_segment_frame (st : StackBytes) (millis : Z)
  (buf : list Z) (s : State) :
  wf_State s ->
  transfer_in_progress s = true ->
  Z.land (byte_at buf 0) 1 <> 0 ->
  let msg := unpack_transfer_segment_msg buf in
  let k := TransferSegmentMsg.segment_num msg in
  let t := TransferSegmentMsg.total_segments msg in
  TransferSegmentMsg.line_num msg = hex_line_num s ->
  hex_line_segment_count s = -1 \/ hex_line_segment_count s = t ->
  k < t -> k < MAX_CHUNKS_PER_HEX_LINE ->
  exists s',
    handle_can_msg st millis buf s = Some s' /\
    s' = set_last_successful_can_msg_ts (u32 millis)
           (set_hex_line_segments_received (hex_line_segments_received s')
              (set_hex_line_buf (hex_line_buf s')
                 (set_hex_line_segment_count t s))) /\
    hex_line_segments_received s'
    = <[Z.to_nat k := true]>
        (if hex_line_segment_count s =? -1
         then replicate (Z.to_nat t) false
         else hex_line_segments_received s) /\
    hex_line_segments_received s' !! Z.to_nat k = Some true /\
    (forall j, (j < 5)%nat ->
       hex_line_buf s' !! (5 * Z.to_nat k + j)%nat
       = Some (byte_at buf (3 + j))) /\
    (forall i, ~ (5 * Z.to_nat k <= i < 5 * Z.to_nat k + 5)%nat ->
       hex_line_buf s' !! i = hex_line_buf s !! i).
Proof.
  intros Hwf Hp Hb msg k t Hl Hc Hkt Hk9.
  destruct (unpack_transfer_segment_msg_range buf) as [Hk0 Ht0].
  fold msg in Hk0, Ht0. cbv zeta in Hk0, Ht0. fold k in Hk0. fold t in Ht0.
  pose proof (unpack_transfer_segment_msg_data buf) as Hd. fold msg in Hd.
  rewrite handle_segment_frame by exact Hb. fold msg. rewrite Hp.
  rewrite process_transfer_segment_msg_alt. fold t.
  rewrite Hl, Z.eqb_refl. cbn [negb].
  assert (Ha : admitted t s = true).
  { unfold admitted. destruct Hc as [->| ->];
      [reflexivity | rewrite Z.eqb_refl; apply orb_true_r]. }
  rewrite Ha, check_and_copy_spec. fold k. cbv zeta.
  assert (Ho : hex_line_segment_count (opened t s) = t /\
               hex_line_buf (opened t s) = hex_line_buf s /\
               hex_line_segments_received (opened t s)
               = (if hex_line_segment_count s =? -1
                  then replicate (Z.to_nat t) false
                  else hex_line_segments_received s) /\
               opened t s
               = set_hex_line_segments_received
                   (hex_line_segments_received (opened t s))
                   (set_hex_line_segment_count t s)).
  { unfold opened.
    destruct (Z.eqb_spec (hex_line_segment_count s) (-1)) as [E|E].
    - repeat split.
    - destruct Hc as [Hc|Hc]; [contradiction|].
      split; [exact Hc|]. split; [reflexivity|]. split; [reflexivity|].
      rewrite <- Hc. destruct s; reflexivity. }
  destruct Ho as (Ho1 & Ho2 & Ho3 & Ho4).
  assert (Hlen : Z.of_nat (length (hex_line_segments_received (opened t s)))
                 = t).
  { rewrite Ho3.
    destruct (Z.eqb_spec (hex_line_segment_count s) (-1)) as [E|E].
    - rewrite length_replicate. lia.
    - destruct Hwf as [_ [Hw|[_ Hw]]]; [contradiction|].
      destruct Hc as [Hc|Hc]; [contradiction | lia]. }
  rewrite Ho1.
  destruct (Z.geb_spec k t); [lia|].
  case_decide as Hdec; [|exfalso; apply Hdec; lia].
  cbn [mbind option_bind negb].
  eexists. split; [reflexivity|].
  cbn [hex_line_segments_received hex_line_buf
         set_last_successful_can_msg_ts set_hex_line_segments_received
         set_hex_line_buf].
  split.
  { match goal with
    | |- set_last_successful_can_msg_ts _
           (set_hex_line_segments_received ?F (set_hex_line_buf ?B _)) = _ =>
        rewrite <- (set_flags_over_flags F
                      (hex_line_segments_received (opened t s)) B
                      (set_hex_line_segment_count t s))
    end.
    rewrite <- Ho4. reflexivity. }
  split; [rewrite Ho3; reflexivity|].
  split.
  { apply list_lookup_insert_eq. lia. }
  destruct Hwf as [Hbl _].
  change (Z.to_nat MAX_HEX_LINE_SIZE) with 45%nat in Hbl.
  unfold MAX_CHUNKS_PER_HEX_LINE in Hk9.
  rewrite Ho2. split.
  - intros j Hj. rewrite lookup_pasted by exact Hk0.
    case_decide as Hin; [|exfalso; apply Hin; lia].
    f_equal. rewrite Hd.
    replace (5 * Z.to_nat k + j - 5 * Z.to_nat k)%nat with j by lia.
    do 5 (destruct j as [|j]; [reflexivity|]). lia.
  - intros i Hi. rewrite lookup_pasted by exact Hk0.
    case_decide as Hin; [exfalso; apply Hi; lia | reflexivity].
Qed.

Lemma X16_witness :
  exists s',
    handle_can_msg Teensy.zero_stack 7
      (Teensy.segment_frame 0 1 3 [48; 48; 48; 49; 70]) Teensy.armed
    = Some s' /\
    hex_line_buf s' !! 5%nat = Some 48 /\
    hex_line_buf s' !! 9%nat = Some 70 /\
    hex_line_buf s' !! 4%nat = Some PAD.
Proof.
  destruct (X16_accepted_segment_frame Teensy.zero_stack 7
              (Teensy.segment_frame 0 1 3 [48; 48; 48; 49; 70]) Teensy.armed)
    as (s' & H1 & _ & _ & _ & H5 & H6).
  - split; [reflexivity | left; reflexivity].
  - vm_compute. reflexivity.
  - vm_compute. discriminate.
  - vm_compute. reflexivity.
  - left. vm_compute. reflexivity.
  - vm_compute. reflexivity.
  - vm_compute. reflexivity.
  - exists s'. split; [exact H1|].
    split; [exact (H5 0%nat ltac:(lia))|].
    split; [exact (H5 4%nat ltac:(lia))|].
    rewrite (H6 4%nat); [vm_compute; reflexivity | vm_compute; lia].
Defined.

(** ** Reassembly of a line *)

Lemma are_all_segments_received_spec (s : State) :
  are_all_segments_received s = true <->
  forall i, (i < Z.to_nat (hex_line_segment_count s))%nat ->
    hex_line_segments_received s !! i = Some true.
Proof.
  unfold are_all_segments_received. rewrite forallb_forall. split.
  - intros H i Hi. specialize (H i). rewrite in_seq in H.
    specialize (H ltac:(lia)).
    destruct (hex_line_segments_received s !! i) as [[|]|];
      [reflexivity | discriminate | discriminate].
  - intros H i Hi. apply in_seq in Hi. rewrite (H i) by lia. reflexivity.
Qed.

Lemma deliver_segment_accepted (m : TransferSegmentMsg.t) (t : Z)
  (s : State) :
  wf_State s -> hex_line_segment_count s = t ->
  0 <= t <= MAX_CHUNKS_PER_HEX_LINE ->
  TransferSegmentMsg.line_num m = hex_line_num s ->
  TransferSegmentMsg.total_segments m = t ->
  0 <= seg_num m < t ->
  deliver_segment m s
  = Some (set_hex_line_segments_received
            (<[Z.to_nat (seg_num m) := true]> (hex_line_segments_received s))
            (set_hex_line_buf
               (pasted (seg_num m) (TransferSegmentMsg.hex_data m)
                  (hex_line_buf s)) s)).
Proof.
  intros [_ Hwf] Hc Ht Hl Hm Hk.
  rewrite deliver_segment_alt, Hl, Z.eqb_refl, Hm. cbn [negb].
  unfold admitted, opened. rewrite Hc, Z.eqb_refl, orb_true_r.
  destruct (Z.eqb_spec t (-1)); [lia|].
  rewrite copy_step_spec. cbv zeta. rewrite Hc.
  destruct (Z.geb_spec (seg_num m) t); [lia|].
  case_decide as Hd; [reflexivity|].
  exfalso. apply Hd. destruct Hwf as [Hw|[_ Hw]]; lia.
Qed.

Lemma segment_number_among (k : Z) (l : list TransferSegmentMsg.t) :
  (exists m, m ∈ l /\ seg_num m = k) \/ (forall m, m ∈ l -> seg_num m <> k).
Proof.
  induction l as [|m l IH].
  - right. intros m Hm. apply elem_of_nil in Hm. contradiction.
  - destruct (Z.eq_dec (seg_num m) k) as [E|E].
    + left. exists m. split; [left | exact E].
    + destruct IH as [(m' & Hm' & E')|IH].
      * left. exists m'. split; [now right | exact E'].
      * right. intros m' Hm'. apply elem_of_cons in Hm' as [->|Hm']; auto.
Qed.

Lemma deliver_segments_of_line (msgs : list TransferSegmentMsg.t) (t : Z)
  (s : State) :
  wf_State s -> hex_line_segment_count s = t ->
  0 <= t <= MAX_CHUNKS_PER_HEX_LINE ->
  (forall m, m ∈ msgs ->
     TransferSegmentMsg.line_num m = hex_line_num s /\
     TransferSegmentMsg.total_segments m = t /\
     0 <= seg_num m < t) ->
  exists s',
    deliver_segments msgs s = Some s' /\
    hex_line_segment_count s' = t /\
    (forall k : nat,
       hex_line_segments_received s' !! k = Some true <->
       hex_line_segments_received s !! k = Some true \/
       ((k < length (hex_line_segments_received s))%nat /\
        exists m, m ∈ msgs /\ Z.to_nat (seg_num m) = k)) /\
    (forall m j,
       m ∈ msgs ->
       (forall m', m' ∈ msgs -> seg_num m' = seg_num m ->
          TransferSegmentMsg.hex_data m' = TransferSegmentMsg.hex_data m) ->
       (j < 5)%nat ->
       hex_line_buf s' !! (5 * Z.to_nat (seg_num m) + j)%nat
       = Some (at_index (TransferSegmentMsg.hex_data m) j)) /\
    (forall i,
       (forall m, m ∈ msgs ->
          ~ (5 * Z.to_nat (seg_num m) <= i < 5 * Z.to_nat (seg_num m) + 5)%nat)
       -> hex_line_buf s' !! i = hex_line_buf s !! i).
Proof.
  unfold deliver_segments. revert s.
  induction msgs as [|m msgs IH]; intros s Hwf Hc Ht Hok.
  - exists s. split; [reflexivity|]. split; [exact Hc|]. split.
    + intros k. split; [auto|]. intros [H|(_ & m & Hm & _)]; [exact H|].
      apply elem_of_nil in Hm. contradiction.
    + split; [|reflexivity]. intros m j Hm. apply elem_of_nil in Hm.
      contradiction.
  - rewrite run_cons.
    destruct (Hok m) as (Hl & Hm & Hk); [left|].
    rewrite (deliver_segment_accepted m t s Hwf Hc Ht Hl Hm Hk).
    cbn [mbind option_bind].
    set (s1 := set_hex_line_segments_received _ _).
    assert (Hwf1 : wf_State s1).
    { destruct Hwf as [Hb Hf]. split.
      - subst s1. cbn. rewrite length_pasted. exact Hb.
      - subst s1. cbn. rewrite length_insert. exact Hf. }
    destruct (IH s1 Hwf1) as (s' & Hr & Hc' & Hf' & Hb1 & Hb2);
      [exact Hc | exact Ht | intros m' Hm'; apply Hok; now right |].
    exists s'. split; [exact Hr|]. split; [exact Hc'|].
    assert (Hbl : length (hex_line_buf s) = 45%nat) by (apply Hwf).
    unfold MAX_CHUNKS_PER_HEX_LINE in Ht.
    assert (Hs1f : hex_line_segments_received s1
                   = <[Z.to_nat (seg_num m) := true]>
                       (hex_line_segments_received s)) by reflexivity.
    assert (Hs1b : hex_line_buf s1
                   = pasted (seg_num m) (TransferSegmentMsg.hex_data m)
                       (hex_line_buf s)) by reflexivity.
    split; [|split].
    + intros k. rewrite Hf', Hs1f, length_insert, list_lookup_insert.
      case_decide as Hd.
      * destruct Hd as [<- Hd]. split; [|auto].
        intros _. right. split; [exact Hd|].
        exists m. split; [left | reflexivity].
      * split.
        -- intros [H|(Hlt & m' & Hm' & E)]; [now left|].
           right. split; [exact Hlt|]. exists m'. split; [now right | exact E].
        -- intros [H|(Hlt & m' & Hm' & E)]; [now left|].
           apply elem_of_cons in Hm' as [->|Hm'].
           ++ exfalso. apply Hd. split; [exact E | rewrite E; exact Hlt].
           ++ right. split; [exact Hlt|]. exists m'. auto.
    + intros m0 j Hm0 Hcons Hj.
      assert (Hown :
        forall i, (5 * Z.to_nat (seg_num m) <= i < 5 * Z.to_nat (seg_num m) + 5)%nat ->
          hex_line_buf s1 !! i
          = Some (at_index (TransferSegmentMsg.hex_data m)
                    (i - 5 * Z.to_nat (seg_num m)))).
      { intros i Hi. rewrite Hs1b, lookup_pasted by lia.
        case_decide as Hd; [reflexivity|]. exfalso. apply Hd. lia. }
      assert (Hcase :
        forall m1, m1 ∈ msgs ->
          (forall m', m' ∈ m :: msgs -> seg_num m' = seg_num m1 ->
             TransferSegmentMsg.hex_data m' = TransferSegmentMsg.hex_data m1) ->
          hex_line_buf s' !! (5 * Z.to_nat (seg_num m1) + j)%nat
          = Some (at_index (TransferSegmentMsg.hex_data m1) j)).
      { intros m1 Hm1 Hc1. apply Hb1; [exact Hm1 | | exact Hj].
        intros m' Hm'. apply Hc1. now right. }
      apply elem_of_cons in Hm0 as [->|Hm0]; [|now apply Hcase].
      destruct (segment_number_among (seg_num m) msgs)
        as [(m1 & Hm1 & E1)|Hnone].
      * assert (Ed : TransferSegmentMsg.hex_data m1
                     = TransferSegmentMsg.hex_data m)
          by (apply Hcons; [now right | exact E1]).
        rewrite <- E1, <- Ed. apply Hcase; [exact Hm1|].
        intros m' Hm' E'. rewrite Ed. apply Hcons; [exact Hm'|]. lia.
      * rewrite Hb2.
        -- rewrite Hown by lia. f_equal. f_equal. lia.
        -- intros m' Hm' Hi.
           assert (seg_num m' <> seg_num m) by now apply Hnone.
           destruct (Hok m') as (_ & _ & Hk'); [now right|]. lia.
    + intros i Hi. rewrite Hb2.
      * rewrite Hs1b, lookup_pasted by lia.
        case_decide as Hd; [|reflexivity].
        exfalso. apply (Hi m); [left | lia].
      * intros m' Hm'. apply Hi. now right.
Qed.

Lemma deliver_first_segment (m : TransferSegmentMsg.t) (s : State) :
  hex_line_segment_count s = -1 ->
  TransferSegmentMsg.line_num m = hex_line_num s ->
  0 <= TransferSegmentMsg.total_segments m ->
  deliver_segment m s
  = deliver_segment m (first_segment (TransferSegmentMsg.total_segments m) s).
Proof.
  intros Hc Hl Ht. rewrite !deliver_segment_alt.
  change (hex_line_num (first_segment _ s)) with (hex_line_num s).
  rewrite Hl, Z.eqb_refl. cbn [negb].
  unfold admitted, opened. rewrite Hc.
  change (hex_line_segment_count (first_segment ?t s)) with t.
  destruct (Z.eqb_spec (TransferSegmentMsg.total_segments m) (-1)); [lia|].
  rewrite (Z.eqb_refl (TransferSegmentMsg.total_segments m)). reflexivity.
Qed.

(** X17: the segments of one line, delivered to a state that has no
    segment of the line yet, in any order and with repetitions: when each
    of them carries the current line number, the same total of at most 9
    and a segment number below the total, delivery never leaves the
    arrays, and afterwards the line counts as complete exactly when every
    segment number below the total occurred.  The text of a segment lies
    at its place in the line buffer (provided that messages with the same
    number carry the same text), and the places of segments that did not
    arrive hold what they held before. *)
Theorem X17_line_reassembly (msgs : list TransferSegmentMsg.t) (t : Z)
  (s : State) :
  wf_State s ->
  hex_line_segment_count s = -1 ->
  msgs <> [] ->
  0 <= t <= MAX_CHUNKS_PER_HEX_LINE ->
  (forall m, m ∈ msgs ->
     TransferSegmentMsg.line_num m = hex_line_num s /\
     TransferSegmentMsg.total_segments m = t /\
     0 <= TransferSegmentMsg.segment_num m < t) ->
  exists s',
    deliver_segments msgs s = Some s' /\
    hex_line_segment_count s' = t /\
    (are_all_segments_received s' = true <->
     forall k, 0 <= k < t ->
       exists m, m ∈ msgs /\ TransferSegmentMsg.segment_num m = k) /\
    (forall m j,
       m ∈ msgs ->
       (forall m', m' ∈ msgs ->
          TransferSegmentMsg.segment_num m'
          = TransferSegmentMsg.segment_num m ->
          TransferSegmentMsg.hex_data m' = TransferSegmentMsg.hex_data m) ->
       (j < 5)%nat ->
       hex_line_buf s'
         !! (5 * Z.to_nat (TransferSegmentMsg.segment_num m) + j)%nat
       = Some (at_index (TransferSegmentMsg.hex_data m) j)) /\
    (forall i,
       (forall m, m ∈ msgs ->
          ~ (5 * Z.to_nat (TransferSegmentMsg.segment_num m) <= i
             < 5 * Z.to_nat (TransferSegmentMsg.segment_num m) + 5)%nat) ->
       hex_line_buf s' !! i = hex_line_buf s !! i).
Proof.
  intros Hwf Hc Hne Ht Hok.
  destruct msgs as [|m0 msgs0] eqn:Emsgs; [contradiction|].
  rewrite <- Emsgs in *.
  assert (E : deliver_segments msgs s
              = deliver_segments msgs (first_segment t s)).
  { rewrite Emsgs. unfold deliver_segments. rewrite !run_cons.
    destruct (Hok m0) as (Hl0 & Hm0 & _); [rewrite Emsgs; left|].
    rewrite (deliver_first_segment m0 s Hc Hl0) by lia.
    rewrite Hm0. reflexivity. }
  destruct (deliver_segments_of_line msgs t (first_segment t s))
    as (s' & Hr & Hc' & Hf & Hb1 & Hb2);
    [apply wf_first_segment; [lia | exact Hwf] | reflexivity | exact Ht
    | exact Hok |].
  exists s'. split; [rewrite E; exact Hr|]. split; [exact Hc'|].
  split; [|split; [exact Hb1 | exact Hb2]].
  rewrite are_all_segments_received_spec, Hc'.
  change (hex_line_segments_received (first_segment t s))
    with (replicate (Z.to_nat t) false) in Hf.
  split.
  - intros H k Hk.
    destruct (proj1 (Hf (Z.to_nat k)) (H (Z.to_nat k) ltac:(lia)))
      as [Hrep|(_ & m & Hm & Em)].
    + apply lookup_replicate in Hrep as [Hrep _]. discriminate.
    + exists m. split; [exact Hm|].
      destruct (Hok m Hm) as (_ & _ & Hkm). lia.
  - intros H i Hi. apply Hf. right.
    rewrite length_replicate. split; [exact Hi|].
    destruct (H (Z.of_nat i) ltac:(lia)) as (m & Hm & Em).
    exists m. split; [exact Hm|]. rewrite Em. lia.
Qed.

Lemma X17_witness :
  exists s',
    deliver_segments Teensy.eof_segments_shuffled
      (snd (Teensy.update 0 Teensy.armed)) = Some s' /\
    are_all_segments_received s' = true /\
    hex_line_buf s' !! 8%nat = Some 49.
Proof.
  destruct (X17_line_reassembly Teensy.eof_segments_shuffled 3
              (snd (Teensy.update 0 Teensy.armed)))
    as (s' & H1 & _ & H3 & H4 & _).
  - split; [reflexivity | left; reflexivity].
  - vm_compute. reflexivity.
  - vm_compute. discriminate.
  - vm_compute. split; discriminate.
  - intros m Hm.
    let l := eval vm_compute in Teensy.eof_segments_shuffled in
    change Teensy.eof_segments_shuffled with l in Hm.
    rewrite !elem_of_cons in Hm.
    destruct Hm as [->|[->|[->|[->|Hm]]]];
      [| | | |apply elem_of_nil in Hm; contradiction];
      vm_compute; repeat split; congruence.
  - exists s'. split; [exact H1|]. split.
    + apply H3. intros k Hk.
      let l := eval vm_compute in Teensy.eof_segments_shuffled in
      change Teensy.eof_segments_shuffled with l.
      assert (Hk3 : k = 0 \/ k = 1 \/ k = 2) by lia.
      destruct Hk3 as [-> | [-> | ->]];
        [exists (TransferSegmentMsg.mk true 0 0 3 [58; 48; 48; 48; 48])
        |exists (TransferSegmentMsg.mk true 0 1 3 [48; 48; 48; 49; 70])
        |exists (TransferSegmentMsg.mk true 0 2 3 [70; 255; 255; 255; 255])];
        (split; [|reflexivity]); rewrite !elem_of_cons; auto 6.
    + apply (H4 (TransferSegmentMsg.mk true 0 1 3 [48; 48; 48; 49; 70])
               3%nat).
      * let l := eval vm_compute in Teensy.eof_segments_shuffled in
        change Teensy.eof_segments_shuffled with l.
        rewrite !elem_of_cons. auto 6.
      * intros m' Hm'.
        let l := eval vm_compute in Teensy.eof_segments_shuffled in
        change Teensy.eof_segments_shuffled with l in Hm'.
        rewrite !elem_of_cons in Hm'.
        destruct Hm' as [->|[->|[->|[->|Hm']]]];
          [| | | |apply elem_of_nil in Hm'; contradiction];
          vm_compute; congruence.
      * lia.
Defined.

(** ** The end of a transfer *)

Lemma update_flags {platform : Platform} (hex_line0 : ParsedHexLine)
  (t_transfer t_segment : Z) (s : State) :
  let r := update hex_line0 t_transfer t_segment s in
  (transfer_in_progress (snd r) = transfer_in_progress s /\
   file_transfer_complete (snd r) = file_transfer_complete s /\
   fst r <> Some (ResponseCode.TRANSFER_COMPLETE, ErrorCode.NONE)) \/
  (transfer_in_progress (snd r) = false /\
   file_transfer_complete (snd r) = false /\
   fst r = Some (ResponseCode.ERROR, ErrorCode.NONE)) \/
  (transfer_in_progress (snd r) = false /\
   file_transfer_complete (snd r) = true /\
   fst r = Some (ResponseCode.TRANSFER_COMPLETE, ErrorCode.NONE)).
Proof.
  cbv zeta. unfold update.
  destruct (transfer_in_progress s) eqn:Hp; cbn [negb fst snd];
    [|left; repeat split; [exact Hp | discriminate]].
  destruct (has_transfer_timed_out t_transfer s);
    [right; left; repeat split|].
  destruct (has_segment_timed_out t_segment s);
    [left; repeat split; [exact Hp | discriminate]|].
  destruct (new_transfer_init_msg_received s).
  { left. split; [exact Hp|]. split; [reflexivity|].
    destruct (transfer_init_msg_error s); discriminate. }
  destruct (are_all_segments_received s).
  - left.
    rewrite (surjective_pairing (handle_received_hex_line hex_line0 s)).
    rewrite handle_received_hex_line_cases. cbv zeta. cbn [fst snd].
    destruct (process_hex_line_progress
                (parse_and_validate_hex_line hex_line0 (hex_line_buf s)) s)
      as (_ & _ & _ & _ & _ & H1 & H2).
    split; [|split; [|discriminate]].
    + destruct (negb (valid _)); [exact Hp|].
      destruct (negb (fst _)); [cbn; congruence|].
      rewrite add_hex_line_to_checksum_state. cbn. congruence.
    + destruct (negb (valid _)); [reflexivity|].
      destruct (negb (fst _)); [cbn; congruence|].
      rewrite add_hex_line_to_checksum_state. cbn. congruence.
  - destruct (eof_received s);
      [|left; repeat split; [exact Hp | discriminate]].
    destruct (negb (is_file_checksum_valid s));
      [right; left; repeat split | right; right; repeat split].
Qed.

Lemma check_and_copy_frame (msg : TransferSegmentMsg.t) (s s' : State)
  (ok : bool) :
  check_and_copy msg s = Some (ok, s') ->
  s' = set_hex_line_segments_received (hex_line_segments_received s')
         (set_hex_line_buf (hex_line_buf s') s).
Proof.
  unfold check_and_copy.
  destruct (_ >=? _); [intros [= <- <-]; destruct s; reflexivity|].
  destruct (copy_segment _ _ _); cbn [mbind option_bind]; [|discriminate].
  destruct (store _ _ _ _); cbn [mbind option_bind]; [|discriminate].
  intros [= <- <-]. destruct s; reflexivity.
Qed.

Lemma process_transfer_segment_msg_frame (msg : TransferSegmentMsg.t)
  (s s' : State) (ok : bool) :
  process_transfer_segment_msg msg s = Some (ok, s') ->
  s' = set_hex_line_segments_received (hex_line_segments_received s')
         (set_hex_line_buf (hex_line_buf s')
            (set_hex_line_segment_count (hex_line_segment_count s') s)).
Proof.
  unfold process_transfer_segment_msg.
  destruct (negb _); [intros [= <- <-]; destruct s; reflexivity|].
  destruct (_ =? -1).
  - intros H. apply check_and_copy_frame in H.
    remember (hex_line_segments_received s') as F.
    remember (hex_line_buf s') as B.
    rewrite H. destruct s; reflexivity.
  - destruct (negb _); [intros [= <- <-]; destruct s; reflexivity|].
    intros H. apply check_and_copy_frame in H.
    remember (hex_line_segments_received s') as F.
    remember (hex_line_buf s') as B.
    rewrite H. destruct s; reflexivity.
Qed.

Lemma handle_can_msg_flags (st : StackBytes) (millis : Z) (buf : list Z)
  (s s' : State) :
  handle_can_msg st millis buf s = Some s' ->
  (transfer_in_progress s' = transfer_in_progress s /\
   file_transfer_complete s' = file_transfer_complete s) \/
  (transfer_in_progress s' = true /\ file_transfer_complete s' = false).
Proof.
  unfold handle_can_msg.
  destruct (Z.land (byte_at buf 0) 1 =? 0).
  - pose proof (unpack_transfer_init_msg_state st buf s) as Hu.
    destruct (unpack_transfer_init_msg st buf s) as [msg s1]. cbn [snd] in Hu.
    unfold process_transfer_init_msg.
    destruct (TransferInitMsg.msg_type msg).
    + intros [= <-]. left. rewrite Hu. split; reflexivity.
    + destruct (negb _); intros [= <-].
      * left. rewrite Hu. split; reflexivity.
      * right. split; reflexivity.
  - destruct (transfer_in_progress s) eqn:Hp.
    + destruct (process_transfer_segment_msg _ s) as [[ok s2]|] eqn:Hs;
        cbn [mbind option_bind]; [|discriminate].
      apply process_transfer_segment_msg_frame in Hs.
      destruct ok; intros [= <-]; left; rewrite Hs; split; cbn; congruence.
    + intros [= <-]. left. split; [exact Hp | reflexivity].
Qed.

Lemma process_transfer_segment_msg_None (msg : TransferSegmentMsg.t)
  (s : State) :
  wf_State s ->
  0 <= TransferSegmentMsg.segment_num msg ->
  0 <= TransferSegmentMsg.total_segments msg ->
  process_transfer_segment_msg msg s = None <->
  TransferSegmentMsg.line_num msg = hex_line_num s /\
  (hex_line_segment_count s = -1 \/
   hex_line_segment_count s = TransferSegmentMsg.total_segments msg) /\
  MAX_CHUNKS_PER_HEX_LINE <= TransferSegmentMsg.segment_num msg
  < TransferSegmentMsg.total_segments msg.
Proof.
  intros Hwf Hk0 Ht0. rewrite process_transfer_segment_msg_alt.
  set (k := TransferSegmentMsg.segment_num msg) in *.
  set (t := TransferSegmentMsg.total_segments msg) in *.
  destruct (Z.eqb_spec (TransferSegmentMsg.line_num msg) (hex_line_num s))
    as [Hl|Hl]; cbn [negb]; [|split; [discriminate | tauto]].
  destruct (admitted t s) eqn:Ha.
  - assert (Hc : hex_line_segment_count s = -1 \/ hex_line_segment_count s = t).
    { unfold admitted in Ha.
      destruct (Z.eqb_spec (hex_line_segment_count s) (-1)); [now left|].
      destruct (Z.eqb_spec t (hex_line_segment_count s)); [now right|].
      discriminate. }
    assert (Ho : hex_line_segment_count (opened t s) = t /\
                 Z.of_nat (length (hex_line_segments_received (opened t s)))
                 = t).
    { unfold opened.
      destruct (Z.eqb_spec (hex_line_segment_count s) (-1)) as [E|E].
      - cbn. rewrite length_replicate. lia.
      - destruct Hc as [Hc|Hc]; [contradiction|].
        destruct Hwf as [_ [Hw|[_ Hw]]]; [contradiction|]. lia. }
    destruct Ho as [Ho1 Ho2].
    rewrite check_and_copy_spec. fold k. cbv zeta. rewrite Ho1, Ho2.
    unfold MAX_CHUNKS_PER_HEX_LINE.
    destruct (Z.geb_spec k t) as [Hge|Hlt].
    + split; [discriminate|]. intros (_ & _ & Hov). lia.
    + case_decide as Hd.
      * split; [discriminate|]. intros (_ & _ & Hov). lia.
      * split; [|reflexivity]. intros _.
        split; [exact Hl|]. split; [exact Hc|]. lia.
  - split; [discriminate|]. intros (_ & Hc & _).
    unfold admitted in Ha.
    destruct Hc as [Hc|Hc]; rewrite Hc in Ha.
    + discriminate.
    + rewrite Z.eqb_refl, orb_true_r in Ha. discriminate.
Qed.

Lemma handle_segment_frame_None (st : StackBytes) (millis : Z)
  (buf : list Z) (s : State) :
  wf_State s ->
  Z.land (byte_at buf 0) 1 <> 0 ->
  handle_can_msg st millis buf s = None <->
  segment_overruns (unpack_transfer_segment_msg buf) s.
Proof.
  intros Hwf Hb. rewrite handle_segment_frame by exact Hb.
  destruct (unpack_transfer_segment_msg_range buf) as [Hk0 Ht0].
  cbv zeta in Hk0, Ht0.
  pose proof (process_transfer_segment_msg_None
                (unpack_transfer_segment_msg buf) s Hwf Hk0 Ht0) as Hn.
  unfold segment_overruns.
  destruct (transfer_in_progress s).
  - destruct (process_transfer_segment_msg _ s) as [[ok s1]|].
    + cbn [mbind option_bind].
      split; [destruct ok; discriminate|].
      intros [_ H]. apply Hn in H. discriminate.
    + cbn [mbind option_bind]. split; [|reflexivity].
      intros _. split; [reflexivity|]. apply Hn. reflexivity.
  - split; [discriminate|]. intros [H _]. discriminate.
Qed.

(** X18: a segment frame either makes the handler store past the line
    buffer, where the behaviour of the code is undefined (this happens
    exactly for the frames that pass all checks with a segment number of
    9 or more), or it changes at most the segment count, the received
    flags, the line buffer and the time stamp.  In the second case, which
    covers every frame with a segment number below 9, it does not start,
    end or abort a transfer and does not touch the line number, the
    checksums, the end-of-file flag, the address bounds or the staging
    region; while no transfer is in progress it changes the time stamp
    only. *)
Theorem X18_segment_frame_footprint (st : StackBytes) (millis : Z)
  (buf : list Z) (s : State) :
  wf_State s ->
  Z.land (byte_at buf 0) 1 <> 0 ->
  let msg := unpack_transfer_segment_msg buf in
  (handle_can_msg st millis buf s = None <-> segment_overruns msg s) /\
  (TransferSegmentMsg.segment_num msg < MAX_CHUNKS_PER_HEX_LINE ->
   ~ segment_overruns msg s) /\
  (~ segment_overruns msg s ->
   exists s',
     handle_can_msg st millis buf s = Some s' /\
     s' = set_last_successful_can_msg_ts (last_successful_can_msg_ts s')
            (set_hex_line_segments_received (hex_line_segments_received s')
               (set_hex_line_buf (hex_line_buf s')
                  (set_hex_line_segment_count (hex_line_segment_count s')
                     s))) /\
     (last_successful_can_msg_ts s' = last_successful_can_msg_ts s \/
      last_successful_can_msg_ts s' = u32 millis) /\
     (transfer_in_progress s = false ->
      s' = set_last_successful_can_msg_ts (u32 millis) s)).
Proof.
  intros Hwf Hb msg.
  pose proof (handle_segment_frame_None st millis buf s Hwf Hb) as Hnone.
  fold msg in Hnone.
  split; [exact Hnone|]. split.
  { intros Hk (_ & _ & _ & H). lia. }
  intros Hno.
  destruct (handle_can_msg st millis buf s) as [s'|] eqn:E;
    [|exfalso; apply Hno, Hnone; reflexivity].
  exists s'. split; [reflexivity|].
  revert E. rewrite handle_segment_frame by exact Hb.
  destruct (transfer_in_progress s).
  - destruct (process_transfer_segment_msg _ s) as [[ok s2]|] eqn:Hs;
      cbn [mbind option_bind]; [|discriminate].
    apply process_transfer_segment_msg_frame in Hs.
    remember (hex_line_segments_received s2) as F.
    remember (hex_line_buf s2) as B.
    remember (hex_line_segment_count s2) as c.
    destruct ok; intros [= <-]; rewrite Hs;
      (split; [destruct s; reflexivity|]);
      (split; [|discriminate]); [right | left]; reflexivity.
  - intros [= <-].
    split; [destruct s; reflexivity|]. split; [right; reflexivity | auto].
Qed.

Section Completion.

Context {platform : Platform}.

(** X19: the branch of [update] that ends a transfer.  With a transfer in
    progress, no time-out, no init message pending, the end-of-file record
    accepted and some segment of a started line missing, [update] answers
    [TRANSFER_COMPLETE] when the computed file checksum equals the one of
    the init message: the transfer is no longer in progress, it is marked
    complete, and the following [update] is silent.  When the checksums
    differ it answers [ERROR] and clears the transfer state. *)
Theorem X19_completion_branch (hex_line0 : ParsedHexLine)
  (t_transfer t_segment : Z) (s : State) :
  transfer_in_progress s = true ->
  has_transfer_timed_out t_transfer s = false ->
  has_segment_timed_out t_segment s = false ->
  new_transfer_init_msg_received s = false ->
  are_all_segments_received s = false ->
  eof_received s = true ->
  let done := set_file_transfer_complete true
                (set_transfer_in_progress false s) in
  (computed_file_checksum s = received_file_checksum s ->
   update hex_line0 t_transfer t_segment s
   = (Some (ResponseCode.TRANSFER_COMPLETE, ErrorCode.NONE), done) /\
   is_transfer_in_progress done = false /\
   is_file_transfer_complete done = true /\
   forall h t1 t2, update h t1 t2 done = (None, done)) /\
  (computed_file_checksum s <> received_file_checksum s ->
   update hex_line0 t_transfer t_segment s
   = (Some (ResponseCode.ERROR, ErrorCode.NONE), clear_transfer_state s)).
Proof.
  intros Hp Ht Hs Hn Ha He done. unfold update at 1 3.
  rewrite Hp, Ht, Hs, Hn, Ha, He. cbn [negb].
  unfold is_file_checksum_valid. split.
  - intros ->. rewrite Z.eqb_refl. cbn [negb].
    split; [reflexivity|]. split; [reflexivity|]. split; [reflexivity|].
    intros h t1 t2. apply update_when_idle. reflexivity.
  - intros Hne.
    destruct (Z.eqb_spec (computed_file_checksum s)
                (received_file_checksum s)); [contradiction|].
    reflexivity.
Qed.

(** X20: as long as no segment frame makes the handler store past the
    line buffer (so for all init frames and all segment frames with a
    segment number below 9), a transfer is never both in progress and
    complete.  The property holds after [init], and [handle_can_msg] and
    [update] keep it together with the sizes of the arrays; [update] sets
    the complete flag only together with the answer [TRANSFER_COMPLETE],
    and [handle_can_msg] never sets it.  So [FirmwareUpdater::update]
    prints either that a transfer is in progress, or that none is,
    followed or not by the line that the file transfer is complete. *)
Theorem X20_in_progress_excludes_complete (s0 s : State) :
  wf_State s ->
  (transfer_in_progress s = true -> file_transfer_complete s = false) ->
  (wf_State (init s0) /\
   transfer_in_progress (init s0) = false /\
   file_transfer_complete (init s0) = false) /\
  (forall st millis buf,
     Z.land (byte_at buf 0) 1 = 0 \/
     ~ segment_overruns (unpack_transfer_segment_msg buf) s ->
     exists s',
       handle_can_msg st millis buf s = Some s' /\
       wf_State s' /\
       (transfer_in_progress s' = true ->
        file_transfer_complete s' = false) /\
       (file_transfer_complete s' = true ->
        file_transfer_complete s = true)) /\
  (forall hex_line0 t_transfer t_segment,
     let r := update hex_line0 t_transfer t_segment s in
     wf_State (snd r) /\
     (transfer_in_progress (snd r) = true ->
      file_transfer_complete (snd r) = false) /\
     (file_transfer_complete (snd r) = true ->
      file_transfer_complete s = true \/
      fst r = Some (ResponseCode.TRANSFER_COMPLETE, ErrorCode.NONE))) /\
  (FirmwareUpdater.update s = [FirmwareUpdater.in_progress] \/
   FirmwareUpdater.update s = [FirmwareUpdater.no_transfer] \/
   FirmwareUpdater.update s
   = [FirmwareUpdater.no_transfer; FirmwareUpdater.complete]).
Proof.
  intros Hwf Hinv.
  split; [split; [apply wf_clear_transfer_state | split; reflexivity]|].
  split; [|split].
  - intros st millis buf Hok.
    assert (Hdef : handle_can_msg st millis buf s <> None).
    { destruct (Z.eq_dec (Z.land (byte_at buf 0) 1) 0) as [E|E].
      - unfold handle_can_msg. apply Z.eqb_eq in E. rewrite E.
        destruct (unpack_transfer_init_msg st buf s) as [msg s1].
        destruct (process_transfer_init_msg msg s1) as [[|] s2];
          discriminate.
      - destruct Hok as [Hok|Hok]; [contradiction|].
        intros Hn. apply Hok.
        apply (handle_segment_frame_None st millis buf s Hwf E). exact Hn. }
    destruct (handle_can_msg st millis buf s) as [s'|] eqn:H;
      [|contradiction].
    exists s'. split; [reflexivity|].
    split; [exact (wf_handle_can_msg st millis buf s s' Hwf H)|].
    destruct (handle_can_msg_flags st millis buf s s' H)
      as [[H1 H2]|[H1 H2]].
    + rewrite H1, H2. auto.
    + rewrite H2. split; [reflexivity | discriminate].
  - intros hex_line0 t_transfer t_segment r.
    split; [apply wf_update; exact Hwf|].
    destruct (update_flags hex_line0 t_transfer t_segment s)
      as [(H1 & H2 & _)|[(H1 & H2 & _)|(H1 & H2 & H3)]];
      fold r in H1, H2; rewrite H1, H2.
    + auto.
    + split; [reflexivity | discriminate].
    + split; [discriminate|]. intros _. right. exact H3.
  - unfold FirmwareUpdater.update, is_transfer_in_progress,
      is_file_transfer_complete.
    destruct (transfer_in_progress s).
    + rewrite Hinv by reflexivity. left. reflexivity.
    + destruct (file_transfer_complete s); [right; right | right; left];
        reflexivity.
Qed.

End Completion.

Lemma X18_witness :
  exists s',
    handle_can_msg Teensy.zero_stack 7
      (Teensy.segment_frame 0 1 3 [48; 48; 48; 49; 70]) Teensy.armed
    = Some s' /\
    (last_successful_can_msg_ts s'
     = last_successful_can_msg_ts Teensy.armed \/
     last_successful_can_msg_ts s' = u32 7).
Proof.
  destruct (X18_segment_frame_footprint Teensy.zero_stack 7
              (Teensy.segment_frame 0 1 3 [48; 48; 48; 49; 70])
              Teensy.armed) as (_ & Hlow & H).
  - split; [reflexivity | left; reflexivity].
  - vm_compute. discriminate.
  - destruct H as (s' & H1 & _ & H3 & _).
    + apply Hlow. vm_compute. reflexivity.
    + exists s'. split; [exact H1 | exact H3].
Defined.

Lemma X19_witness :
  let s :=
    default Teensy.line_consumed
      (handle_can_msg Teensy.zero_stack 0
         (Teensy.segment_frame 1 0 2 [58; 48; 48; 48; 48])
         Teensy.line_consumed) in
  Teensy.update 0 s
  = (Some (ResponseCode.TRANSFER_COMPLETE, ErrorCode.NONE),
     set_file_transfer_complete true (set_transfer_in_progress false s)).
Proof.
  intros s.
  destruct (@X19_completion_branch Teensy.teensy35 Teensy.stale_line 0 0 s)
    as [H _];
    [vm_compute; reflexivity | vm_compute; reflexivity
    |vm_compute; reflexivity | vm_compute; reflexivity
    |vm_compute; reflexivity | vm_compute; reflexivity |].
  destruct H as [H _]; [vm_compute; reflexivity|].
  exact H.
Defined.

Lemma X20_witness :
  exists s',
    handle_can_msg Teensy.zero_stack 7
      (Teensy.segment_frame 0 1 3 [48; 48; 48; 49; 70]) Teensy.armed
    = Some s' /\
    (transfer_in_progress s' = true -> file_transfer_complete s' = false) /\
    (FirmwareUpdater.update Teensy.armed = [FirmwareUpdater.in_progress] \/
     FirmwareUpdater.update Teensy.armed = [FirmwareUpdater.no_transfer] \/
     FirmwareUpdater.update Teensy.armed
     = [FirmwareUpdater.no_transfer; FirmwareUpdater.complete]).
Proof.
  assert (Hwf : wf_State Teensy.armed)
    by (split; [reflexivity | left; reflexivity]).
  assert (H : transfer_in_progress Teensy.armed = true ->
              file_transfer_complete Teensy.armed = false)
    by (intros _; vm_compute; reflexivity).
  destruct (@X20_in_progress_excludes_complete Teensy.teensy35
              Teensy.idle Teensy.armed Hwf H) as (_ & H2 & _ & H4).
  destruct (H2 Teensy.zero_stack 7
              (Teensy.segment_frame 0 1 3 [48; 48; 48; 49; 70]))
    as (s' & E & _ & Hinv & _).
  - right. intros (_ & _ & _ & Hk). vm_compute in Hk.
    destruct Hk as [Hk _]. apply Hk. reflexivity.
  - exists s'. split; [exact E|]. split; [exact Hinv | exact H4].
Defined.

(** ** The CAN identifier *)

Lemma id_split (d c : Z) :
  0 <= d < 256 -> 0 <= c < 256 ->
  u16 (d + Z.shiftl c 8) = d + c * 256 /\
  u8 (Z.land (d + c * 256) 0xFF) = d /\
  (d + c * 256) / 256 = c.
Proof.
  intros Hd Hc. rewrite Z.shiftl_mul_pow2 by lia. change (2 ^ 8) with 256.
  split; [unfold u16; apply Z.mod_small; change (2 ^ 16) with 65536; lia|].
  change 0xFF with (Z.ones 8). rewrite Z.land_ones by lia.
  change (2 ^ 8) with 256. unfold u8. change (2 ^ 8) with 256.
  split; Z.div_mod_to_equations; lia.
Qed.

(** X21: [CAN::write] puts the device number into the low byte of the
    frame identifier and the command number into the byte above, and
    [CAN::handleInbox] reads the device number back from the low byte: a
    frame written for device [d] with command [c] and at most 8 payload
    bytes is handed to [HexTransfer::handle_can_msg] exactly when [d] is
    0, whatever the command; for any other device the receiver prints [d]
    and leaves the transfer state alone.  The payload is the first bytes
    of the frame, the rest of the 8 bytes is zero. *)
Theorem X21_identifier_round_trip (d c n : Z) (buffer : list Z)
  (st : StackBytes) (millis : Z) (s : State) :
  0 <= d < 256 -> 0 <= c < 256 -> 0 <= n <= 8 ->
  n <= Z.of_nat (length buffer) ->
  exists txmsg,
    CAN.write d c n buffer = Some txmsg /\
    CAN.id txmsg = d + c * 256 /\
    CAN.deviceID txmsg = d /\
    CAN.id txmsg / 256 = c /\
    length (CAN.buf txmsg) = 8%nat /\
    take (Z.to_nat n) (CAN.buf txmsg) = take (Z.to_nat n) (map u8 buffer) /\
    CAN.handleInbox [(st, millis, txmsg)] s
    = if d =? 0
      then s' ← handle_can_msg st millis (CAN.buf txmsg) s; Some (s', [])
      else Some (s, [d]).
Proof.
  intros Hd Hc Hn Hl.
  destruct (id_split d c Hd Hc) as (E1 & E2 & E3).
  assert (Eu : forall x, 0 <= x < 256 -> u8 x = x)
    by (intros x Hx; unfold u8; apply Z.mod_small; change (2 ^ 8) with 256; lia).
  unfold CAN.write. rewrite (Eu d), (Eu c), (Eu n), E1 by lia.
  destruct (Z.leb_spec n 8); [|lia].
  destruct (Z.leb_spec n (Z.of_nat (length buffer))); [|lia].
  cbn [andb]. eexists. split; [reflexivity|].
  cbn [CAN.id CAN.buf].
  split; [reflexivity|]. split; [exact E2|]. split; [exact E3|].
  assert (Ht : length (take (Z.to_nat n) (map u8 buffer)) = Z.to_nat n).
  { rewrite length_take, length_map. lia. }
  split; [rewrite length_app, Ht, length_replicate; lia|].
  split.
  { rewrite take_app_le by lia. rewrite take_take. f_equal. lia. }
  unfold CAN.handleInbox, run_steps. cbn [foldl mbind option_bind].
  unfold CAN.handle_frame. unfold CAN.deviceID at 1. cbn [CAN.id].
  rewrite E2. destruct (d =? 0); [reflexivity|].
  unfold CAN.deviceID. cbn [CAN.id]. rewrite E2. reflexivity.
Qed.

Lemma X21_witness :
  exists txmsg,
    CAN.write 0 5 8 Teensy.accepted_init = Some txmsg /\
    CAN.handleInbox [(Teensy.zero_stack, 0, txmsg)] Teensy.idle
    = Some (Teensy.armed, []).
Proof.
  destruct (X21_identifier_round_trip 0 5 8 Teensy.accepted_init
              Teensy.zero_stack 0 Teensy.idle)
    as (txmsg & H1 & _ & _ & _ & _ & _ & H7);
    [lia | lia | lia | vm_compute; discriminate |].
  exists txmsg. split; [exact H1|]. rewrite H7.
  assert (E : txmsg = default txmsg (CAN.write 0 5 8 Teensy.accepted_init))
    by (rewrite H1; reflexivity).
  rewrite E. vm_compute. reflexivity.
Defined.

(** ** The earlier class *)

Lemma unpack_transfer_segment_msg_bounds (buf : list Z) :
  let m := unpack_transfer_segment_msg buf in
  0 <= TransferSegmentMsg.line_num m < 2 ^ 15 /\
  0 <= TransferSegmentMsg.segment_num m < 16 /\
  0 <= TransferSegmentMsg.total_segments m < 16.
Proof.
  unfold unpack_transfer_segment_msg. cbv zeta.
  cbn [TransferSegmentMsg.line_num TransferSegmentMsg.segment_num
         TransferSegmentMsg.total_segments].
  change 0x0F with (Z.ones 4). change 0x7FFF with (Z.ones 15).
  rewrite (shiftr_land_ones _ 1 15), (shiftr_land_ones _ 16 4),
    (shiftr_land_ones _ 20 4) by lia.
  change (2 ^ 4) with 16.
  split; [|split]; apply Z.mod_pos_bound; reflexivity.
Qed.

(** X22: the earlier class [HexTransfer] cannot receive a line.  Its
    constructor sets the current line number to -1 in [size_t], which no
    15-bit line number equals, and nothing changes it: from the
    constructed object every frame is rejected and the object stays as it
    is.  And in any state, once a chunk has been accepted every further
    frame is rejected without effect, because a later chunk must have a
    chunk number equal to the chunk count and below it. *)
Theorem X22_legacy_receiver_rejects (frames : list (list Z)) (b : bool) :
  run_steps Legacy.process_can_msg frames (Legacy.HexTransfer b)
  = Some (Legacy.HexTransfer b) /\
  forall buf s s',
    Legacy.process_transfer_chunk_msg
      (Legacy.unpack_transfer_chunk_msg buf) s = Some (true, s') ->
    forall buf',
      Legacy.process_transfer_chunk_msg
        (Legacy.unpack_transfer_chunk_msg buf') s' = Some (false, s').
Proof.
  split.
  - induction frames as [|buf frames IH]; [reflexivity|].
    rewrite run_cons.
    assert (E : Legacy.process_can_msg buf (Legacy.HexTransfer b)
                = Some (Legacy.HexTransfer b)).
    { unfold Legacy.process_can_msg, Legacy.process_transfer_chunk_msg,
        Legacy.unpack_transfer_chunk_msg.
      destruct (unpack_transfer_segment_msg_bounds buf) as (Hl & _).
      cbv zeta in Hl. cbn [Legacy.cur_hex_line_num Legacy.HexTransfer].
      destruct (Z.eqb_spec
                  (TransferSegmentMsg.line_num
                     (unpack_transfer_segment_msg buf)) (u32 (-1)))
        as [E|E]; [|reflexivity].
      exfalso. rewrite E in Hl. vm_compute in Hl. destruct Hl as [_ Hl].
      discriminate. }
    rewrite E. exact IH.
  - intros buf s s' H buf'.
    unfold Legacy.unpack_transfer_chunk_msg in *.
    destruct (unpack_transfer_segment_msg_bounds buf) as (_ & _ & Ht).
    cbv zeta in Ht.
    set (msg := unpack_transfer_segment_msg buf) in *.
    set (msg' := unpack_transfer_segment_msg buf') in *.
    assert (Hc : Legacy.cur_hex_line_chunk_count s' <> u32 (-1)).
    { revert H. unfold Legacy.process_transfer_chunk_msg.
      destruct (negb _); [discriminate|].
      destruct (Z.eqb_spec (Legacy.cur_hex_line_chunk_count s) (u32 (-1)))
        as [E|E].
      - cbn [Legacy.cur_hex_line_chunk_count Legacy.cur_hex_line_data
               Legacy.chunks_received Legacy.cur_hex_line_num].
        destruct (_ >=? _); [discriminate|].
        destruct (copy_segment _ _ _); cbn [mbind option_bind];
          [|discriminate].
        destruct (store _ _ _ _); cbn [mbind option_bind]; [|discriminate].
        destruct (Legacy.scan_chunks _ _ _); cbn [mbind option_bind];
          [|discriminate].
        intros [= <-]. cbn [Legacy.cur_hex_line_chunk_count].
        intros E'.
        change (TransferSegmentMsg.total_segments msg = u32 (-1)) in E'.
        rewrite E' in Ht. vm_compute in Ht.
        destruct Ht as [_ Ht]. discriminate.
      - destruct (Z.eqb_spec (TransferSegmentMsg.segment_num msg)
                    (Legacy.cur_hex_line_chunk_count s)) as [E'|E'];
          cbn [negb]; [|discriminate].
        destruct (Z.geb_spec (TransferSegmentMsg.segment_num msg)
                    (Legacy.cur_hex_line_chunk_count s)); [discriminate|].
        lia. }
    unfold Legacy.process_transfer_chunk_msg.
    destruct (negb _); [reflexivity|].
    destruct (Z.eqb_spec (Legacy.cur_hex_line_chunk_count s') (u32 (-1)));
      [contradiction|].
    destruct (Z.eqb_spec (TransferSegmentMsg.segment_num msg')
                (Legacy.cur_hex_line_chunk_count s')) as [E'|E'];
      cbn [negb]; [|reflexivity].
    destruct (Z.geb_spec (TransferSegmentMsg.segment_num msg')
                (Legacy.cur_hex_line_chunk_count s')); [reflexivity | lia].
Qed.

(** ** The bound check and 32-bit wrap-around *)

Section WrapAround.

Context {platform : Platform}.

(** X23: the bound check of a data record looks at the end address after
    32-bit wrap-around and there is no check of the start address.  A data
    record whose range starts below 2^32 and ends at or above it (possible
    after an extended linear address record with a high upper word) has a
    small wrapped end address; when that and the old [max_address] are
    within the bound, a build without [DRYRUN] stages the record, at the
    wrapped address [flash_buffer_addr + base_address + address -
    FLASH_BASE_ADDR].  With [FLASH_BASE_ADDR] 0 that address lies below
    the staging buffer. *)
Theorem X23_wrapped_record_is_staged (hex_line : ParsedHexLine) (s : State) :
  record_type hex_line = 0 ->
  DRYRUN = false ->
  let lo := base_address s + address hex_line in
  let bound := u32 (FLASH_BASE_ADDR + flash_buffer_size s) in
  let addr := u32 (flash_buffer_addr s + lo - FLASH_BASE_ADDR) in
  0 <= lo < 2 ^ 32 ->
  2 ^ 32 <= lo + byte_count hex_line < 2 ^ 33 ->
  max_address s <= bound ->
  lo + byte_count hex_line - 2 ^ 32 <= bound ->
  let s' := snd (process_hex_line hex_line s) in
  staging_writes s'
  = staging_writes s
    ++ [if IN_FLASH (flash_buffer_addr s)
        then FlashWrite addr (data_bytes hex_line)
        else RamCopy addr (data_bytes hex_line)] /\
  fst (process_hex_line hex_line s)
  = negb (IN_FLASH (flash_buffer_addr s))
    || (flash_write_block (staging_writes s) addr (data_bytes hex_line)
          (byte_count hex_line) =? 0) /\
  min_address s' = Z.min (min_address s) lo /\
  (FLASH_BASE_ADDR = 0 ->
   2 ^ 32 - lo <= flash_buffer_addr s < 2 ^ 32 ->
   addr = flash_buffer_addr s - (2 ^ 32 - lo) /\ addr < flash_buffer_addr s).
Proof.
  intros Hr Hd lo bound addr Hlo Hhi Hmax Hend s'. subst s'.
  unfold process_hex_line. rewrite Hr.
  unfold process_hex_data_record. rewrite Hr, Hd. cbn [Z.eqb negb].
  destruct (update_min_max_spec hex_line s) as (Hm & Hn & Hs1).
  set (s1 := update_min_max hex_line s) in *.
  assert (Hsz : flash_buffer_size s1 = flash_buffer_size s)
    by (rewrite Hs1; reflexivity).
  assert (Hfa : flash_buffer_addr s1 = flash_buffer_addr s)
    by (rewrite Hs1; reflexivity).
  assert (Hba : base_address s1 = base_address s)
    by (rewrite Hs1; reflexivity).
  assert (Hsw : staging_writes s1 = staging_writes s)
    by (rewrite Hs1; reflexivity).
  assert (Hwrap : u32 (base_address s + address hex_line
                       + byte_count hex_line)
                  = lo + byte_count hex_line - 2 ^ 32).
  { unfold u32. subst lo. symmetry.
    apply (Z.mod_unique _ _ 1); lia. }
  assert (Hlo' : u32 (base_address s + address hex_line) = lo)
    by (unfold u32; apply Z.mod_small; exact Hlo).
  rewrite Hwrap in Hm. rewrite Hlo' in Hn.
  rewrite Hsz, Hfa, Hba, Hsw. fold bound.
  destruct (Z.gtb_spec (max_address s1) bound); [lia|].
  replace (flash_buffer_addr s + base_address s + address hex_line
           - FLASH_BASE_ADDR)
    with (flash_buffer_addr s + lo - FLASH_BASE_ADDR) by (subst lo; lia).
  fold addr.
  assert (Haddr : FLASH_BASE_ADDR = 0 ->
                  2 ^ 32 - lo <= flash_buffer_addr s < 2 ^ 32 ->
                  addr = flash_buffer_addr s - (2 ^ 32 - lo) /\
                  addr < flash_buffer_addr s).
  { intros H0 Hb. subst addr. rewrite H0.
    assert (E : u32 (flash_buffer_addr s + lo - 0)
                = flash_buffer_addr s - (2 ^ 32 - lo)).
    { unfold u32. symmetry. apply (Z.mod_unique _ _ 1); lia. }
    rewrite E. lia. }
  destruct (IN_FLASH (flash_buffer_addr s)); cbn [negb orb].
  - destruct (_ =? 0); cbn [negb fst snd staging_writes set_staging_writes];
      (split; [reflexivity|]); (split; [reflexivity|]);
      (split; [exact Hn | exact Haddr]).
  - cbn [fst snd staging_writes set_staging_writes].
    split; [reflexivity|]. split; [reflexivity|].
    split; [exact Hn | exact Haddr].
Qed.

End WrapAround.

Lemma X23_witness :
  let s := set_base_address 0xFFFF0000 (init (boot 0x20000000 0x40000)) in
  let hex_line := mkLine 16 0xFFF8 0 (replicate 16 0x41) 0 true in
  staging_writes (snd (@process_hex_line Teensy.flashing hex_line s))
  = [RamCopy 0x1FFFFFF8 (data_bytes hex_line)].
Proof.
  intros s hex_line.
  destruct (@X23_wrapped_record_is_staged Teensy.flashing hex_line s)
    as (H & _);
    [reflexivity | reflexivity
    | vm_compute; split; [discriminate | reflexivity]
    | vm_compute; split; [discriminate | reflexivity]
    | vm_compute; discriminate
    | vm_compute; discriminate |].
  rewrite H. vm_compute. reflexivity.
Defined.

(** ** Conversions that assign nothing, and the answer to a line *)

Section StaleFields.

Context {platform : Platform}.

Lemma scan_field_byte_count (width ptr : nat) (buf : list Z)
  (assign : Z -> ParsedHexLine -> ParsedHexLine)
  (hex_line hex_line' : ParsedHexLine) :
  (forall v h, byte_count (assign v h) = byte_count h) ->
  scan_field width ptr buf assign hex_line = Some hex_line' ->
  byte_count hex_line' = byte_count hex_line.
Proof.
  intros Ha H. apply scan_field_result in H as [->|[v ->]];
    [reflexivity | apply Ha].
Qed.

(** X24: when the conversion of the byte count ends in an input failure
    ([sscanf] returns [EOF], which the test [!sscanf(...)] lets pass), the
    parser goes on with the byte count that the uninitialised local
    variable happened to hold: the result carries that value, and whether
    the line is valid depends on it. *)
Theorem X24_byte_count_from_uninitialised_local (hex_line0 : ParsedHexLine)
  (buf : list Z) :
  sscanf_x 2 (drop 1 buf) = InputFailure ->
  let r := parse_and_validate_hex_line hex_line0 buf in
  byte_count r = byte_count hex_line0 /\
  (valid r = true ->
   byte_count hex_line0 <= 16 /\
   Z.of_nat (line_length buf) = 11 + 2 * byte_count hex_line0).
Proof.
  intros Hs. cbv zeta. unfold parse_and_validate_hex_line.
  destruct (Z.ltb_spec (Z.of_nat (line_length buf)) 11) as [Hl|Hl];
    [split; [reflexivity | cbn; intros Hv; discriminate Hv]|].
  destruct (Z.eqb_spec (at_index buf 0) 58) as [Hc|Hc]; cbn [negb];
    [|split; [reflexivity | cbn; intros Hv; discriminate Hv]].
  assert (E1 : scan_field 2 1 buf set_byte_count (set_valid true hex_line0)
               = Some (set_valid true hex_line0))
    by (unfold scan_field; rewrite Hs; reflexivity).
  rewrite E1. clear E1.
  set (h0 := set_valid true hex_line0).
  change (byte_count hex_line0) with (byte_count h0).
  destruct (Z.gtb_spec (byte_count h0) 16) as [Hb|Hb];
    [split; [reflexivity | cbn; intros Hv; discriminate Hv]|].
  destruct (Z.eqb_spec (Z.of_nat (line_length buf)) (11 + byte_count h0 * 2))
    as [Hn|Hn]; cbn [negb]; [|split; [reflexivity | cbn; intros Hv; discriminate Hv]].
  assert (Hgoal : forall r : ParsedHexLine,
            byte_count r = byte_count h0 ->
            byte_count r = byte_count h0 /\
            (valid r = true ->
             byte_count h0 <= 16 /\
             Z.of_nat (line_length buf) = 11 + 2 * byte_count h0))
    by (intros r Hr; split; [exact Hr | intros _; lia]).
  destruct (scan_field 4 3 buf set_address h0) as [h2|] eqn:E2;
    [|apply Hgoal; reflexivity].
  assert (B2 : byte_count h2 = byte_count h0)
    by (apply (scan_field_byte_count 4 3 buf set_address h0 h2
                 (fun _ _ => eq_refl) E2)).
  destruct (scan_field 2 7 buf set_record_type h2) as [h3|] eqn:E3;
    [|apply Hgoal; exact B2].
  assert (B3 : byte_count h3 = byte_count h0).
  { rewrite <- B2.
    apply (scan_field_byte_count 2 7 buf set_record_type h2 h3
             (fun _ _ => eq_refl) E3). }
  destruct (record_type h3 >? 5); [apply Hgoal; exact B3|].
  pose proof (scan_data_fields (Z.to_nat (byte_count h3)) 0 9 buf h3) as Hd.
  cbv zeta in Hd.
  destruct (scan_data (Z.to_nat (byte_count h3)) 0 9 buf h3) as [ok h4].
  cbn [snd] in Hd. destruct Hd as (B4 & _).
  assert (B4' : byte_count h4 = byte_count h0) by congruence.
  destruct ok; cbn [negb]; [|apply Hgoal; exact B4'].
  destruct (scan_field 2 _ buf set_checksum h4) as [h5|] eqn:E5;
    [|apply Hgoal; exact B4'].
  apply Hgoal.
  rewrite (scan_field_byte_count _ _ buf set_checksum h4 h5
             (fun _ _ => eq_refl) E5).
  exact B4'.
Qed.

(** X25: an [update] that handles a completed line answers [SEND_LINE]
    whether the line was accepted or not, and in both cases leaves the
    line buffer reset: segment count -1, no flags, all bytes [PAD].  The
    answer does not tell the sender which of the two happened; only
    [hex_line_num] differs. *)
Theorem X25_answer_to_a_completed_line (hex_line0 : ParsedHexLine)
  (t_transfer t_segment : Z) (s : State) :
  transfer_in_progress s = true ->
  has_transfer_timed_out t_transfer s = false ->
  has_segment_timed_out t_segment s = false ->
  new_transfer_init_msg_received s = false ->
  are_all_segments_received s = true ->
  let r := update hex_line0 t_transfer t_segment s in
  fst r = Some (ResponseCode.SEND_LINE, ErrorCode.NONE) /\
  hex_line_segment_count (snd r) = -1 /\
  hex_line_segments_received (snd r) = [] /\
  hex_line_buf (snd r) = replicate (Z.to_nat MAX_HEX_LINE_SIZE) PAD /\
  transfer_in_progress (snd r) = true /\
  (hex_line_num (snd r) = hex_line_num s \/
   hex_line_num (snd r) = u32 (hex_line_num s + 1)).
Proof.
  intros Hp Ht Hs Hn Ha r. subst r.
  rewrite update_reaches_line_check by assumption.
  rewrite handle_received_hex_line_cases. cbv zeta. cbn [fst snd].
  split; [reflexivity|].
  destruct (process_hex_line_progress
              (parse_and_validate_hex_line hex_line0 (hex_line_buf s)) s)
    as (H1 & _ & _ & _ & _ & H2 & _).
  destruct (negb (valid _)).
  { do 3 (split; [reflexivity|]). split; [exact Hp | left; reflexivity]. }
  destruct (negb (fst _)).
  { do 3 (split; [reflexivity|]).
    split; [cbn; congruence | left; cbn; congruence]. }
  do 3 (split; [reflexivity|]).
  rewrite add_hex_line_to_checksum_state. cbn.
  split; [congruence | right; congruence].
Qed.

End StaleFields.

Lemma X24_witness :
  let buf := [58; 0; 48; 48; 48; 48; 48; 48; 49; 70; 70]
             ++ replicate 34 PAD in
  valid (@parse_and_validate_hex_line Teensy.teensy35 Teensy.stale_line buf)
  = true /\
  valid (@parse_and_validate_hex_line Teensy.teensy35
           (set_byte_count 17 Teensy.stale_line) buf) = false.
Proof.
  intros buf.
  destruct (@X24_byte_count_from_uninitialised_local Teensy.teensy35
              (set_byte_count 17 Teensy.stale_line) buf) as [_ H];
    [vm_compute; reflexivity|].
  split; [vm_compute; reflexivity|].
  destruct (valid _) eqn:E; [|reflexivity].
  destruct (H eq_refl) as [H1 _]. vm_compute in H1. contradiction H1.
  reflexivity.
Defined.

Lemma X25_witness :
  fst (Teensy.update 0 Teensy.line_received)
  = Some (ResponseCode.SEND_LINE, ErrorCode.NONE) /\
  hex_line_segment_count (snd (Teensy.update 0 Teensy.line_received)) = -1.
Proof.
  destruct (@X25_answer_to_a_completed_line Teensy.teensy35
              Teensy.stale_line 0 0 Teensy.line_received)
    as (H1 & H2 & _);
    [vm_compute; reflexivity | vm_compute; reflexivity
    |vm_compute; reflexivity | vm_compute; reflexivity
    |vm_compute; reflexivity |].
  split; [exact H1 | exact H2].
Defined.
